(** * Workflow generator: schema validation, execution layering, step
    classification and file generation.

    A shallow embedding of [workflow_schema.py], [workflow_manager.py] and
    the orchestration part of [workflow_generator.py].  Python [str] values
    are modelled as Rocq strings of ASCII characters, Python [int] as [Z],
    [set] as [gset], the registry [dict] as [gmap], and a [dict] whose
    iteration order the code depends on as an insertion-ordered association
    list.  A raised [ValueError] is the [Raise] case of [result]. *)

From Stdlib Require Import ZArith String Ascii List SpecFloat.
From stdpp Require Import gmap strings list sorting relations pretty.

Set Warnings "-clear-no-such-hyp".

Local Open Scope string_scope.
Local Open Scope list_scope.
Local Open Scope nat_scope.

(** ** Python string operations (ASCII model) *)

Module Py.

Definition is_upper (c : ascii) : bool :=
  let n := nat_of_ascii c in (65 <=? n)%nat && (n <=? 90)%nat.

Definition is_lower (c : ascii) : bool :=
  let n := nat_of_ascii c in (97 <=? n)%nat && (n <=? 122)%nat.

(** [str.isspace] on one ASCII character. *)
Definition is_space (c : ascii) : bool :=
  let n := nat_of_ascii c in
  ((9 <=? n)%nat && (n <=? 13)%nat) || ((28 <=? n)%nat && (n <=? 32)%nat).

Definition lower_char (c : ascii) : ascii :=
  if is_upper c then ascii_of_nat (nat_of_ascii c + 32) else c.

Definition upper_char (c : ascii) : ascii :=
  if is_lower c then ascii_of_nat (nat_of_ascii c - 32) else c.

(** [s.lower()] *)
Fixpoint lower (s : string) : string :=
  match s with
  | EmptyString => EmptyString
  | String c s' => String (lower_char c) (lower s')
  end.

(** [s.title()]: a cased character is upper-cased when the previous
    character is not cased and lower-cased otherwise. *)
Fixpoint title_from (previous_is_cased : bool) (s : string) : string :=
  match s with
  | EmptyString => EmptyString
  | String c s' =>
      if is_lower c then
        String (if previous_is_cased then c else upper_char c) (title_from true s')
      else if is_upper c then
        String (if previous_is_cased then lower_char c else c) (title_from true s')
      else String c (title_from false s')
  end.

Definition title (s : string) : string := title_from false s.

(** [k in s] for strings: [k] occurs in [s] as a contiguous substring. *)
Fixpoint contains (k s : string) : bool :=
  String.prefix k s ||
  match s with
  | EmptyString => false
  | String _ s' => contains k s'
  end.

(** [s.replace(old, new)] for one-character [old] and [new], the only
    form the program uses. *)
Fixpoint replace (old new : ascii) (s : string) : string :=
  match s with
  | EmptyString => EmptyString
  | String c s' => String (if Ascii.eqb c old then new else c) (replace old new s')
  end.

(** [s.split(sep)] for a one-character separator: empty fields are kept. *)
Fixpoint split_on (sep : ascii) (cur : string) (s : string) : list string :=
  match s with
  | EmptyString => [cur]
  | String c s' =>
      if Ascii.eqb c sep then cur :: split_on sep EmptyString s'
      else split_on sep (cur +:+ String c EmptyString) s'
  end.

Definition split (sep : ascii) (s : string) : list string :=
  split_on sep EmptyString s.

(** [s.split()]: runs of whitespace separate, empty fields are dropped. *)
Fixpoint split_ws_from (cur : string) (s : string) : list string :=
  match s with
  | EmptyString => if String.eqb cur EmptyString then [] else [cur]
  | String c s' =>
      if is_space c then
        if String.eqb cur EmptyString then split_ws_from EmptyString s'
        else cur :: split_ws_from EmptyString s'
      else split_ws_from (cur +:+ String c EmptyString) s'
  end.

Definition split_ws (s : string) : list string := split_ws_from EmptyString s.

(** [sep.join(parts)] *)
Fixpoint join (sep : string) (parts : list string) : string :=
  match parts with
  | [] => EmptyString
  | [p] => p
  | p :: ps => p +:+ sep +:+ join sep ps
  end.

(** [str(n)] for an [int]: decimal digits, a leading minus sign for
    negative numbers. *)
Definition str_of_int (n : Z) : string := pretty n.

(** The line feed character, [chr(10)]. *)
Definition newline : string := String (ascii_of_nat 10) EmptyString.

(** Truth value of an optional string: [None] and [""] are falsy. *)
Definition truthy (o : option string) : bool :=
  match o with
  | Some s => negb (String.eqb s EmptyString)
  | None => false
  end.

(** [f(o) if o else d] for an optional string [o]. *)
Definition if_truthy {A} (o : option string) (f : string → A) (d : A) : A :=
  match o with
  | Some s => if truthy o then f s else d
  | None => d
  end.

(** [s.capitalize()] *)
Definition capitalize (s : string) : string :=
  match s with
  | EmptyString => EmptyString
  | String c s' => String (upper_char c) (lower s')
  end.

(** A value of type [Any]: the values a JSON document can hold. *)
#[warnings="-register-all"]
Inductive obj : Type :=
| PyNone
| PyBool (b : bool)
| PyInt (n : Z)
| PyFloat (x : spec_float)
| PyStr (s : string)
| PyList (items : list obj)
| PyDict (items : list (string * obj)).

(** A keyword argument of a constructor call: written by the caller or
    left out. *)
Inductive kwarg (A : Type) : Type :=
| Omitted
| Given (a : A).
Global Arguments Omitted {A}.
Global Arguments Given {A} a.

End Py.

Export Py (kwarg, Omitted, Given).

(** ** workflow_schema.py *)

Inductive ParameterType :=
| STRING | NUMBER | BOOLEAN | FILE | SELECT | MULTISELECT
| TEXT_AREA | JSON | DATE | URL | EMAIL.

(** The step categories; the specification calls [LLM_PROCESSING]
    inference-processing, [HTTP_REQUEST] external-request and the others by
    their names. *)
Inductive StepType :=
| FORM_INPUT | LLM_PROCESSING | FILE_PROCESSING | HTTP_REQUEST
| DATA_TRANSFORMATION | CODE_EXECUTION | OUTPUT_GENERATION
| CONDITIONAL | LOOP | PARALLEL.

Global Instance ParameterType_eq_dec : EqDecision ParameterType.
Proof. solve_decision. Defined.

Global Instance StepType_eq_dec : EqDecision StepType.
Proof. solve_decision. Defined.

(** The [ValueError]s the program raises, by message.  In the words of the
    specification [OptionsRequired] is its InvalidParameter,
    [NonExistentStep] its UnknownDependency, [CircularDependency] its
    CyclicDependency and [WorkflowNotFound] its UnknownWorkflow. *)
Inductive ValueError :=
| OptionsRequired (type : ParameterType)
    (* "Options required for {type} parameter type" *)
| NonExistentStep (step_id dep : string)
    (* "Step {step.id} depends on non-existent step {dep}" *)
| CircularDependency (remaining : gset string)
    (* "Circular dependency detected in steps: {remaining}" *)
| WorkflowNotFound (workflow_id : string).
    (* "Workflow {workflow_id} not found in registry" *)

(** The outcome of a call that may raise an exception of type [E]. *)
Inductive outcome (E A : Type) : Type :=
| Ok (a : A)
| Raise (e : E).
Arguments Ok {E A} a.
Arguments Raise {E A} e.

Global Instance outcome_ret {E} : MRet (outcome E) := λ A a, Ok a.

Global Instance outcome_bind {E} : MBind (outcome E) := λ A B k r,
  match r with
  | Ok a => k a
  | Raise e => Raise e
  end.

Abbreviation result := (outcome ValueError).

(** The call returned a value. *)
Definition returns {E A} (r : outcome E A) : Prop := ∃ a, r = Ok a.

Module ValidationRule.
Inductive kind := required | min | max | pattern | custom.
Inductive bound := BStr (s : string) | BInt (n : Z) | BFloat (x : spec_float).
Record t := mk {
  type : kind;
  value : option bound;
  message : string
}.
End ValidationRule.

Module ParameterDefinition.
(** An entry of [options]: [Union[str, Dict[str, Any]]]. *)
Inductive choice := OptStr (s : string) | OptDict (d : list (string * Py.obj)).

Record t := mk {
  name : string;
  type : ParameterType;
  label : option string;
  description : option string;
  required : bool;
  default : Py.obj;
  options : option (list choice);
  validation : option (list ValidationRule.t);
  placeholder : option string;
  help_text : option string;
  depends_on : option (list (string * Py.obj))
}.

(** [not v] for the optional list: [None] and [[]] are falsy. *)
Definition falsy (v : option (list choice)) : bool :=
  match v with
  | None | Some [] => true
  | Some (_ :: _) => false
  end.

(** The [@validator('options')] body; [type] is [values.get('type')]. *)
Definition validate_options (v : option (list choice)) (type : ParameterType)
  : result (option (list choice)) :=
  if bool_decide (type ∈ [SELECT; MULTISELECT]) && falsy v
  then Raise (OptionsRequired type)
  else Ok v.

(** [ParameterDefinition(...)].  The validator is registered with
    [@validator('options')] and no [always=True], so it runs only on a
    value the caller supplies for [options]; when the keyword is left out
    the field takes its default [None] unvalidated. *)
Definition init (name : string) (type : ParameterType)
    (label description : option string) (required : bool) (default : Py.obj)
    (options : kwarg (option (list choice)))
    (validation : option (list ValidationRule.t))
    (placeholder help_text : option string)
    (depends_on : option (list (string * Py.obj))) : result t :=
  options ← match options with
            | Omitted => Ok None
            | Given v => validate_options v type
            end ;
  Ok (mk name type label description required default options validation
         placeholder help_text depends_on).
End ParameterDefinition.

Module LLMConfiguration.
Inductive format := text | json | structured.
Record t := mk {
  template_name : option string;
  system_prompt : option string;
  user_prompt_template : string;
  template_variables : option (list string);
  max_tokens : option Z;
  temperature : option spec_float;
  response_format : option format;
  response_schema : option (list (string * Py.obj))
}.
End LLMConfiguration.

Module ConditionalLogic.
Record t := mk {
  condition : string;
  true_steps : list string;
  false_steps : option (list string)
}.
End ConditionalLogic.

Module StepDefinition.
Record t := mk {
  id : string;
  name : string;
  type : StepType;
  description : option string;
  depends_on : option (list string);
  parameters : option (list ParameterDefinition.t);
  llm_config : option LLMConfiguration.t;
  conditional : option ConditionalLogic.t;
  custom_handler : option string;
  output_mapping : option (list (string * string));
  error_handling : option (list (string * Py.obj));
  timeout : option Z;
  retry_config : option (list (string * Py.obj));
  ui_config : option (list (string * Py.obj))
}.
End StepDefinition.

Module WorkflowMetadata.
Record t := mk {
  id : string;
  name : string;
  description : option string;
  version : string;
  author : option string;
  tags : option (list string);
  category : option string;
  icon : option string;
  created_at : option string;
  updated_at : option string
}.
End WorkflowMetadata.

Module WorkflowConfiguration.
Inductive level := DEBUG | INFO | WARNING | ERROR.
Record t := mk {
  parallel_execution : bool;
  max_parallel_steps : Z;
  default_timeout : Z;
  auto_advance : bool;
  save_intermediate_results : bool;
  enable_rollback : bool;
  logging_level : level
}.
(** [WorkflowConfiguration()] *)
Definition default : t := mk false 3 300 true true false INFO.
End WorkflowConfiguration.

(** An insertion-ordered [dict] with string keys: assigning to a present
    key keeps its position, a new key goes last. *)
Module Dict.
Section dict.
Context {V : Type}.

Fixpoint set (d : list (string * V)) (k : string) (v : V) : list (string * V) :=
  match d with
  | [] => [(k, v)]
  | (k', v') :: d' =>
      if decide (k' = k) then (k, v) :: d' else (k', v') :: set d' k v
  end.

Fixpoint get (d : list (string * V)) (k : string) : option V :=
  match d with
  | [] => None
  | (k', v') :: d' => if decide (k' = k) then Some v' else get d' k
  end.

Definition keys (d : list (string * V)) : list string := d.*1.
End dict.
End Dict.

Module WorkflowSchema.
Record t := mk {
  metadata : WorkflowMetadata.t;
  steps : list StepDefinition.t;
  configuration : option WorkflowConfiguration.t;
  global_parameters : option (list ParameterDefinition.t);
  global_variables : option (list (string * Py.obj))
}.

(** [{step.id for step in v}] *)
Definition step_ids (v : list StepDefinition.t) : gset string :=
  list_to_set (StepDefinition.id <$> v).

(** The inner [for dep in step.depends_on] loop of the validator. *)
Fixpoint check_deps (step_ids : gset string) (step_id : string)
    (deps : list string) : result unit :=
  match deps with
  | [] => Ok tt
  | dep :: deps' =>
      if bool_decide (dep ∈ step_ids) then check_deps step_ids step_id deps'
      else Raise (NonExistentStep step_id dep)
  end.

(** The outer [for step in v] loop; [if step.depends_on] skips [None]
    and the empty list. *)
Fixpoint check_steps (step_ids : gset string) (v : list StepDefinition.t)
  : result unit :=
  match v with
  | [] => Ok tt
  | step :: v' =>
      _ ← match StepDefinition.depends_on step with
          | Some ((_ :: _) as deps) => check_deps step_ids (StepDefinition.id step) deps
          | _ => Ok tt
          end ;
      check_steps step_ids v'
  end.

(** The [@validator('steps')] body. *)
Definition validate_step_dependencies (v : list StepDefinition.t)
  : result (list StepDefinition.t) :=
  _ ← check_steps (step_ids v) v ;
  Ok v.

(** [WorkflowSchema(metadata=..., steps=..., ...)]; [steps] is a required
    field, so its validator always runs. *)
Definition init (metadata : WorkflowMetadata.t) (steps : list StepDefinition.t)
    (configuration : option WorkflowConfiguration.t)
    (global_parameters : option (list ParameterDefinition.t))
    (global_variables : option (list (string * Py.obj))) : result t :=
  steps ← validate_step_dependencies steps ;
  Ok (mk metadata steps configuration global_parameters global_variables).

(** [next((step for step in self.steps if step.id == step_id), None)] *)
Definition get_step_by_id (self : t) (step_id : string) : option StepDefinition.t :=
  head (filter (λ step, StepDefinition.id step = step_id) (steps self)).

(** [step.depends_on or []] *)
Definition deps_of (step : StepDefinition.t) : list string :=
  default [] (StepDefinition.depends_on step).

(** The dict comprehension of [get_execution_order], continuing from the
    entries [g] already made. *)
Definition step_graph_from (g : list (string * list string))
    (steps : list StepDefinition.t) : list (string * list string) :=
  foldl (λ g step, Dict.set g (StepDefinition.id step) (deps_of step)) g steps.

(** [{step.id: step.depends_on or [] for step in self.steps}] *)
Definition step_graph_of (steps : list StepDefinition.t) : list (string * list string) :=
  step_graph_from [] steps.

(** The condition of the list comprehension computing [ready_steps]. *)
Definition is_ready (processed : gset string) (entry : string * list string) : Prop :=
  (entry.1 ∉ processed) ∧ Forall (λ dep, dep ∈ processed) (entry.2).

Global Instance is_ready_dec processed entry : Decision (is_ready processed entry).
Proof. unfold is_ready. apply _. Defined.

Definition ready_steps (step_graph : list (string * list string))
    (processed : gset string) : list string :=
  (filter (is_ready processed) step_graph).*1.

(** The [while] loop of [get_execution_order]; [n] is [len(self.steps)].
    Every iteration that does not raise adds a step to [processed], so
    [n] rounds of fuel are enough (see [get_execution_order_total]); [None]
    stands for running out of fuel. *)
Fixpoint execution_loop (fuel n : nat) (step_graph : list (string * list string))
    (execution_order : list (list string)) (processed : gset string)
  : option (result (list (list string))) :=
  if decide (size processed < n) then
    match fuel with
    | O => None
    | S fuel' =>
        let ready := ready_steps step_graph processed in
        match ready with
        | [] =>
            let remaining := list_to_set (Dict.keys step_graph) ∖ processed in
            Some (Raise (CircularDependency remaining))
        | _ :: _ =>
            execution_loop fuel' n step_graph
              (execution_order ++ [ready]) (processed ∪ list_to_set ready)
        end
    end
  else Some (Ok execution_order).

Definition get_execution_order (self : t) : option (result (list (list string))) :=
  execution_loop (length (steps self)) (length (steps self))
    (step_graph_of (steps self)) [] ∅.
End WorkflowSchema.

(** ** The dependency relation of a step graph *)

Section dependency_relation.
Variable step_graph : list (string * list string).

(** [d] is listed among the dependencies of [x]. *)
Definition depends (x d : string) : Prop :=
  ∃ deps, Dict.get step_graph x = Some deps ∧ d ∈ deps.

Definition has_cycle : Prop := ∃ x, tc depends x x.

Definition acyclic : Prop := ∀ x, ¬ tc depends x x.

(** [x] can never be placed: following dependencies from [x] leads to a
    step on a cycle or to an id that is not a step. *)
Definition blocked (x : string) : Prop :=
  ∃ y, rtc depends x y ∧ (tc depends y y ∨ y ∉ Dict.keys step_graph).

(** The loop invariant of [get_execution_order]. *)
Record layered (execution_order : list (list string)) (processed : gset string)
  : Prop := Layered {
  layered_set : processed = list_to_set (concat execution_order);
  layered_nodup : NoDup (concat execution_order);
  layered_keys : ∀ x, x ∈ concat execution_order → x ∈ Dict.keys step_graph;
  layered_deps : ∀ i w s d,
    execution_order !! i = Some w → s ∈ w → depends s d →
    ∃ j w', j < i ∧ execution_order !! j = Some w' ∧ d ∈ w';
  layered_nonempty : ∀ w, w ∈ execution_order → w ≠ [];
  layered_free : ∀ x, x ∈ concat execution_order → ¬ blocked x
}.
End dependency_relation.

(** ** workflow_manager.py *)

Module WorkflowManager.

(** The manager object; the directory paths and the generator it also
    holds take no part in the operations modelled here. *)
Record t := mk {
  workflows_registry : gmap string WorkflowSchema.t
}.

Definition llm_keywords : list string :=
  ["ai"; "generate"; "analysis"; "analyze"; "process"; "llm"; "gpt";
   "claude"; "create"; "write"].

Definition input_keywords : list string :=
  ["input"; "upload"; "file"; "data"; "schema"].

Definition execution_keywords : list string :=
  ["execute"; "run"; "test"; "code"].

Definition http_keywords : list string :=
  ["crawl"; "fetch"; "api"; "request"; "extract"; "scrape"].

(** [any(keyword in task_lower for keyword in keywords)] *)
Definition any_keyword (keywords : list string) (task_lower : string) : bool :=
  existsb (λ keyword, Py.contains keyword task_lower) keywords.

Definition inferred : Type :=
  StepType * list ParameterDefinition.t * option LLMConfiguration.t
  * option string.

Definition _infer_step_configuration (task_desc : string) : result inferred :=
  let task_lower := Py.lower task_desc in
  if any_keyword llm_keywords task_lower then
    provider ← ParameterDefinition.init "llm_provider" SELECT
      (Some "LLM Provider") None true (Py.PyStr "openai")
      (Given (Some [ParameterDefinition.OptStr "openai";
                    ParameterDefinition.OptStr "anthropic";
                    ParameterDefinition.OptStr "google"]))
      None None None None;
    let llm_config :=
      LLMConfiguration.mk None None
        ("Execute the following task: " +:+ task_desc +:+ Py.newline
         +:+ Py.newline +:+ "Input data: {input_data}")
        (Some ["input_data"]) None None (Some LLMConfiguration.text) None in
    Ok (LLM_PROCESSING, [provider], Some llm_config, None)
  else if any_keyword input_keywords task_lower then
    parameters ←
      (if Py.contains "file" task_lower || Py.contains "upload" task_lower then
         data_file ← ParameterDefinition.init "data_file" FILE
           (Some "Data File") (Some "Upload the data file to process") true
           Py.PyNone Omitted None None None None;
         Ok [data_file]
       else Ok []);
    parameters ←
      (if Py.contains "schema" task_lower then
         schema_info ← ParameterDefinition.init "schema_info" TEXT_AREA
           (Some "Schema Information") None false Py.PyNone Omitted None
           (Some "Optional schema information") None None;
         Ok (parameters ++ [schema_info])
       else Ok parameters);
    Ok (FORM_INPUT, parameters, None, None)
  else if any_keyword execution_keywords task_lower then
    let custom_handler :=
      "execute_" +:+ Py.replace " " "_" (Py.lower task_desc) in
    Ok (CODE_EXECUTION, [], None, Some custom_handler)
  else if any_keyword http_keywords task_lower then
    parameters ←
      (if Py.contains "url" task_lower || Py.contains "page" task_lower
          || Py.contains "crawl" task_lower then
         page_url ← ParameterDefinition.init "page_url" URL
           (Some "Page URL") (Some "URL of the page to process") true
           Py.PyNone Omitted None None None None;
         Ok [page_url]
       else Ok []);
    let custom_handler :=
      "handle_" +:+ Py.replace " " "_" (Py.lower task_desc) in
    Ok (HTTP_REQUEST, parameters, None, Some custom_handler)
  else
    input_data ← ParameterDefinition.init "input_data" TEXT_AREA
      (Some "Input Data") None false Py.PyNone Omitted None
      (Some "Enter input data for this step") None None;
    Ok (DATA_TRANSFORMATION, [input_data], None, None).

(** Order of [(step_num, task_desc)] pairs under [sorted]; the keys of a
    dict are distinct, so the key decides. *)
Definition item_le (a b : Z * string) : Prop := (a.1 ≤ b.1)%Z.

Global Instance item_le_dec : RelDecision item_le.
Proof. intros a b. unfold item_le. apply _. Defined.

Global Instance item_le_transitive : Transitive item_le.
Proof. intros a b c. unfold item_le. lia. Qed.

Global Instance item_le_total : Total item_le.
Proof. intros a b. unfold item_le. lia. Qed.

(** [f"step_{step_num}"] *)
Definition step_id_of (step_num : Z) : string := "step_" +:+ Py.str_of_int step_num.

(** The body of the [for step_num, task_desc in sorted(tasks.items())]
    loop: the step built for one task. *)
Definition make_step (item : Z * string) : result StepDefinition.t :=
  let '(step_num, task_desc) := item in
  let step_id := step_id_of step_num in
  let step_name := Py.title task_desc in
  '(step_type, parameters, llm_config, custom_handler) ←
    _infer_step_configuration task_desc;
  Ok (StepDefinition.mk step_id step_name step_type
        (Some ("Execute " +:+ task_desc))
        (if decide (1 < step_num)%Z
         then Some [step_id_of (step_num - 1)] else None)
        (Some parameters) llm_config None custom_handler
        None None None None None).

(** The steps loop, raising at the first step whose construction raises. *)
Fixpoint make_steps (items : list (Z * string)) : result (list StepDefinition.t) :=
  match items with
  | [] => Ok []
  | item :: items' =>
      step ← make_step item;
      steps ← make_steps items';
      Ok (step :: steps)
  end.

(** [workflow_id] after the [if not workflow_id] block. *)
Definition resolve_id (workflow_name workflow_id : option string) : string :=
  Py.if_truthy workflow_id (λ workflow_id, workflow_id)
    (Py.replace "-" "_"
       (Py.join "_"
          (Py.if_truthy workflow_name
             (λ workflow_name, Py.split_ws (Py.lower workflow_name))
             ["auto"; "workflow"]))).

(** [workflow_name] after the [if not workflow_name] block. *)
Definition resolve_name (workflow_name : option string) (workflow_id : string)
  : string :=
  Py.if_truthy workflow_name (λ workflow_name, workflow_name)
    (Py.title (Py.join " " (Py.split "_" workflow_id))).

(** [create_workflow_from_tasks]: the result of the call together with
    the manager afterwards.  The registry is assigned only after the
    schema has been constructed, so a raise leaves the manager as it
    was. *)
Definition create_workflow_from_tasks (self : t) (tasks : gmap Z string)
    (workflow_name workflow_id description : option string)
    (category : string) : result string * t :=
  let workflow_id := resolve_id workflow_name workflow_id in
  let workflow_name := resolve_name workflow_name workflow_id in
  let built :=
    steps ← make_steps (merge_sort item_le (map_to_list tasks));
    WorkflowSchema.init
      (WorkflowMetadata.mk workflow_id workflow_name
         (Some (Py.if_truthy description (λ description, description)
                  ("Auto-generated workflow for " +:+ workflow_name)))
         "1.0.0" (Some "Workflow Manager Auto-Generator") None
         (Some category) None None None)
      steps (Some WorkflowConfiguration.default) None None in
  match built with
  | Ok workflow =>
      (Ok workflow_id,
       mk (<[workflow_id := workflow]> (workflows_registry self)))
  | Raise e => (Raise e, self)
  end.

(** [get_workflow_schema] *)
Definition get_workflow_schema (self : t) (workflow_id : string)
  : result WorkflowSchema.t :=
  match workflows_registry self !! workflow_id with
  | Some workflow => Ok workflow
  | None => Raise (WorkflowNotFound workflow_id)
  end.
(** One entry of the dict [list_workflows] returns. *)
Record summary := {
  summary_name : string;
  summary_description : option string;
  summary_category : option string;
  summary_steps : nat;
  summary_version : string
}.

(** [list_workflows] *)
Definition list_workflows (self : t) : gmap string summary :=
  (λ workflow,
     {| summary_name := WorkflowMetadata.name (WorkflowSchema.metadata workflow);
        summary_description :=
          WorkflowMetadata.description (WorkflowSchema.metadata workflow);
        summary_category :=
          WorkflowMetadata.category (WorkflowSchema.metadata workflow);
        summary_steps := length (WorkflowSchema.steps workflow);
        summary_version :=
          WorkflowMetadata.version (WorkflowSchema.metadata workflow) |})
  <$> workflows_registry self.

(** [{i+1: task for i, task in enumerate(args.create)}] of [main]; the
    keys are distinct, so the order of insertion does not matter. *)
Definition tasks_of_args (args : list string) : gmap Z string :=
  list_to_map (imap (λ i task, ((Z.of_nat i + 1)%Z, task)) args).
End WorkflowManager.

(** The step built for the task numbered [item.1]: its id, and its default
    dependency on the step numbered one less when the number exceeds 1. *)
Definition numbered (item : Z * string) (step : StepDefinition.t) : Prop :=
  StepDefinition.id step = WorkflowManager.step_id_of item.1 ∧
  WorkflowSchema.deps_of step =
    if decide (1 < item.1)%Z then [WorkflowManager.step_id_of (item.1 - 1)] else [].

(** ** The schema dump: [model_dump()] as a document *)

Module Dump.
Import Py.

Definition opt {A} (f : A → obj) (o : option A) : obj :=
  match o with
  | Some a => f a
  | None => PyNone
  end.

Definition list_of {A} (f : A → obj) (l : list A) : obj := PyList (f <$> l).

Definition ParameterType_value (t : ParameterType) : string :=
  match t with
  | STRING => "string" | NUMBER => "number" | BOOLEAN => "boolean"
  | FILE => "file" | SELECT => "select" | MULTISELECT => "multiselect"
  | TEXT_AREA => "textarea" | JSON => "json" | DATE => "date"
  | URL => "url" | EMAIL => "email"
  end.

Definition StepType_value (t : StepType) : string :=
  match t with
  | FORM_INPUT => "form_input" | LLM_PROCESSING => "llm_processing"
  | FILE_PROCESSING => "file_processing" | HTTP_REQUEST => "http_request"
  | DATA_TRANSFORMATION => "data_transformation"
  | CODE_EXECUTION => "code_execution"
  | OUTPUT_GENERATION => "output_generation"
  | CONDITIONAL => "conditional" | LOOP => "loop" | PARALLEL => "parallel"
  end.

Definition kind_value (k : ValidationRule.kind) : string :=
  match k with
  | ValidationRule.required => "required" | ValidationRule.min => "min"
  | ValidationRule.max => "max" | ValidationRule.pattern => "pattern"
  | ValidationRule.custom => "custom"
  end.

Definition format_value (f : LLMConfiguration.format) : string :=
  match f with
  | LLMConfiguration.text => "text" | LLMConfiguration.json => "json"
  | LLMConfiguration.structured => "structured"
  end.

Definition level_value (l : WorkflowConfiguration.level) : string :=
  match l with
  | WorkflowConfiguration.DEBUG => "DEBUG" | WorkflowConfiguration.INFO => "INFO"
  | WorkflowConfiguration.WARNING => "WARNING"
  | WorkflowConfiguration.ERROR => "ERROR"
  end.

Definition bound (b : ValidationRule.bound) : obj :=
  match b with
  | ValidationRule.BStr s => PyStr s
  | ValidationRule.BInt n => PyInt n
  | ValidationRule.BFloat x => PyFloat x
  end.

Definition ValidationRule (r : ValidationRule.t) : obj :=
  PyDict [("type", PyStr (kind_value (ValidationRule.type r)));
          ("value", opt bound (ValidationRule.value r));
          ("message", PyStr (ValidationRule.message r))].

Definition choice (c : ParameterDefinition.choice) : obj :=
  match c with
  | ParameterDefinition.OptStr s => PyStr s
  | ParameterDefinition.OptDict d => PyDict d
  end.

Definition ParameterDefinition (p : ParameterDefinition.t) : obj :=
  PyDict [("name", PyStr (ParameterDefinition.name p));
          ("type", PyStr (ParameterType_value (ParameterDefinition.type p)));
          ("label", opt PyStr (ParameterDefinition.label p));
          ("description", opt PyStr (ParameterDefinition.description p));
          ("required", PyBool (ParameterDefinition.required p));
          ("default", ParameterDefinition.default p);
          ("options", opt (list_of choice) (ParameterDefinition.options p));
          ("validation", opt (list_of ValidationRule) (ParameterDefinition.validation p));
          ("placeholder", opt PyStr (ParameterDefinition.placeholder p));
          ("help_text", opt PyStr (ParameterDefinition.help_text p));
          ("depends_on", opt PyDict (ParameterDefinition.depends_on p))].

Definition LLMConfiguration (c : LLMConfiguration.t) : obj :=
  PyDict [("template_name", opt PyStr (LLMConfiguration.template_name c));
          ("system_prompt", opt PyStr (LLMConfiguration.system_prompt c));
          ("user_prompt_template", PyStr (LLMConfiguration.user_prompt_template c));
          ("template_variables", opt (list_of PyStr) (LLMConfiguration.template_variables c));
          ("max_tokens", opt PyInt (LLMConfiguration.max_tokens c));
          ("temperature", opt PyFloat (LLMConfiguration.temperature c));
          ("response_format",
           opt (λ f, PyStr (format_value f)) (LLMConfiguration.response_format c));
          ("response_schema", opt PyDict (LLMConfiguration.response_schema c))].

Definition ConditionalLogic (c : ConditionalLogic.t) : obj :=
  PyDict [("condition", PyStr (ConditionalLogic.condition c));
          ("true_steps", list_of PyStr (ConditionalLogic.true_steps c));
          ("false_steps", opt (list_of PyStr) (ConditionalLogic.false_steps c))].

(** A [Dict[str, str]] field. *)
Definition str_dict (d : list (string * string)) : obj :=
  PyDict (prod_map id PyStr <$> d).

Definition StepDefinition (s : StepDefinition.t) : obj :=
  PyDict [("id", PyStr (StepDefinition.id s));
          ("name", PyStr (StepDefinition.name s));
          ("type", PyStr (StepType_value (StepDefinition.type s)));
          ("description", opt PyStr (StepDefinition.description s));
          ("depends_on", opt (list_of PyStr) (StepDefinition.depends_on s));
          ("parameters", opt (list_of ParameterDefinition) (StepDefinition.parameters s));
          ("llm_config", opt LLMConfiguration (StepDefinition.llm_config s));
          ("conditional", opt ConditionalLogic (StepDefinition.conditional s));
          ("custom_handler", opt PyStr (StepDefinition.custom_handler s));
          ("output_mapping", opt str_dict (StepDefinition.output_mapping s));
          ("error_handling", opt PyDict (StepDefinition.error_handling s));
          ("timeout", opt PyInt (StepDefinition.timeout s));
          ("retry_config", opt PyDict (StepDefinition.retry_config s));
          ("ui_config", opt PyDict (StepDefinition.ui_config s))].

Definition WorkflowMetadata (m : WorkflowMetadata.t) : obj :=
  PyDict [("id", PyStr (WorkflowMetadata.id m));
          ("name", PyStr (WorkflowMetadata.name m));
          ("description", opt PyStr (WorkflowMetadata.description m));
          ("version", PyStr (WorkflowMetadata.version m));
          ("author", opt PyStr (WorkflowMetadata.author m));
          ("tags", opt (list_of PyStr) (WorkflowMetadata.tags m));
          ("category", opt PyStr (WorkflowMetadata.category m));
          ("icon", opt PyStr (WorkflowMetadata.icon m));
          ("created_at", opt PyStr (WorkflowMetadata.created_at m));
          ("updated_at", opt PyStr (WorkflowMetadata.updated_at m))].

Definition WorkflowConfiguration (c : WorkflowConfiguration.t) : obj :=
  PyDict [("parallel_execution", PyBool (WorkflowConfiguration.parallel_execution c));
          ("max_parallel_steps", PyInt (WorkflowConfiguration.max_parallel_steps c));
          ("default_timeout", PyInt (WorkflowConfiguration.default_timeout c));
          ("auto_advance", PyBool (WorkflowConfiguration.auto_advance c));
          ("save_intermediate_results",
           PyBool (WorkflowConfiguration.save_intermediate_results c));
          ("enable_rollback", PyBool (WorkflowConfiguration.enable_rollback c));
          ("logging_level", PyStr (level_value (WorkflowConfiguration.logging_level c)))].

(** [workflow.model_dump()], with enum members written as their values
    (the form [json.dumps] gives them). *)
Definition WorkflowSchema (w : WorkflowSchema.t) : obj :=
  PyDict [("metadata", WorkflowMetadata (WorkflowSchema.metadata w));
          ("steps", list_of StepDefinition (WorkflowSchema.steps w));
          ("configuration", opt WorkflowConfiguration (WorkflowSchema.configuration w));
          ("global_parameters",
           opt (list_of ParameterDefinition) (WorkflowSchema.global_parameters w));
          ("global_variables", opt PyDict (WorkflowSchema.global_variables w))].
End Dump.

(** ** workflow_generator.py *)

Module WorkflowGenerator.

(** The keyword arguments given to [template.render] for the FastAPI
    plugin template. *)
Record plugin_context := {
  plugin_workflow_id : string;
  plugin_workflow_name : string;
  plugin_class_name : string;
  plugin_description : string;
  plugin_version : string;
  plugin_author : option string;
  plugin_category : option string;
  plugin_steps : list StepDefinition.t;
  plugin_global_parameters : list ParameterDefinition.t;
  plugin_custom_handlers : gset string
}.

(** The keyword arguments given to [template.render] for the React
    component template. *)
Record component_context := {
  component_workflow_id : string;
  component_workflow_name : string;
  component_name : string;
  component_steps : list StepDefinition.t
}.

(** ["".join(word.capitalize() for word in workflow.metadata.id.split("_"))] *)
Definition class_name_of (workflow_id : string) : string :=
  Py.join "" (Py.capitalize <$> Py.split "_" workflow_id).

(** The loop collecting [custom_handlers]; [None] and [""] are skipped. *)
Definition custom_handlers_of (steps : list StepDefinition.t) : gset string :=
  foldl (λ handlers step,
           Py.if_truthy (StepDefinition.custom_handler step)
             (λ handler, handlers ∪ {[handler]}) handlers)
        ∅ steps.

(** [generate_app_config] *)
Definition generate_app_config (workflow : WorkflowSchema.t) : Py.obj :=
  let metadata := WorkflowSchema.metadata workflow in
  Py.PyDict
    [("id", Py.PyStr (WorkflowMetadata.id metadata));
     ("name", Py.PyStr (WorkflowMetadata.name metadata));
     ("description",
      Py.PyStr (Py.if_truthy (WorkflowMetadata.description metadata) (λ d, d) ""));
     ("category",
      Py.PyStr (Py.if_truthy (WorkflowMetadata.category metadata) (λ c, c) "general"));
     ("plugin_class",
      Py.PyStr (WorkflowMetadata.id metadata +:+ "_plugin.plugin_instance"));
     ("steps",
      Py.PyList
        ((λ step,
            Py.PyDict
              [("id", Py.PyStr (StepDefinition.id step));
               ("name", Py.PyStr (StepDefinition.name step));
               ("description",
                Py.PyStr (Py.if_truthy (StepDefinition.description step)
                            (λ d, d) ""))])
           <$> WorkflowSchema.steps workflow))].

Section emitters.
(** The template engine and the JSON encoder are outside the program:
    each may return text or raise an exception of type [exn]. *)
Context {exn : Type}.
Variable render_plugin : plugin_context → outcome exn string.
Variable render_component : component_context → outcome exn string.
Variable json_dumps : Py.obj → outcome exn string.

Definition generate_fastapi_plugin (workflow : WorkflowSchema.t)
  : outcome exn string :=
  let metadata := WorkflowSchema.metadata workflow in
  render_plugin
    {| plugin_workflow_id := WorkflowMetadata.id metadata;
       plugin_workflow_name := WorkflowMetadata.name metadata;
       plugin_class_name := class_name_of (WorkflowMetadata.id metadata);
       plugin_description :=
         Py.if_truthy (WorkflowMetadata.description metadata) (λ d, d) "";
       plugin_version := WorkflowMetadata.version metadata;
       plugin_author := WorkflowMetadata.author metadata;
       plugin_category := WorkflowMetadata.category metadata;
       plugin_steps := WorkflowSchema.steps workflow;
       plugin_global_parameters :=
         default [] (WorkflowSchema.global_parameters workflow);
       plugin_custom_handlers :=
         custom_handlers_of (WorkflowSchema.steps workflow) |}.

Definition generate_react_component (workflow : WorkflowSchema.t)
  : outcome exn string :=
  let metadata := WorkflowSchema.metadata workflow in
  render_component
    {| component_workflow_id := WorkflowMetadata.id metadata;
       component_workflow_name := WorkflowMetadata.name metadata;
       component_name :=
         class_name_of (WorkflowMetadata.id metadata) +:+ "Workflow";
       component_steps := WorkflowSchema.steps workflow |}.

(** [generate_workflow_files]: the four artifacts keyed by file name. *)
Definition generate_workflow_files (workflow : WorkflowSchema.t)
  : outcome exn (gmap string string) :=
  let workflow_id := WorkflowMetadata.id (WorkflowSchema.metadata workflow) in
  let files : gmap string string := ∅ in
  plugin_code ← generate_fastapi_plugin workflow;
  let files := <[workflow_id +:+ "_plugin.py" := plugin_code]> files in
  component_code ← generate_react_component workflow;
  let files := <[workflow_id +:+ "_workflow.tsx" := component_code]> files in
  config ← json_dumps (generate_app_config workflow);
  let files := <[workflow_id +:+ "_config.json" := config]> files in
  schema ← json_dumps (Dump.WorkflowSchema workflow);
  let files := <[workflow_id +:+ "_schema.json" := schema]> files in
  Ok files.
End emitters.
End WorkflowGenerator.

(** ** workflow_manager.py: generating and deploying a registered workflow *)

Module Deployment.

(** What [generate_workflow] and [deploy_workflow] can raise: the
    [ValueError] for an unregistered id, the [KeyError] of a failed
    [files[...]] lookup, and whatever the emitters or the file system
    raise. *)
Inductive error (exn : Type) : Type :=
| NotRegistered (e : ValueError)
| KeyError (key : string)
| External (e : exn).
Arguments NotRegistered {exn} e.
Arguments KeyError {exn} key.
Arguments External {exn} e.

(** The three directories the manager holds. *)
Record directories (path : Type) := {
  backend_dir : path;
  frontend_dir : path;
  apps_dir : path
}.
Arguments backend_dir {path} _.
Arguments frontend_dir {path} _.
Arguments apps_dir {path} _.

(** The dict [deploy_workflow] returns. *)
Record deployed (path : Type) := {
  backend_plugin : path;
  frontend_component : path;
  app_config : path;
  schema : path
}.
Arguments backend_plugin {path} _.
Arguments frontend_component {path} _.
Arguments app_config {path} _.
Arguments schema {path} _.

(** A computation over the file system [fs] that may raise: the outcome
    together with the file system it leaves. *)
Definition io (E fs A : Type) : Type := fs → outcome E A * fs.

Global Instance io_ret {E fs} : MRet (io E fs) := λ A a st, (Ok a, st).

Global Instance io_bind {E fs} : MBind (io E fs) := λ A B k m st,
  match m st with
  | (Ok a, st') => k a st'
  | (Raise e, st') => (Raise e, st')
  end.

(** A step that does not touch the file system. *)
Definition pure {E fs A} (r : outcome E A) : io E fs A := λ st, (r, st).

Section deploy.
(** The template engine, the JSON encoder, path arithmetic and the file
    system are outside the program. *)
Context {exn path fs : Type}.
Variable render_plugin : WorkflowGenerator.plugin_context → outcome exn string.
Variable render_component : WorkflowGenerator.component_context → outcome exn string.
Variable json_dumps : Py.obj → outcome exn string.
(** [directory / name] and [path.parent] *)
Variable joinpath : path → string → path.
Variable parent : path → path.
(** [open(path, 'w')], [f.write(content)] with the closing of the file,
    and [path.mkdir(exist_ok=True)] *)
Variable open_w : path → io exn fs unit.
Variable write : path → string → io exn fs unit.
Variable mkdir : path → io exn fs unit.

(** An action of the file system as a step of the manager. *)
Definition external {A} (m : io exn fs A) : io (error exn) fs A := λ st,
  match m st with
  | (Ok a, st') => (Ok a, st')
  | (Raise e, st') => (Raise (External e), st')
  end.

(** The registry lookup guarded by [if workflow_id not in ...]. *)
Definition registered (self : WorkflowManager.t) (workflow_id : string)
  : outcome (error exn) WorkflowSchema.t :=
  match WorkflowManager.workflows_registry self !! workflow_id with
  | Some workflow => Ok workflow
  | None => Raise (NotRegistered (WorkflowNotFound workflow_id))
  end.

(** [self.generator.generate_workflow_files(workflow)] *)
Definition generated (workflow : WorkflowSchema.t)
  : outcome (error exn) (gmap string string) :=
  match WorkflowGenerator.generate_workflow_files render_plugin render_component
          json_dumps workflow with
  | Ok files => Ok files
  | Raise e => Raise (External e)
  end.

(** [generate_workflow] *)
Definition generate_workflow (self : WorkflowManager.t) (workflow_id : string)
  : outcome (error exn) (gmap string string) :=
  workflow ← registered self workflow_id;
  generated workflow.

(** [with open(p, 'w') as f: f.write(files[key])]: the file is opened
    before the content is looked up. *)
Definition write_file (files : gmap string string) (p : path) (key : string)
  : io (error exn) fs unit :=
  _ ← external (open_w p);
  content ← pure (match files !! key with
                  | Some content => Ok content
                  | None => Raise (KeyError key)
                  end);
  external (write p content).

(** [deploy_workflow] *)
Definition deploy_workflow (self : WorkflowManager.t) (dirs : directories path)
    (workflow_id : string) : io (error exn) fs (deployed path) :=
  workflow ← pure (registered self workflow_id);
  files ← pure (generated workflow);
  let backend_plugin_path :=
    joinpath (backend_dir dirs) (workflow_id +:+ "_plugin.py") in
  _ ← write_file files backend_plugin_path (workflow_id +:+ "_plugin.py");
  let frontend_component_path :=
    joinpath (frontend_dir dirs) (workflow_id +:+ "_workflow.tsx") in
  _ ← write_file files frontend_component_path (workflow_id +:+ "_workflow.tsx");
  let app_config_path :=
    joinpath (joinpath (apps_dir dirs) workflow_id) "config.json" in
  _ ← external (mkdir (parent app_config_path));
  _ ← write_file files app_config_path (workflow_id +:+ "_config.json");
  let schema_path :=
    joinpath (joinpath (apps_dir dirs) workflow_id) "schema.json" in
  _ ← write_file files schema_path (workflow_id +:+ "_schema.json");
  mret {| backend_plugin := backend_plugin_path;
          frontend_component := frontend_component_path;
          app_config := app_config_path;
          schema := schema_path |}.
End deploy.
End Deployment.

(** Every workflow of the registry is stored under its own metadata id. *)
Definition registry_keyed (self : WorkflowManager.t) : Prop :=
  ∀ workflow_id workflow,
    WorkflowManager.workflows_registry self !! workflow_id = Some workflow →
    WorkflowMetadata.id (WorkflowSchema.metadata workflow) = workflow_id.

(** The call raises nothing of its own: whatever it raises comes from the
    template engine, the JSON encoder or the file system. *)
Definition fails_externally {exn A fs : Type}
    (r : outcome (Deployment.error exn) A * fs) : Prop :=
  ∀ e, r.1 = Raise e → ∃ x, e = Deployment.External x.

(** ** Reading a schema dump back *)

(** Modelled from the spec: the deserializer of the schema dump, which the
    repository does not contain.  The spec asks for a document that mirrors
    the data model field for field and from which the graph can be
    reconstructed exactly; accordingly every class is read from a dict by
    its declared field names and types, an absent optional field takes its
    declared default, and the objects are built through the constructors of
    [workflow_schema.py], so the options validator runs on every [options]
    entry present in the document and the dependency validator on the
    steps. *)
Module Parse.
Import Py.

Inductive error :=
| Missing (field : string)
| Malformed (expected : string)
| Rejected (e : ValueError).

Abbreviation parsed := (outcome error).

Definition lift {A} (r : result A) : parsed A :=
  match r with
  | Ok a => Ok a
  | Raise e => Raise (Rejected e)
  end.

Definition str (v : obj) : parsed string :=
  match v with PyStr s => Ok s | _ => Raise (Malformed "str") end.

Definition bool (v : obj) : parsed Datatypes.bool :=
  match v with PyBool b => Ok b | _ => Raise (Malformed "bool") end.

Definition int (v : obj) : parsed Z :=
  match v with PyInt n => Ok n | _ => Raise (Malformed "int") end.

Definition float (v : obj) : parsed spec_float :=
  match v with PyFloat x => Ok x | _ => Raise (Malformed "float") end.

Definition dict (v : obj) : parsed (list (string * obj)) :=
  match v with PyDict d => Ok d | _ => Raise (Malformed "dict") end.

Definition any (v : obj) : parsed obj := Ok v.

Definition opt {A} (f : obj → parsed A) (v : obj) : parsed (option A) :=
  match v with
  | PyNone => Ok None
  | _ => a ← f v; Ok (Some a)
  end.

Fixpoint each {A B} (f : A → parsed B) (l : list A) : parsed (list B) :=
  match l with
  | [] => Ok []
  | v :: l' => a ← f v; rest ← each f l'; Ok (a :: rest)
  end.

Definition list_of {A} (f : obj → parsed A) (v : obj) : parsed (list A) :=
  match v with PyList l => each f l | _ => Raise (Malformed "list") end.

Definition str_dict (v : obj) : parsed (list (string * string)) :=
  match v with
  | PyDict d => each (λ '(k, x), s ← str x; Ok (k, s)) d
  | _ => Raise (Malformed "dict")
  end.

(** The member of an enumeration with the given value. *)
Definition member {A} (value : A → string) (members : list A) (expected : string)
    (v : obj) : parsed A :=
  match v with
  | PyStr s =>
      match head (filter (λ m, value m = s) members) with
      | Some m => Ok m
      | None => Raise (Malformed expected)
      end
  | _ => Raise (Malformed expected)
  end.

Definition required {A} (items : list (string * obj)) (field : string)
    (f : obj → parsed A) : parsed A :=
  match Dict.get items field with
  | Some v => f v
  | None => Raise (Missing field)
  end.

Definition optional {A} (items : list (string * obj)) (field : string)
    (f : obj → parsed A) (d : A) : parsed A :=
  match Dict.get items field with
  | Some v => f v
  | None => Ok d
  end.

Definition ParameterType : obj → parsed ParameterType :=
  member Dump.ParameterType_value
    [STRING; NUMBER; BOOLEAN; FILE; SELECT; MULTISELECT; TEXT_AREA; JSON;
     DATE; URL; EMAIL] "ParameterType".

Definition StepType : obj → parsed StepType :=
  member Dump.StepType_value
    [FORM_INPUT; LLM_PROCESSING; FILE_PROCESSING; HTTP_REQUEST;
     DATA_TRANSFORMATION; CODE_EXECUTION; OUTPUT_GENERATION; CONDITIONAL;
     LOOP; PARALLEL] "StepType".

Definition kind : obj → parsed ValidationRule.kind :=
  member Dump.kind_value
    [ValidationRule.required; ValidationRule.min; ValidationRule.max;
     ValidationRule.pattern; ValidationRule.custom] "rule type".

Definition format : obj → parsed LLMConfiguration.format :=
  member Dump.format_value
    [LLMConfiguration.text; LLMConfiguration.json; LLMConfiguration.structured]
    "response format".

Definition level : obj → parsed WorkflowConfiguration.level :=
  member Dump.level_value
    [WorkflowConfiguration.DEBUG; WorkflowConfiguration.INFO;
     WorkflowConfiguration.WARNING; WorkflowConfiguration.ERROR]
    "logging level".

Definition bound (v : obj) : parsed ValidationRule.bound :=
  match v with
  | PyStr s => Ok (ValidationRule.BStr s)
  | PyInt n => Ok (ValidationRule.BInt n)
  | PyFloat x => Ok (ValidationRule.BFloat x)
  | _ => Raise (Malformed "str, int or float")
  end.

Definition ValidationRule (v : obj) : parsed ValidationRule.t :=
  items ← dict v;
  type ← required items "type" kind;
  value ← optional items "value" (opt bound) None;
  message ← required items "message" str;
  Ok (ValidationRule.mk type value message).

Definition choice (v : obj) : parsed ParameterDefinition.choice :=
  match v with
  | PyStr s => Ok (ParameterDefinition.OptStr s)
  | PyDict d => Ok (ParameterDefinition.OptDict d)
  | _ => Raise (Malformed "str or dict")
  end.

Definition ParameterDefinition (v : obj) : parsed ParameterDefinition.t :=
  items ← dict v;
  name ← required items "name" str;
  type ← required items "type" ParameterType;
  label ← optional items "label" (opt str) None;
  description ← optional items "description" (opt str) None;
  required ← optional items "required" bool false;
  default ← optional items "default" any PyNone;
  options ← match Dict.get items "options" with
            | Some v => given ← opt (list_of choice) v; Ok (Given given)
            | None => Ok Omitted
            end;
  validation ← optional items "validation" (opt (list_of ValidationRule)) None;
  placeholder ← optional items "placeholder" (opt str) None;
  help_text ← optional items "help_text" (opt str) None;
  depends_on ← optional items "depends_on" (opt dict) None;
  lift (ParameterDefinition.init name type label description required default
          options validation placeholder help_text depends_on).

Definition LLMConfiguration (v : obj) : parsed LLMConfiguration.t :=
  items ← dict v;
  template_name ← optional items "template_name" (opt str) None;
  system_prompt ← optional items "system_prompt" (opt str) None;
  user_prompt_template ← required items "user_prompt_template" str;
  template_variables ← optional items "template_variables" (opt (list_of str)) None;
  max_tokens ← optional items "max_tokens" (opt int) None;
  temperature ← optional items "temperature" (opt float) None;
  response_format ← optional items "response_format" (opt format)
                      (Some LLMConfiguration.text);
  response_schema ← optional items "response_schema" (opt dict) None;
  Ok (LLMConfiguration.mk template_name system_prompt user_prompt_template
        template_variables max_tokens temperature response_format
        response_schema).

Definition ConditionalLogic (v : obj) : parsed ConditionalLogic.t :=
  items ← dict v;
  condition ← required items "condition" str;
  true_steps ← required items "true_steps" (list_of str);
  false_steps ← optional items "false_steps" (opt (list_of str)) None;
  Ok (ConditionalLogic.mk condition true_steps false_steps).

Definition StepDefinition (v : obj) : parsed StepDefinition.t :=
  items ← dict v;
  id ← required items "id" str;
  name ← required items "name" str;
  type ← required items "type" StepType;
  description ← optional items "description" (opt str) None;
  depends_on ← optional items "depends_on" (opt (list_of str)) None;
  parameters ← optional items "parameters" (opt (list_of ParameterDefinition)) None;
  llm_config ← optional items "llm_config" (opt LLMConfiguration) None;
  conditional ← optional items "conditional" (opt ConditionalLogic) None;
  custom_handler ← optional items "custom_handler" (opt str) None;
  output_mapping ← optional items "output_mapping" (opt str_dict) None;
  error_handling ← optional items "error_handling" (opt dict) None;
  timeout ← optional items "timeout" (opt int) None;
  retry_config ← optional items "retry_config" (opt dict) None;
  ui_config ← optional items "ui_config" (opt dict) None;
  Ok (StepDefinition.mk id name type description depends_on parameters
        llm_config conditional custom_handler output_mapping error_handling
        timeout retry_config ui_config).

Definition WorkflowMetadata (v : obj) : parsed WorkflowMetadata.t :=
  items ← dict v;
  id ← required items "id" str;
  name ← required items "name" str;
  description ← optional items "description" (opt str) None;
  version ← optional items "version" str "1.0.0";
  author ← optional items "author" (opt str) None;
  tags ← optional items "tags" (opt (list_of str)) None;
  category ← optional items "category" (opt str) None;
  icon ← optional items "icon" (opt str) None;
  created_at ← optional items "created_at" (opt str) None;
  updated_at ← optional items "updated_at" (opt str) None;
  Ok (WorkflowMetadata.mk id name description version author tags category
        icon created_at updated_at).

Definition WorkflowConfiguration (v : obj) : parsed WorkflowConfiguration.t :=
  items ← dict v;
  let d := WorkflowConfiguration.default in
  parallel_execution ← optional items "parallel_execution" bool
                         (WorkflowConfiguration.parallel_execution d);
  max_parallel_steps ← optional items "max_parallel_steps" int
                         (WorkflowConfiguration.max_parallel_steps d);
  default_timeout ← optional items "default_timeout" int
                      (WorkflowConfiguration.default_timeout d);
  auto_advance ← optional items "auto_advance" bool
                   (WorkflowConfiguration.auto_advance d);
  save_intermediate_results ← optional items "save_intermediate_results" bool
                                (WorkflowConfiguration.save_intermediate_results d);
  enable_rollback ← optional items "enable_rollback" bool
                      (WorkflowConfiguration.enable_rollback d);
  logging_level ← optional items "logging_level" level
                    (WorkflowConfiguration.logging_level d);
  Ok (WorkflowConfiguration.mk parallel_execution max_parallel_steps
        default_timeout auto_advance save_intermediate_results
        enable_rollback logging_level).

(** The graph described by a schema dump. *)
Definition WorkflowSchema (v : obj) : parsed WorkflowSchema.t :=
  items ← dict v;
  metadata ← required items "metadata" WorkflowMetadata;
  steps ← required items "steps" (list_of StepDefinition);
  configuration ← optional items "configuration" (opt WorkflowConfiguration)
                    (Some WorkflowConfiguration.default);
  global_parameters ← optional items "global_parameters"
                        (opt (list_of ParameterDefinition)) None;
  global_variables ← optional items "global_variables" (opt dict) None;
  lift (WorkflowSchema.init metadata steps configuration global_parameters
          global_variables).
End Parse.

(** The invariants the validators of [workflow_schema.py] check, stated of
    a graph: every parameter passes the options validator and the steps
    pass the dependency validator. *)
Definition parameter_valid (p : ParameterDefinition.t) : Prop :=
  ParameterDefinition.validate_options (ParameterDefinition.options p)
    (ParameterDefinition.type p) = Ok (ParameterDefinition.options p).

Definition workflow_valid (w : WorkflowSchema.t) : Prop :=
  WorkflowSchema.validate_step_dependencies (WorkflowSchema.steps w)
    = Ok (WorkflowSchema.steps w) ∧
  (∀ step parameters p,
      step ∈ WorkflowSchema.steps w →
      StepDefinition.parameters step = Some parameters →
      p ∈ parameters → parameter_valid p) ∧
  (∀ parameters p,
      WorkflowSchema.global_parameters w = Some parameters →
      p ∈ parameters → parameter_valid p).

(** ** The classification policy in the spec's words *)

(** [k] occurs in [s] as a contiguous substring. *)
Definition occurs (k s : string) : Prop :=
  ∃ before after, s = before +:+ k +:+ after.

(** Some keyword of the set occurs in the text. *)
Definition matches (keywords : list string) (text : string) : Prop :=
  ∃ keyword, keyword ∈ keywords ∧ occurs keyword text.

(** The category tables in precedence order: inference-processing, then
    form-input, then code-execution, then external-request. *)
Definition keyword_tables : list (StepType * list string) :=
  [(LLM_PROCESSING, WorkflowManager.llm_keywords);
   (FORM_INPUT, WorkflowManager.input_keywords);
   (CODE_EXECUTION, WorkflowManager.execution_keywords);
   (HTTP_REQUEST, WorkflowManager.http_keywords)].

(** The first table whose keyword set matches wins; when none matches the
    category is data-transformation. *)
Inductive first_match (text : string) : list (StepType * list string) → StepType → Prop :=
| first_match_none :
    first_match text [] DATA_TRANSFORMATION
| first_match_here category keywords rest :
    matches keywords text →
    first_match text ((category, keywords) :: rest) category
| first_match_later category keywords rest category' :
    ¬ matches keywords text →
    first_match text rest category' →
    first_match text ((category, keywords) :: rest) category'.

(** The category the policy assigns to a task description. *)
Definition classified (task_desc : string) (category : StepType) : Prop :=
  first_match (Py.lower task_desc) keyword_tables category.

(** ** Sample values used to instantiate the theorems *)

Module Sample.
(** A step with the given id and dependencies, every other field at its
    default. *)
Definition step (id : string) (depends_on : option (list string)) : StepDefinition.t :=
  StepDefinition.mk id id DATA_TRANSFORMATION None depends_on None None None
    None None None None None None.

Definition parameter (name : string) : ParameterDefinition.t :=
  ParameterDefinition.mk name STRING None None false Py.PyNone None None None
    None None.

Definition metadata : WorkflowMetadata.t :=
  WorkflowMetadata.mk "sample" "Sample" None "1.0.0" None None None None None None.

Definition workflow (steps : list StepDefinition.t) : WorkflowSchema.t :=
  WorkflowSchema.mk metadata steps (Some WorkflowConfiguration.default) None None.

(** a; b and c after a; d after b and c. *)
Definition diamond : list StepDefinition.t :=
  [step "a" None; step "b" (Some ["a"]); step "c" (Some ["a"]);
   step "d" (Some ["b"; "c"])].

(** a and b depend on each other, d depends on a, c is free. *)
Definition knot : list StepDefinition.t :=
  [step "a" (Some ["b"]); step "b" (Some ["a"]); step "c" None;
   step "d" (Some ["a"])].

(** Two steps with the same id, the first with two parameters of the
    same name. *)
Definition twins : list StepDefinition.t :=
  [StepDefinition.mk "a" "first" DATA_TRANSFORMATION None None
     (Some [parameter "x"; parameter "x"]) None None None None None None None None;
   step "a" None].

(** Position of [x] in [order], or its length when absent. *)
Fixpoint position (order : list string) (x : string) : nat :=
  match order with
  | [] => 0
  | y :: order' => if decide (y = x) then 0 else S (position order' x)
  end.
End Sample.

(** Every dependency recorded in [step_graph] has a smaller rank than the
    step that lists it. *)
Definition ranked (rank : string → nat) (step_graph : list (string * list string)) : bool :=
  forallb (λ entry, forallb (λ dep, rank dep <? rank entry.1) entry.2) step_graph.

(** * Proofs *)

(** Closed decidable goals, settled by evaluating the decision procedure. *)
Ltac decide_by_compute :=
  apply (bool_decide_unpack _); vm_compute; exact I.

Ltac refute_by_compute :=
  let H := fresh in
  intros H; apply (bool_decide_pack _) in H; vm_compute in H; exact H.




(** ** Facts about insertion-ordered dictionaries *)

Section dict_facts.
Context {V : Type}.
Implicit Types (d : list (string * V)) (k : string) (v : V).

Lemma dict_get_set d k v k' :
  Dict.get (Dict.set d k v) k' = if decide (k = k') then Some v else Dict.get d k'.
Proof.
  induction d as [|[k0 v0] d IH]; simpl.
  - by repeat case_decide.
  - destruct (decide (k0 = k)) as [->|Hne]; simpl.
    + by repeat case_decide.
    + rewrite IH. repeat case_decide; congruence.
Qed.

Lemma dict_keys_set_in d k v :
  k ∈ Dict.keys d → Dict.keys (Dict.set d k v) = Dict.keys d.
Proof.
  unfold Dict.keys. induction d as [|[k0 v0] d IH]; intros Hin.
  - by apply elem_of_nil in Hin.
  - cbn. destruct (decide (k0 = k)) as [->|Hne]; cbn; [done|].
    f_equal. apply IH. rewrite fmap_cons in Hin.
    apply elem_of_cons in Hin as [?|?]; [by simplify_eq/= | done].
Qed.

Lemma dict_keys_set_notin d k v :
  k ∉ Dict.keys d → Dict.keys (Dict.set d k v) = Dict.keys d ++ [k].
Proof.
  unfold Dict.keys. induction d as [|[k0 v0] d IH]; intros Hin; [done|].
  cbn. destruct (decide (k0 = k)) as [->|Hne]; cbn.
  - exfalso. apply Hin. rewrite fmap_cons. left.
  - f_equal. apply IH. intros ?. apply Hin. rewrite fmap_cons. by right.
Qed.

Lemma dict_keys_set_NoDup d k v :
  NoDup (Dict.keys d) → NoDup (Dict.keys (Dict.set d k v)).
Proof.
  intros Hd. destruct (decide (k ∈ Dict.keys d)) as [Hin|Hin].
  { by rewrite dict_keys_set_in. }
  rewrite dict_keys_set_notin by done.
  apply NoDup_app. split; [done|]. split; [|apply NoDup_singleton].
  intros x Hx ->%list_elem_of_singleton. done.
Qed.

Lemma dict_get_Some_keys d k v : Dict.get d k = Some v → k ∈ Dict.keys d.
Proof.
  unfold Dict.keys. induction d as [|[k0 v0] d IH]; simpl; [done|].
  case_decide as Heq; [subst; left | right; auto].
Qed.

Lemma dict_get_elem_of d k v : Dict.get d k = Some v → (k, v) ∈ d.
Proof.
  induction d as [|[k0 v0] d IH]; simpl; [done|].
  case_decide as Heq; [intros [= ->]; subst; left | right; auto].
Qed.

Lemma dict_elem_of_get d k v :
  NoDup (Dict.keys d) → (k, v) ∈ d → Dict.get d k = Some v.
Proof.
  unfold Dict.keys. induction d as [|[k0 v0] d IH]; simpl.
  - by intros _ ?%elem_of_nil.
  - intros [Hk0 Hd]%NoDup_cons [[= -> ->]|Hin]%elem_of_cons.
    + by rewrite decide_True.
    + rewrite decide_False; [auto|].
      intros ->. apply Hk0. apply list_elem_of_fmap. by exists (k, v).
Qed.
End dict_facts.

(** ** Descent in a finite set ends in a cycle *)

(** Every element of [P] lies in the finite set [S] and has an [R]-successor
    in [P] (or the conclusion [C] holds outright); a cycle through an element
    of [P] gives [C].  Then a non-empty [P] gives [C]. *)
Lemma finite_descent `{Countable A} (R : relation A) (C : Prop) (S : gset A) :
  ∀ P : A → Prop,
    (∀ x, P x → x ∈ S) →
    (∀ x, P x → tc R x x → C) →
    (∀ x, P x → C ∨ ∃ y, R x y ∧ P y) →
    ∀ x, P x → C.
Proof.
  induction (set_wf S) as [S _ IH].
  intros P Hin Hcyc Hstep x0 Hx0.
  destruct (Hstep x0 Hx0) as [HC|(y0 & Hxy0 & Hy0)]; [done|].
  destruct (decide (y0 = x0)) as [->|Hne0].
  { apply (Hcyc x0 Hx0). by apply tc_once. }
  apply (IH (S ∖ {[x0]})) with (P := λ y, P y ∧ tc R x0 y ∧ y ≠ x0) (x := y0).
  - specialize (Hin x0 Hx0). set_solver.
  - intros y (Hy & _ & Hne). specialize (Hin y Hy). set_solver.
  - intros y (Hy & _ & _). by apply Hcyc.
  - intros y (Hy & Hxy & Hne).
    destruct (Hstep y Hy) as [HC|(z & Hyz & Hz)]; [by left|].
    assert (tc R x0 z) as Hxz by (eapply tc_r; eauto).
    destruct (decide (z = x0)) as [->|Hnez].
    + left. by apply (Hcyc x0 Hx0).
    + right. by exists z.
  - split_and!; [done | by apply tc_once | done].
Qed.

(** ** The step graph built from a list of steps *)

Section step_graph_facts.
Import WorkflowSchema.
Implicit Types (g : list (string * list string)) (steps : list StepDefinition.t).

Lemma step_graph_from_cons g step steps :
  step_graph_from g (step :: steps) =
  step_graph_from (Dict.set g (StepDefinition.id step) (deps_of step)) steps.
Proof. done. Qed.

Lemma step_graph_from_keys_NoDup g steps :
  NoDup (Dict.keys g) → NoDup (Dict.keys (step_graph_from g steps)).
Proof.
  revert g. induction steps as [|step steps IH]; intros g Hg; [done|].
  rewrite step_graph_from_cons. apply IH. by apply dict_keys_set_NoDup.
Qed.

Lemma dict_keys_set_elem_of {V} (d : list (string * V)) k v x :
  x ∈ Dict.keys (Dict.set d k v) ↔ x ∈ Dict.keys d ∨ x = k.
Proof.
  destruct (decide (k ∈ Dict.keys d)) as [Hin|Hin].
  - rewrite dict_keys_set_in by done. naive_solver.
  - rewrite dict_keys_set_notin by done. set_solver.
Qed.

Lemma step_graph_from_keys_elem_of g steps x :
  x ∈ Dict.keys (step_graph_from g steps) ↔
  x ∈ Dict.keys g ∨ x ∈ StepDefinition.id <$> steps.
Proof.
  revert g. induction steps as [|step steps IH]; intros g.
  - cbn. set_solver.
  - rewrite step_graph_from_cons, IH, dict_keys_set_elem_of, fmap_cons. set_solver.
Qed.

Lemma dict_keys_set_length {V} (d : list (string * V)) k v :
  length (Dict.keys (Dict.set d k v)) ≤ S (length (Dict.keys d)).
Proof.
  destruct (decide (k ∈ Dict.keys d)) as [Hin|Hin].
  - rewrite dict_keys_set_in by done. lia.
  - rewrite dict_keys_set_notin, length_app by done. cbn. lia.
Qed.

Lemma step_graph_from_keys_length g steps :
  length (Dict.keys (step_graph_from g steps)) ≤ length (Dict.keys g) + length steps.
Proof.
  revert g. induction steps as [|step steps IH]; intros g.
  { change (step_graph_from g []) with g. simpl. lia. }
  rewrite step_graph_from_cons. etrans; [apply IH|].
  pose proof (dict_keys_set_length g (StepDefinition.id step) (deps_of step)).
  simpl. lia.
Qed.

(** Every entry of the graph comes from a step of the list. *)
Lemma step_graph_from_get_Some g steps x deps :
  Dict.get (step_graph_from g steps) x = Some deps →
  Dict.get g x = Some deps ∨
  ∃ step, step ∈ steps ∧ StepDefinition.id step = x ∧ deps_of step = deps.
Proof.
  revert g. induction steps as [|step steps IH]; intros g Hget; [by left|].
  rewrite step_graph_from_cons in Hget. apply IH in Hget as [Hget|(s & ? & ? & ?)].
  - rewrite dict_get_set in Hget. case_decide as Heq.
    + right. exists step. split_and!; [left | done | congruence].
    + by left.
  - right. exists s. split_and!; [by right | done | done].
Qed.

Lemma step_graph_from_get_notin g steps x :
  x ∉ StepDefinition.id <$> steps → Dict.get (step_graph_from g steps) x = Dict.get g x.
Proof.
  revert g. induction steps as [|step steps IH]; intros g Hx; [done|].
  rewrite fmap_cons in Hx. apply not_elem_of_cons in Hx as [Hne Hx].
  rewrite step_graph_from_cons, IH, dict_get_set by done. by rewrite decide_False.
Qed.

(** With pairwise distinct ids the graph lists the steps in order, each
    with its own dependencies. *)
Lemma step_graph_from_keys_unique g steps :
  NoDup (Dict.keys g ++ (StepDefinition.id <$> steps)) →
  Dict.keys (step_graph_from g steps) = Dict.keys g ++ (StepDefinition.id <$> steps).
Proof.
  revert g. induction steps as [|step steps IH]; intros g Hnd.
  - cbn. by rewrite app_nil_r.
  - rewrite step_graph_from_cons. rewrite fmap_cons in Hnd |- *.
    assert (StepDefinition.id step ∉ Dict.keys g) as Hfresh.
    { apply NoDup_app in Hnd as (_ & Hdis & _). intros Hin.
      apply (Hdis _ Hin). left. }
    rewrite IH; rewrite dict_keys_set_notin by done.
    + by rewrite <- app_assoc.
    + by rewrite <- app_assoc.
Qed.

Lemma step_graph_from_get_unique g steps step :
  NoDup (StepDefinition.id <$> steps) → step ∈ steps →
  Dict.get (step_graph_from g steps) (StepDefinition.id step) = Some (deps_of step).
Proof.
  revert g. induction steps as [|s0 steps IH]; intros g Hnd Hin.
  - by apply elem_of_nil in Hin.
  - rewrite fmap_cons in Hnd. apply NoDup_cons in Hnd as [Hs0 Hnd].
    rewrite step_graph_from_cons. apply elem_of_cons in Hin as [->|Hin].
    + rewrite step_graph_from_get_notin, dict_get_set by done. by rewrite decide_True.
    + by apply IH.
Qed.
End step_graph_facts.

(** ** The layering loop *)

Section layering_facts.
Import WorkflowSchema.
Variable G : list (string * list string).
Hypothesis G_keys : NoDup (Dict.keys G).

Lemma elem_of_concat {A} (x : A) (ls : list (list A)) :
  x ∈ concat ls ↔ ∃ l, l ∈ ls ∧ x ∈ l.
Proof.
  rewrite list_elem_of_In, in_concat.
  split; intros (l & H1 & H2); exists l; by rewrite ?list_elem_of_In in *.
Qed.

Lemma ready_steps_spec processed s :
  s ∈ ready_steps G processed ↔
  s ∈ Dict.keys G ∧ (s ∉ processed) ∧ ∀ d, depends G s d → d ∈ processed.
Proof.
  unfold ready_steps. rewrite list_elem_of_fmap. split.
  - intros ([k deps] & -> & [[Hk Hdeps] Hin]%list_elem_of_filter).
    simpl in *. split_and!; [|done|].
    + apply list_elem_of_fmap. by exists (k, deps).
    + intros d (deps' & Hget & Hd).
      rewrite (dict_elem_of_get _ _ _ G_keys Hin) in Hget.
      injection Hget as <-. by eapply Forall_forall in Hdeps.
  - intros (Hk & Hnew & Hdeps).
    apply list_elem_of_fmap in Hk as ([k deps] & -> & Hin). simpl in *.
    exists (k, deps). split; [done|]. apply list_elem_of_filter.
    split; [|done]. split; [done|]. simpl.
    apply Forall_forall. intros d Hd. apply Hdeps.
    exists deps. split; [|done]. by apply dict_elem_of_get.
Qed.

Lemma ready_steps_NoDup processed : NoDup (ready_steps G processed).
Proof.
  unfold ready_steps. eapply sublist_NoDup; [exact G_keys|].
  apply fmap_sublist, sublist_filter.
Qed.

(** A key that is not ready has a dependency still unprocessed. *)
Lemma not_ready_pending processed s :
  s ∈ Dict.keys G → s ∉ processed → s ∉ ready_steps G processed →
  ∃ d, depends G s d ∧ d ∉ processed.
Proof.
  intros Hk Hnew Hnr.
  apply list_elem_of_fmap in Hk as ([k deps] & -> & Hin). simpl in *.
  destruct (decide (Forall (λ dep, dep ∈ processed) deps)) as [Hall|Hex].
  - exfalso. apply Hnr. unfold ready_steps. apply list_elem_of_fmap.
    exists (k, deps). split; [done|]. apply list_elem_of_filter.
    by split; [split|].
  - apply not_Forall_Exists in Hex; [|apply _].
    apply Exists_exists in Hex as (d & Hd & Hnp).
    exists d. split; [|done]. exists deps. split; [|done].
    by apply dict_elem_of_get.
Qed.

Lemma depends_key x d : depends G x d → x ∈ Dict.keys G.
Proof. intros (deps & Hget & _). by eapply dict_get_Some_keys. Qed.

Lemma layered_nil : layered G [] ∅.
Proof.
  split; simpl.
  - done.
  - apply NoDup_nil_2.
  - by intros x ?%elem_of_nil.
  - by intros i w s d ?.
  - by intros w ?%elem_of_nil.
  - by intros x ?%elem_of_nil.
Qed.

Lemma layered_elem_of eo processed x :
  layered G eo processed → x ∈ processed ↔ x ∈ concat eo.
Proof. intros [-> _ _ _ _ _]. by rewrite elem_of_list_to_set. Qed.

Lemma layered_snoc eo processed :
  layered G eo processed →
  ready_steps G processed ≠ [] →
  layered G (eo ++ [ready_steps G processed])
            (processed ∪ list_to_set (ready_steps G processed)).
Proof.
  intros HL Hne.
  assert (∀ x, x ∈ processed ↔ x ∈ concat eo) as Hproc
    by (intros x; by apply layered_elem_of).
  destruct HL as [Hset Hnd Hkeys Hdeps Hnonempty Hfree].
  assert (concat (eo ++ [ready_steps G processed]) =
          concat eo ++ ready_steps G processed) as Hcat.
  { by rewrite concat_app, (concat_cons _ []), concat_nil, app_nil_r. }
  split.
  - rewrite Hcat, list_to_set_app_L. by rewrite <- Hset.
  - rewrite Hcat. apply NoDup_app. split; [done|]. split.
    + intros x Hx [_ [Hnew _]]%ready_steps_spec.
      apply Hnew. by apply Hproc.
    + apply ready_steps_NoDup.
  - rewrite Hcat. intros x [Hx|Hx]%elem_of_app; [by apply Hkeys|].
    by apply ready_steps_spec in Hx as [? _].
  - intros i w s d Hi Hs Hsd.
    apply lookup_app_Some in Hi as [Hi|[Hlen Hi]].
    + destruct (Hdeps i w s d Hi Hs Hsd) as (j & w' & Hj & Hw' & Hd).
      exists j, w'. split_and!; [done| |done]. by apply lookup_app_l_Some.
    + apply list_lookup_singleton_Some in Hi as [Hi0 <-].
      apply ready_steps_spec in Hs as (_ & _ & Hall).
      specialize (Hall d Hsd). apply Hproc, elem_of_concat in Hall as (w' & Hw' & Hd).
      apply list_elem_of_lookup in Hw' as [j Hj].
      exists j, w'. split_and!; [|by apply lookup_app_l_Some|done].
      apply lookup_lt_Some in Hj. lia.
  - intros w [Hw|Hw]%elem_of_app; [by apply Hnonempty|].
    by apply list_elem_of_singleton in Hw as ->.
  - rewrite Hcat. intros x [Hx|Hx]%elem_of_app; [by apply Hfree|].
    apply ready_steps_spec in Hx as (Hk & _ & Hall).
    intros (y & Hxy & Hy).
    assert (∀ d, depends G x d → rtc (depends G) d y → False) as Hdown.
    { intros d Hxd Hdy. apply (Hfree d); [by apply Hproc, Hall|].
      by exists y. }
    apply rtc_inv in Hxy as [->|(d & Hxd & Hdy)]; [|by eapply Hdown].
    destruct Hy as [Hcyc|Hnk]; [|done].
    apply tc_rtc in Hcyc as Hrtc.
    inversion Hcyc as [? ? Hyd|? d ? Hyd Hdy]; subst.
    + eapply Hdown; [exact Hyd|]. apply rtc_refl.
    + eapply Hdown; [exact Hyd|]. by apply tc_rtc.
Qed.
End layering_facts.

Section loop_facts.
Import WorkflowSchema.
Variable G : list (string * list string).
Hypothesis G_keys : NoDup (Dict.keys G).

Lemma execution_loop_unfold fuel n eo processed :
  execution_loop fuel n G eo processed =
  if decide (size processed < n) then
    match fuel with
    | O => None
    | S fuel' =>
        match ready_steps G processed with
        | [] => Some (Raise (CircularDependency
                               (list_to_set (Dict.keys G) ∖ processed)))
        | _ :: _ =>
            execution_loop fuel' n G (eo ++ [ready_steps G processed])
              (processed ∪ list_to_set (ready_steps G processed))
        end
    end
  else Some (Ok eo).
Proof. by destruct fuel. Qed.

Lemma ready_steps_grow processed :
  ready_steps G processed ≠ [] →
  size processed < size (processed ∪ list_to_set (ready_steps G processed)).
Proof.
  intros Hne. rewrite size_union.
  - rewrite size_list_to_set by by apply ready_steps_NoDup.
    destruct (ready_steps G processed); [done | simpl; lia].
  - intros x Hx [_ [Hnew _]]%elem_of_list_to_set%ready_steps_spec; done.
Qed.

(** The loop ends within [n - size processed] rounds, either returning
    the layers or raising with every key that is not yet processed at
    the moment no step is ready. *)
Lemma execution_loop_spec n fuel eo processed :
  layered G eo processed → n - size processed ≤ fuel →
  ∃ eo' processed',
    layered G eo' processed' ∧
    ((execution_loop fuel n G eo processed = Some (Ok eo') ∧
      n ≤ size processed') ∨
     (execution_loop fuel n G eo processed =
        Some (Raise (CircularDependency
                       (list_to_set (Dict.keys G) ∖ processed'))) ∧
      size processed' < n ∧ ready_steps G processed' = [])).
Proof.
  revert eo processed. induction fuel as [|fuel IH]; intros eo processed HL Hfuel;
    rewrite execution_loop_unfold; case_decide as Hlt.
  - lia.
  - exists eo, processed. split; [done|]. left. split; [done | lia].
  - destruct (ready_steps G processed) as [|s ready] eqn:Hready.
    + exists eo, processed. split; [done|]. by right.
    + rewrite <- Hready.
      assert (ready_steps G processed ≠ []) as Hne by by rewrite Hready.
      apply IH; [by apply layered_snoc|].
      pose proof (ready_steps_grow processed Hne). lia.
  - exists eo, processed. split; [done|]. left. split; [done | lia].
Qed.

(** When no step is ready, the unprocessed keys are exactly the blocked
    ones. *)
Lemma stalled_remaining eo processed x :
  layered G eo processed → ready_steps G processed = [] →
  x ∈ (list_to_set (Dict.keys G) ∖ processed : gset string) ↔
  x ∈ Dict.keys G ∧ blocked G x.
Proof.
  intros HL Hstall. rewrite elem_of_difference, elem_of_list_to_set. split.
  - intros [Hk Hnew]. split; [done|].
    apply (finite_descent (depends G) (blocked G x)
             (list_to_set (Dict.keys G) ∖ processed)
             (λ y, (y ∈ Dict.keys G ∧ y ∉ processed) ∧ rtc (depends G) x y))
      with (x := x).
    + intros y [[? ?] _]. set_solver.
    + intros y [_ Hxy] Hcyc. exists y. by split; [|left].
    + intros y [[Hyk Hynew] Hxy].
      destruct (not_ready_pending G G_keys processed y) as (d & Hyd & Hd);
        [done | done | rewrite Hstall; apply not_elem_of_nil |].
      assert (rtc (depends G) x d) as Hxd by (eapply rtc_r; eauto).
      destruct (decide (d ∈ Dict.keys G)) as [Hdk|Hdk].
      * right. by exists d.
      * left. exists d. by split; [|right].
    + done.
  - intros [Hk Hblocked]. split; [done|]. intros Hx.
    eapply layered_free; [exact HL | | exact Hblocked].
    by eapply layered_elem_of.
Qed.

Lemma layered_size eo processed :
  layered G eo processed → size processed ≤ length (Dict.keys G).
Proof.
  intros HL. rewrite <- (size_list_to_set (C := gset string)) by done.
  apply subseteq_size. intros x Hx. apply elem_of_list_to_set.
  eapply layered_keys; [exact HL|]. by eapply layered_elem_of.
Qed.

(** A layering that has processed as many steps as there are keys has
    placed every key exactly once. *)
Lemma layered_complete eo processed :
  layered G eo processed → length (Dict.keys G) ≤ size processed →
  concat eo ≡ₚ Dict.keys G.
Proof.
  intros HL Hsize. pose proof HL as [Hset Hnd Hkeys _ _ _].
  apply NoDup_Permutation; [done | done |].
  intros x. split; [by apply Hkeys|]. intros Hx.
  assert (processed = list_to_set (Dict.keys G)) as Heq.
  { apply set_subseteq_size_eq.
    - intros y Hy. apply elem_of_list_to_set. apply Hkeys.
      by eapply layered_elem_of.
    - by rewrite size_list_to_set. }
  eapply layered_elem_of; [exact HL|]. rewrite Heq.
  by apply elem_of_list_to_set.
Qed.
End loop_facts.

(** ** The dependency validator *)

Section validator_facts.
Import WorkflowSchema.
Implicit Types (ids : gset string) (v steps : list StepDefinition.t).

Lemma check_deps_Ok ids sid deps :
  check_deps ids sid deps = Ok tt ↔ Forall (λ dep, dep ∈ ids) deps.
Proof.
  induction deps as [|dep deps IH]; simpl.
  - split; [constructor | done].
  - case_bool_decide as Hin.
    + rewrite IH. split; [by constructor | by inversion 1].
    + split; [done | by inversion 1].
Qed.

(** A failing scan names the first dependency that is not an id. *)
Lemma check_deps_Raise ids sid deps e :
  check_deps ids sid deps = Raise e →
  ∃ before dep after,
    deps = before ++ dep :: after ∧
    Forall (λ dep, dep ∈ ids) before ∧ (dep ∉ ids) ∧
    e = NonExistentStep sid dep.
Proof.
  induction deps as [|dep deps IH]; simpl; [done|].
  case_bool_decide as Hin.
  - intros (before & d & after & -> & Hb & Hd & ->)%IH.
    exists (dep :: before), d, after. split_and!; [done | by constructor | done | done].
  - intros [= <-]. exists [], dep, deps. split_and!; [done | constructor | done | done].
Qed.

Lemma check_step_deps ids step :
  match StepDefinition.depends_on step with
  | Some ((_ :: _) as deps) => check_deps ids (StepDefinition.id step) deps
  | _ => Ok tt
  end = check_deps ids (StepDefinition.id step) (deps_of step).
Proof. unfold deps_of. destruct (StepDefinition.depends_on step) as [[|??]|]. all: reflexivity. Qed.

Lemma check_steps_cons ids step v :
  check_steps ids (step :: v) =
  match check_deps ids (StepDefinition.id step) (deps_of step) with
  | Ok _ => check_steps ids v
  | Raise e => Raise e
  end.
Proof. simpl. by rewrite check_step_deps. Qed.

Lemma check_steps_Ok ids v :
  check_steps ids v = Ok tt ↔
  Forall (λ step, Forall (λ dep, dep ∈ ids) (deps_of step)) v.
Proof.
  induction v as [|step v IH]; [split; [constructor | done]|].
  rewrite check_steps_cons.
  destruct (check_deps ids (StepDefinition.id step) (deps_of step)) as [[]|e] eqn:Hc.
  - apply check_deps_Ok in Hc. rewrite IH.
    split; [by constructor | by inversion 1].
  - split; [done|]. inversion 1 as [|?? Hd _]; subst.
    apply (check_deps_Ok ids (StepDefinition.id step)) in Hd. congruence.
Qed.

Lemma check_steps_Raise ids v e :
  check_steps ids v = Raise e →
  ∃ earlier step later before dep after,
    v = earlier ++ step :: later ∧
    Forall (λ step, Forall (λ dep, dep ∈ ids) (deps_of step)) earlier ∧
    deps_of step = before ++ dep :: after ∧
    Forall (λ dep, dep ∈ ids) before ∧ (dep ∉ ids) ∧
    e = NonExistentStep (StepDefinition.id step) dep.
Proof.
  induction v as [|step v IH]; [done|].
  rewrite check_steps_cons.
  destruct (check_deps ids (StepDefinition.id step) (deps_of step)) as [[]|e'] eqn:Hc.
  - intros (earlier & s & later & before & dep & after & -> & ? & ? & ? & ? & ->)%IH.
    apply check_deps_Ok in Hc.
    exists (step :: earlier), s, later, before, dep, after.
    split_and!; try done. by constructor.
  - intros [= <-].
    apply check_deps_Raise in Hc as (before & dep & after & ? & ? & ? & ->).
    exists [], step, v, before, dep, after. split_and!; done.
Qed.

Lemma validate_step_dependencies_Ok v :
  validate_step_dependencies v = Ok v ↔
  ∀ step dep, step ∈ v → dep ∈ deps_of step → dep ∈ StepDefinition.id <$> v.
Proof.
  unfold validate_step_dependencies.
  pose proof (check_steps_Ok (step_ids v) v) as Hok.
  destruct (check_steps (step_ids v) v) as [[]|e]; simpl.
  - split; [intros _|done]. intros step dep Hs Hd.
    destruct Hok as [Hok _]. specialize (Hok eq_refl).
    eapply Forall_forall in Hok; [|exact Hs].
    eapply Forall_forall in Hok; [|exact Hd].
    by apply elem_of_list_to_set in Hok.
  - split; [done|]. intros Hall. destruct Hok as [_ Hok]. discriminate Hok.
    apply Forall_forall. intros step Hs. apply Forall_forall. intros dep Hd.
    apply elem_of_list_to_set. by eapply Hall.
Qed.

Lemma validate_step_dependencies_inv v v' :
  validate_step_dependencies v = Ok v' → v' = v.
Proof.
  unfold validate_step_dependencies.
  destruct (check_steps (step_ids v) v) as [[]|e]; simpl; congruence.
Qed.

Lemma init_inv md v cfg gp gv self :
  init md v cfg gp gv = Ok self →
  self = mk md v cfg gp gv ∧ validate_step_dependencies v = Ok v.
Proof.
  unfold init. destruct (validate_step_dependencies v) as [v'|e] eqn:Hv; simpl; [|done].
  apply validate_step_dependencies_inv in Hv as Hv'. subst v'.
  intros [= <-]. done.
Qed.
End validator_facts.

(** ** Execution order *)

Section execution_order.
Import WorkflowSchema.

Lemma concat_wave_unique {A} (ws : list (list A)) i j w w' x :
  NoDup (concat ws) → ws !! i = Some w → ws !! j = Some w' →
  x ∈ w → x ∈ w' → i = j.
Proof.
  revert i j. induction ws as [|w0 ws IH]; intros i j Hnd Hi Hj Hx Hx'; [done|].
  rewrite concat_cons in Hnd. apply NoDup_app in Hnd as (_ & Hdis & Hnd).
  destruct i as [|i], j as [|j]; simpl in *; simplify_eq.
  - done.
  - exfalso. apply (Hdis x Hx). apply elem_of_concat.
    exists w'. split; [|done]. by eapply list_elem_of_lookup_2.
  - exfalso. apply (Hdis x Hx'). apply elem_of_concat.
    exists w. split; [|done]. by eapply list_elem_of_lookup_2.
  - f_equal. by eapply IH.
Qed.

Lemma step_graph_keys_NoDup steps : NoDup (Dict.keys (step_graph_of steps)).
Proof. apply step_graph_from_keys_NoDup. apply NoDup_nil_2. Qed.

Lemma step_graph_keys_elem_of steps x :
  x ∈ Dict.keys (step_graph_of steps) ↔ x ∈ StepDefinition.id <$> steps.
Proof. unfold step_graph_of. rewrite step_graph_from_keys_elem_of. set_solver. Qed.

Lemma step_graph_keys_length steps :
  length (Dict.keys (step_graph_of steps)) ≤ length steps.
Proof. apply (step_graph_from_keys_length [] steps). Qed.

Lemma step_graph_keys_unique steps :
  NoDup (StepDefinition.id <$> steps) →
  Dict.keys (step_graph_of steps) = StepDefinition.id <$> steps.
Proof. intros Hnd. by apply (step_graph_from_keys_unique [] steps). Qed.

(** Dependencies recorded in the graph are dependencies of some step. *)
Lemma depends_step steps x d :
  depends (step_graph_of steps) x d →
  ∃ step, step ∈ steps ∧ StepDefinition.id step = x ∧ d ∈ deps_of step.
Proof.
  intros (deps & Hget & Hd).
  apply step_graph_from_get_Some in Hget as [?|(step & ? & ? & <-)]; [done|].
  by exists step.
Qed.

Lemma step_depends steps step d :
  NoDup (StepDefinition.id <$> steps) → step ∈ steps → d ∈ deps_of step →
  depends (step_graph_of steps) (StepDefinition.id step) d.
Proof.
  intros Hnd Hs Hd. exists (deps_of step). split; [|done].
  by apply step_graph_from_get_unique.
Qed.

(** [get_execution_order] always comes to an end. *)
Lemma get_execution_order_total (self : t) :
  ∃ r, get_execution_order self = Some r.
Proof.
  unfold get_execution_order.
  destruct (execution_loop_spec (step_graph_of (steps self))
              (step_graph_keys_NoDup _) (length (steps self))
              (length (steps self)) [] ∅)
    as (eo & p & _ & [[-> _]|[-> _]]); eauto.
  - apply layered_nil.
  - lia.
Qed.
End execution_order.

(** C1 (amended).  For every constructed workflow graph with pairwise
    distinct step ids whose dependency relation is acyclic,
    [get_execution_order] returns waves whose concatenation is a
    rearrangement of the step ids; every step lies in exactly one wave and
    each of its dependencies lies in a strictly earlier wave. *)
Theorem get_execution_order_layers md steps cfg gp gv (self : WorkflowSchema.t) :
  WorkflowSchema.init md steps cfg gp gv = Ok self →
  NoDup (StepDefinition.id <$> steps) →
  acyclic (WorkflowSchema.step_graph_of steps) →
  ∃ waves,
    WorkflowSchema.get_execution_order self = Some (Ok waves) ∧
    concat waves ≡ₚ StepDefinition.id <$> steps ∧
    ∀ step, step ∈ steps →
      ∃ i w, waves !! i = Some w ∧ StepDefinition.id step ∈ w ∧
        (∀ j w', waves !! j = Some w' → StepDefinition.id step ∈ w' → j = i) ∧
        (∀ dep, dep ∈ WorkflowSchema.deps_of step →
           ∃ j w', j < i ∧ waves !! j = Some w' ∧ dep ∈ w').
Proof.
  intros [-> Hvalid]%init_inv Hnd Hacyclic.
  unfold WorkflowSchema.get_execution_order. simpl.
  set (G := WorkflowSchema.step_graph_of steps) in *.
  pose proof (step_graph_keys_NoDup steps) as HG. fold G in HG.
  pose proof (step_graph_keys_unique steps Hnd) as Hkeys. fold G in Hkeys.
  assert (length (Dict.keys G) = length steps) as Hlen
    by by rewrite Hkeys, length_fmap.
  destruct (execution_loop_spec G HG (length steps) (length steps) [] ∅)
    as (waves & processed & HL & [[Hrun Hsize]|[_ [Hsize Hstall]]]).
  { apply layered_nil. }
  { lia. }
  - exists waves. split; [done|].
    assert (concat waves ≡ₚ StepDefinition.id <$> steps) as Hperm.
    { rewrite <- Hkeys. eapply layered_complete; [done | exact HL | lia]. }
    split; [done|]. intros step Hstep.
    assert (StepDefinition.id step ∈ concat waves) as Hin.
    { rewrite Hperm. apply list_elem_of_fmap. by exists step. }
    apply elem_of_concat in Hin as (w & Hw & Hin).
    apply list_elem_of_lookup in Hw as [i Hi].
    exists i, w. split_and!; [done | done | |].
    + intros j w' Hj Hin'.
      eapply (concat_wave_unique waves j i); eauto using layered_nodup.
    + intros dep Hdep.
      eapply layered_deps; [exact HL | exact Hi | exact Hin |].
      by apply step_depends.
  - exfalso.
    assert (size processed < size (list_to_set (Dict.keys G) : gset string)) as Hlt
      by (rewrite size_list_to_set by done; lia).
    assert (∃ x, x ∈ (list_to_set (Dict.keys G) ∖ processed : gset string))
      as [x Hx].
    { apply set_choose_L. intros Hempty.
      assert ((list_to_set (Dict.keys G) : gset string) ⊆ processed) as Hsub
        by set_solver.
      apply subseteq_size in Hsub. lia. }
    apply (stalled_remaining G HG waves processed x HL Hstall) in Hx
      as [Hx (y & Hxy & Hy)].
    assert (y ∈ Dict.keys G) as Hyk.
    { clear Hy. induction Hxy as [|a b c Hab _ IH]; [done|].
      apply IH. apply depends_step in Hab as (step & Hs & _ & Hd).
      apply step_graph_keys_elem_of.
      by eapply validate_step_dependencies_Ok. }
    destruct Hy as [Hcyc|Hnk]; [by eapply Hacyclic | done].
Qed.

(** C2.  For every workflow graph whose dependency relation has a cycle,
    [get_execution_order] raises the circular-dependency error, and the
    error names exactly the step ids left unplaced when no step is ready:
    the ids of all steps from which following dependencies reaches a cycle
    (or an id that is not a step), which includes every step on a cycle. *)
Theorem get_execution_order_cycle (self : WorkflowSchema.t) :
  let G := WorkflowSchema.step_graph_of (WorkflowSchema.steps self) in
  has_cycle G →
  ∃ remaining placed,
    WorkflowSchema.get_execution_order self
      = Some (Raise (CircularDependency remaining)) ∧
    layered G placed (list_to_set (concat placed)) ∧
    WorkflowSchema.ready_steps G (list_to_set (concat placed)) = [] ∧
    (∀ x, x ∈ remaining ↔
          x ∈ StepDefinition.id <$> WorkflowSchema.steps self ∧
          x ∉ concat placed) ∧
    (∀ x, x ∈ remaining ↔
          x ∈ StepDefinition.id <$> WorkflowSchema.steps self ∧ blocked G x) ∧
    (∀ x, tc (depends G) x x → x ∈ remaining).
Proof.
  intros G [c Hc].
  set (steps := WorkflowSchema.steps self) in *.
  pose proof (step_graph_keys_NoDup steps) as HG. fold G in HG.
  assert (∀ x, tc (depends G) x x → x ∈ Dict.keys G ∧ blocked G x) as Hcycle.
  { intros x Hx. split.
    - inversion Hx as [?? Hd|??? Hd _]; subst; by eapply depends_key.
    - exists x. by split; [|left]. }
  unfold WorkflowSchema.get_execution_order. fold steps G.
  destruct (execution_loop_spec G HG (length steps) (length steps) [] ∅)
    as (placed & processed & HL & [[_ Hsize]|[Hrun [Hsize Hstall]]]).
  { apply layered_nil. }
  { lia. }
  - exfalso. destruct (Hcycle c Hc) as [Hck Hcb].
    assert (processed ⊂ (list_to_set (Dict.keys G) : gset string)) as Hsub.
    { split.
      - intros x Hx. apply elem_of_list_to_set.
        eapply layered_keys; [exact HL|]. by eapply layered_elem_of.
      - intros Hsup. eapply layered_free; [exact HL | | exact Hcb].
        eapply layered_elem_of; [exact HL|]. apply Hsup.
        by apply elem_of_list_to_set. }
    apply subset_size in Hsub. rewrite size_list_to_set in Hsub by done.
    pose proof (step_graph_keys_length steps). fold G in H. lia.
  - pose proof (layered_set _ _ _ HL) as Hproc.
    exists (list_to_set (Dict.keys G) ∖ processed), placed.
    rewrite <- Hproc. split_and!; [done | done | done | | |].
    + intros x. rewrite elem_of_difference, elem_of_list_to_set.
      unfold G at 1. rewrite step_graph_keys_elem_of.
      by rewrite (layered_elem_of G placed processed x HL).
    + intros x. rewrite (stalled_remaining G HG placed processed x HL Hstall).
      unfold G at 1. by rewrite step_graph_keys_elem_of.
    + intros x Hx.
      apply (stalled_remaining G HG placed processed x HL Hstall).
      by apply Hcycle.
Qed.
Lemma ranked_acyclic rank G : ranked rank G = true → acyclic G.
Proof.
  intros Hranked.
  assert (∀ x d, depends G x d → rank d < rank x) as Hstep.
  { intros x d (deps & Hget%dict_get_elem_of & Hd).
    unfold ranked in Hranked. rewrite forallb_forall in Hranked.
    apply list_elem_of_In, Hranked in Hget. simpl in Hget.
    rewrite forallb_forall in Hget. apply list_elem_of_In, Hget in Hd.
    by apply Nat.ltb_lt in Hd. }
  assert (∀ x y, tc (depends G) x y → rank y < rank x) as Htc.
  { intros x y Hxy. induction Hxy as [x y Hxy|x y z Hxy _ IH].
    - by apply Hstep.
    - apply Hstep in Hxy. lia. }
  intros x Hx%Htc. lia.
Qed.

Lemma get_execution_order_layers_witness :
  WorkflowSchema.init Sample.metadata Sample.diamond
    (Some WorkflowConfiguration.default) None None
    = Ok (Sample.workflow Sample.diamond) ∧
  NoDup (StepDefinition.id <$> Sample.diamond) ∧
  acyclic (WorkflowSchema.step_graph_of Sample.diamond) ∧
  ∃ waves,
    WorkflowSchema.get_execution_order (Sample.workflow Sample.diamond)
      = Some (Ok waves) ∧
    concat waves ≡ₚ StepDefinition.id <$> Sample.diamond ∧
    ∀ step, step ∈ Sample.diamond →
      ∃ i w, waves !! i = Some w ∧ StepDefinition.id step ∈ w ∧
        (∀ j w', waves !! j = Some w' → StepDefinition.id step ∈ w' → j = i) ∧
        (∀ dep, dep ∈ WorkflowSchema.deps_of step →
           ∃ j w', j < i ∧ waves !! j = Some w' ∧ dep ∈ w').
Proof.
  assert (NoDup (StepDefinition.id <$> Sample.diamond)) as Hnd
    by decide_by_compute.
  assert (acyclic (WorkflowSchema.step_graph_of Sample.diamond)) as Hacyclic
    by (apply (ranked_acyclic (Sample.position ["a"; "b"; "c"; "d"]));
        vm_compute; reflexivity).
  split_and!; [vm_compute; reflexivity | exact Hnd | exact Hacyclic |].
  apply (get_execution_order_layers Sample.metadata Sample.diamond
           (Some WorkflowConfiguration.default) None None);
    [vm_compute; reflexivity | exact Hnd | exact Hacyclic].
Defined.

(** With a repeated step id the loop bound [len(self.steps)] exceeds the
    number of keys of the step graph: after every key is placed the loop
    runs once more, finds nothing ready and raises, with nothing left to
    name. *)
Lemma get_execution_order_duplicate_ids :
  WorkflowSchema.init Sample.metadata Sample.twins
    (Some WorkflowConfiguration.default) None None
    = Ok (Sample.workflow Sample.twins) ∧
  acyclic (WorkflowSchema.step_graph_of Sample.twins) ∧
  WorkflowSchema.get_execution_order (Sample.workflow Sample.twins)
    = Some (Raise (CircularDependency ∅)) ∧
  ¬ ∃ waves, WorkflowSchema.get_execution_order (Sample.workflow Sample.twins)
             = Some (Ok waves).
Proof.
  assert (WorkflowSchema.get_execution_order (Sample.workflow Sample.twins)
          = Some (Raise (CircularDependency ∅))) as Hrun
    by (vm_compute; reflexivity).
  split_and!; [vm_compute; reflexivity | | exact Hrun |].
  - apply (ranked_acyclic (λ _, 0)). vm_compute. reflexivity.
  - intros [waves Hwaves]. rewrite Hrun in Hwaves. discriminate.
Qed.

Lemma get_execution_order_cycle_witness :
  let G := WorkflowSchema.step_graph_of Sample.knot in
  has_cycle G ∧
  ∃ remaining placed,
    WorkflowSchema.get_execution_order (Sample.workflow Sample.knot)
      = Some (Raise (CircularDependency remaining)) ∧
    layered G placed (list_to_set (concat placed)) ∧
    WorkflowSchema.ready_steps G (list_to_set (concat placed)) = [] ∧
    (∀ x, x ∈ remaining ↔
          x ∈ StepDefinition.id <$> Sample.knot ∧ x ∉ concat placed) ∧
    (∀ x, x ∈ remaining ↔
          x ∈ StepDefinition.id <$> Sample.knot ∧ blocked G x) ∧
    (∀ x, tc (depends G) x x → x ∈ remaining).
Proof.
  assert (has_cycle (WorkflowSchema.step_graph_of Sample.knot)) as Hcycle.
  { exists "a". apply tc_l with "b"; [|apply tc_once].
    - exists ["b"]. split; [reflexivity | apply list_elem_of_here].
    - exists ["a"]. split; [reflexivity | apply list_elem_of_here]. }
  split; [exact Hcycle|].
  exact (get_execution_order_cycle (Sample.workflow Sample.knot) Hcycle).
Defined.

(** The error raised for [Sample.knot] names a, b and d: the two steps on
    the cycle and the step that waits for one of them. *)
Example get_execution_order_knot :
  WorkflowSchema.get_execution_order (Sample.workflow Sample.knot)
  = Some (Raise (CircularDependency {["a"; "b"; "d"]})).
Proof. vm_compute. reflexivity. Qed.

(** C5 (amended).  Construction checks dependencies only: whenever every
    [depends_on] entry is the id of some step of the list, construction
    succeeds and returns the graph with the steps as given, whether or not
    step ids or parameter names repeat. *)
Theorem init_accepts_closed_dependencies md steps cfg gp gv :
  (∀ step dep, step ∈ steps → dep ∈ WorkflowSchema.deps_of step →
               dep ∈ StepDefinition.id <$> steps) →
  WorkflowSchema.init md steps cfg gp gv = Ok (WorkflowSchema.mk md steps cfg gp gv).
Proof.
  intros Hclosed%validate_step_dependencies_Ok.
  unfold WorkflowSchema.init. by rewrite Hclosed.
Qed.

Lemma init_accepts_closed_dependencies_witness :
  (∀ step dep, step ∈ Sample.twins → dep ∈ WorkflowSchema.deps_of step →
               dep ∈ StepDefinition.id <$> Sample.twins) ∧
  WorkflowSchema.init Sample.metadata Sample.twins None None None
    = Ok (WorkflowSchema.mk Sample.metadata Sample.twins None None None).
Proof.
  assert (∀ step dep, step ∈ Sample.twins → dep ∈ WorkflowSchema.deps_of step →
                      dep ∈ StepDefinition.id <$> Sample.twins) as Hclosed.
  { intros step dep Hstep Hdep. exfalso.
    apply elem_of_cons in Hstep as [->|Hstep]; [by apply elem_of_nil in Hdep|].
    apply list_elem_of_singleton in Hstep as ->. by apply elem_of_nil in Hdep. }
  split; [exact Hclosed|].
  exact (init_accepts_closed_dependencies Sample.metadata Sample.twins
           None None None Hclosed).
Defined.

(** Two steps with id "a", the first with two parameters named "x", are
    accepted by construction. *)
Lemma init_duplicate_identifiers :
  ¬ NoDup (StepDefinition.id <$> Sample.twins) ∧
  (∃ step parameters,
      step ∈ Sample.twins ∧
      StepDefinition.parameters step = Some parameters ∧
      ¬ NoDup (ParameterDefinition.name <$> parameters)) ∧
  ∃ self, WorkflowSchema.init Sample.metadata Sample.twins
            (Some WorkflowConfiguration.default) None None = Ok self ∧
          WorkflowSchema.steps self = Sample.twins.
Proof.
  split_and!.
  - refute_by_compute.
  - eexists _, _. split_and!; [apply list_elem_of_here | reflexivity |].
    refute_by_compute.
  - eexists. split; reflexivity.
Qed.

(** Validating a list of steps with a missing dependency raises the error
    naming the first step, in list order, that lists a missing id, and the
    first missing id it lists. *)
Lemma validate_first_missing_dependency steps step0 dep0 :
  step0 ∈ steps → dep0 ∈ WorkflowSchema.deps_of step0 →
  dep0 ∉ StepDefinition.id <$> steps →
  ∃ earlier step later before dep after,
    WorkflowSchema.validate_step_dependencies steps
      = Raise (NonExistentStep (StepDefinition.id step) dep) ∧
    steps = earlier ++ step :: later ∧
    WorkflowSchema.deps_of step = before ++ dep :: after ∧
    (dep ∉ StepDefinition.id <$> steps) ∧
    (∀ s d, s ∈ earlier → d ∈ WorkflowSchema.deps_of s →
            d ∈ StepDefinition.id <$> steps) ∧
    (∀ d, d ∈ before → d ∈ StepDefinition.id <$> steps).
Proof.
  intros Hstep Hdep Hmissing.
  unfold WorkflowSchema.validate_step_dependencies.
  destruct (WorkflowSchema.check_steps (WorkflowSchema.step_ids steps) steps)
    as [[]|e] eqn:Hcheck.
  - exfalso. apply check_steps_Ok in Hcheck.
    eapply Forall_forall in Hcheck; [|exact Hstep].
    eapply Forall_forall in Hcheck; [|exact Hdep].
    by apply elem_of_list_to_set in Hcheck.
  - apply check_steps_Raise in Hcheck
      as (earlier & step & later & before & dep & after
          & Hsteps & Hearlier & Hdeps & Hbefore & Hdepmissing & ->).
    exists earlier, step, later, before, dep, after. simpl.
    split_and!; [done | done | done | | |].
    + intros Hin. apply Hdepmissing. by apply elem_of_list_to_set.
    + intros s d Hs Hd.
      eapply Forall_forall in Hearlier; [|exact Hs].
      eapply Forall_forall in Hearlier; [|exact Hd].
      by apply elem_of_list_to_set in Hearlier.
    + intros d Hd. eapply Forall_forall in Hbefore; [|exact Hd].
      by apply elem_of_list_to_set in Hbefore.
Qed.

(** C6.  When some step lists a dependency that is not the id of any step,
    construction raises the error naming a step and the missing id it
    lists, namely the first such pair in list order, and returns no
    graph. *)
Theorem init_unknown_dependency md steps cfg gp gv step0 dep0 :
  step0 ∈ steps → dep0 ∈ WorkflowSchema.deps_of step0 →
  dep0 ∉ StepDefinition.id <$> steps →
  ∃ earlier step later before dep after,
    WorkflowSchema.init md steps cfg gp gv
      = Raise (NonExistentStep (StepDefinition.id step) dep) ∧
    (∀ self, WorkflowSchema.init md steps cfg gp gv ≠ Ok self) ∧
    steps = earlier ++ step :: later ∧
    WorkflowSchema.deps_of step = before ++ dep :: after ∧
    (dep ∉ StepDefinition.id <$> steps) ∧
    (∀ s d, s ∈ earlier → d ∈ WorkflowSchema.deps_of s →
            d ∈ StepDefinition.id <$> steps) ∧
    (∀ d, d ∈ before → d ∈ StepDefinition.id <$> steps).
Proof.
  intros Hstep Hdep Hmissing.
  destruct (validate_first_missing_dependency steps step0 dep0 Hstep Hdep Hmissing)
    as (earlier & step & later & before & dep & after
        & Hraise & Hsteps & Hdeps & Hdepmissing & Hearlier & Hbefore).
  exists earlier, step, later, before, dep, after.
  assert (WorkflowSchema.init md steps cfg gp gv
          = Raise (NonExistentStep (StepDefinition.id step) dep)) as Hinit.
  { unfold WorkflowSchema.init. by rewrite Hraise. }
  split_and!; try done.
  intros self Hok. rewrite Hinit in Hok. discriminate Hok.
Qed.

Lemma init_unknown_dependency_witness :
  let steps := [Sample.step "a" None; Sample.step "b" (Some ["a"; "z"])] in
  Sample.step "b" (Some ["a"; "z"]) ∈ steps ∧
  "z" ∈ WorkflowSchema.deps_of (Sample.step "b" (Some ["a"; "z"])) ∧
  ("z" ∉ StepDefinition.id <$> steps) ∧
  ∃ earlier step later before dep after,
    WorkflowSchema.init Sample.metadata steps None None None
      = Raise (NonExistentStep (StepDefinition.id step) dep) ∧
    (∀ self, WorkflowSchema.init Sample.metadata steps None None None ≠ Ok self) ∧
    steps = earlier ++ step :: later ∧
    WorkflowSchema.deps_of step = before ++ dep :: after ∧
    (dep ∉ StepDefinition.id <$> steps) ∧
    (∀ s d, s ∈ earlier → d ∈ WorkflowSchema.deps_of s →
            d ∈ StepDefinition.id <$> steps) ∧
    (∀ d, d ∈ before → d ∈ StepDefinition.id <$> steps).
Proof.
  intros steps.
  assert (Sample.step "b" (Some ["a"; "z"]) ∈ steps) as H1
    by (apply list_elem_of_further, list_elem_of_here).
  assert ("z" ∈ WorkflowSchema.deps_of (Sample.step "b" (Some ["a"; "z"]))) as H2
    by (apply list_elem_of_further, list_elem_of_here).
  assert ("z" ∉ StepDefinition.id <$> steps) as H3
    by decide_by_compute.
  split_and!; [exact H1 | exact H2 | exact H3 |].
  exact (init_unknown_dependency Sample.metadata steps None None None _ _ H1 H2 H3).
Defined.

Example init_unknown_dependency_names_z :
  WorkflowSchema.init Sample.metadata
    [Sample.step "a" None; Sample.step "b" (Some ["a"; "z"])] None None None
  = Raise (NonExistentStep "b" "z").
Proof. vm_compute. reflexivity. Qed.

(** ** Substring search *)

Lemma append_cons c s1 s2 : String c s1 +:+ s2 = String c (s1 +:+ s2).
Proof. reflexivity. Qed.

Lemma append_nil s : "" +:+ s = s.
Proof. reflexivity. Qed.

Lemma prefix_append k s : String.prefix k s = true ↔ ∃ after, s = k +:+ after.
Proof.
  revert s. induction k as [|c k IH]; intros s.
  - split; [intros _; by exists s | intros _; by destruct s].
  - destruct s as [|c' s]; simpl.
    + split; [done | by intros [after ?]].
    + destruct (ascii_dec c c') as [->|Hne].
      * rewrite IH. split; intros [after Heq]; exists after.
        -- by rewrite append_cons, <- Heq.
        -- rewrite append_cons in Heq. by injection Heq.
      * split; [done|]. intros [after Heq].
        rewrite append_cons in Heq. by injection Heq.
Qed.

Lemma contains_occurs k s : Py.contains k s = true ↔ occurs k s.
Proof.
  induction s as [|c s IH].
  - change (Py.contains k "") with (String.prefix k "" || false).
    rewrite orb_false_r, prefix_append. split.
    + intros [after Heq]. by exists "", after.
    + intros ([|??] & after & Heq); [by exists after | done].
  - change (Py.contains k (String c s))
      with (String.prefix k (String c s) || Py.contains k s).
    rewrite orb_true_iff, prefix_append, IH. split.
    + intros [[after Heq]|(before & after & Heq)].
      * by exists "", after.
      * exists (String c before), after. by rewrite append_cons, <- Heq.
    + intros ([|c' before] & after & Heq).
      * left. by exists after.
      * right. exists before, after. rewrite append_cons in Heq. by injection Heq.
Qed.

Lemma any_keyword_matches keywords text :
  WorkflowManager.any_keyword keywords text = true ↔ matches keywords text.
Proof.
  unfold WorkflowManager.any_keyword, matches. rewrite existsb_exists.
  split; intros (k & Hk & Hocc); exists k.
  - split; [by apply list_elem_of_In | by apply contains_occurs].
  - split; [by apply list_elem_of_In | by apply contains_occurs].
Qed.

Lemma any_keyword_no_match keywords text :
  WorkflowManager.any_keyword keywords text = false ↔ ¬ matches keywords text.
Proof. rewrite <- any_keyword_matches. by destruct (WorkflowManager.any_keyword _ _). Qed.

(** ** Parameter construction *)

Lemma validate_options_Ok v type :
  ParameterDefinition.falsy v = false →
  ParameterDefinition.validate_options v type = Ok v.
Proof.
  intros Hv. unfold ParameterDefinition.validate_options.
  by rewrite Hv, andb_false_r.
Qed.

Lemma validate_options_other v type :
  type ∉ [SELECT; MULTISELECT] →
  ParameterDefinition.validate_options v type = Ok v.
Proof.
  intros Ht. unfold ParameterDefinition.validate_options.
  by rewrite bool_decide_eq_false_2.
Qed.

Lemma infer_step_configuration_Ok task_desc :
  ∃ inferred, WorkflowManager._infer_step_configuration task_desc = Ok inferred.
Proof.
  unfold WorkflowManager._infer_step_configuration.
  repeat (case_match; simpl); eauto.
Qed.

Lemma first_match_functional text tables c c' :
  first_match text tables c → first_match text tables c' → c = c'.
Proof.
  induction 1 as [|c kws rest Hm|c kws rest c'' Hn _ IH]; inversion 1; subst;
    try done; auto.
Qed.

(** C7.  For every task description, [_infer_step_configuration] returns
    the category that the precedence policy assigns to the lower-cased
    description: the first of inference-processing, form-input,
    code-execution, external-request whose keyword set has a keyword
    occurring in it, and data-transformation when none has; that category
    is unique. *)
Theorem infer_step_configuration_precedence task_desc :
  ∃ step_type parameters llm_config custom_handler,
    WorkflowManager._infer_step_configuration task_desc
      = Ok (step_type, parameters, llm_config, custom_handler) ∧
    classified task_desc step_type ∧
    ∀ category, classified task_desc category → category = step_type.
Proof.
  assert (∃ step_type parameters llm_config custom_handler,
            WorkflowManager._infer_step_configuration task_desc
              = Ok (step_type, parameters, llm_config, custom_handler) ∧
            classified task_desc step_type) as (t & ps & cfg & h & Hrun & Hc).
  { unfold WorkflowManager._infer_step_configuration, classified, keyword_tables.
    destruct (WorkflowManager.any_keyword WorkflowManager.llm_keywords _) eqn:Hllm.
    { apply any_keyword_matches in Hllm.
      eexists _, _, _, _. split; [reflexivity|]. by constructor. }
    apply any_keyword_no_match in Hllm.
    destruct (WorkflowManager.any_keyword WorkflowManager.input_keywords _) eqn:Hinput.
    { apply any_keyword_matches in Hinput.
      repeat (case_match; simpl);
        (eexists _, _, _, _; split; [reflexivity|]);
        by apply first_match_later; [|constructor]. }
    apply any_keyword_no_match in Hinput.
    destruct (WorkflowManager.any_keyword WorkflowManager.execution_keywords _) eqn:Hexec.
    { apply any_keyword_matches in Hexec.
      eexists _, _, _, _. split; [reflexivity|].
      by do 2 (apply first_match_later; [done|]); constructor. }
    apply any_keyword_no_match in Hexec.
    destruct (WorkflowManager.any_keyword WorkflowManager.http_keywords _) eqn:Hhttp.
    { apply any_keyword_matches in Hhttp.
      repeat (case_match; simpl);
        (eexists _, _, _, _; split; [reflexivity|]);
        by do 3 (apply first_match_later; [done|]); constructor. }
    apply any_keyword_no_match in Hhttp.
    eexists _, _, _, _. split; [reflexivity|].
    do 4 (apply first_match_later; [done|]). constructor. }
  exists t, ps, cfg, h. split_and!; [done | done |].
  intros category Hcat. by eapply first_match_functional.
Qed.

(** Overlapping vocabulary: "ai test generation" has both an inference cue
    and an execution cue and is classified as inference-processing. *)
Example infer_ai_test_generation :
  ∃ parameters llm_config,
    WorkflowManager._infer_step_configuration "AI test generation"
    = Ok (LLM_PROCESSING, parameters, llm_config, None).
Proof. eexists _, _. vm_compute. reflexivity. Qed.

(** "Test Execution" has only execution cues; the handler name is derived
    from the description. *)
Example infer_test_execution :
  WorkflowManager._infer_step_configuration "Test Execution"
  = Ok (CODE_EXECUTION, [], None, Some "execute_test_execution").
Proof. vm_compute. reflexivity. Qed.

(** ** Parameter options *)

(** A select or multiselect parameter given [options=None] or
    [options=[]] is rejected at construction. *)
Lemma init_rejects_empty_options name type label description required default
    options validation placeholder help_text depends_on :
  type ∈ [SELECT; MULTISELECT] →
  ParameterDefinition.falsy options = true →
  ParameterDefinition.init name type label description required default
    (Given options) validation placeholder help_text depends_on
  = Raise (OptionsRequired type).
Proof.
  intros Htype Hfalsy. unfold ParameterDefinition.init, ParameterDefinition.validate_options.
  by rewrite bool_decide_eq_true_2, Hfalsy.
Qed.

(** The same definition with a non-empty options list is constructed. *)
Lemma init_accepts_options name type label description required default
    choice choices validation placeholder help_text depends_on :
  ParameterDefinition.init name type label description required default
    (Given (Some (choice :: choices))) validation placeholder help_text depends_on
  = Ok (ParameterDefinition.mk name type label description required default
          (Some (choice :: choices)) validation placeholder help_text depends_on).
Proof.
  unfold ParameterDefinition.init. by rewrite validate_options_Ok.
Qed.

(** C4 (the code at the failing input).  A select parameter constructed
    with the [options] keyword left out is accepted: the validator is not
    run on the default, and the parameter is built with [options = None]. *)
Theorem init_select_without_options :
  ParameterDefinition.init "choice" SELECT None None false Py.PyNone
    Omitted None None None None
  = Ok (ParameterDefinition.mk "choice" SELECT None None false Py.PyNone
          None None None None None).
Proof. reflexivity. Qed.

(** Leaving [options] out is accepted for every parameter type. *)
Lemma init_omitted_options name type label description required default
    validation placeholder help_text depends_on :
  ParameterDefinition.init name type label description required default
    Omitted validation placeholder help_text depends_on
  = Ok (ParameterDefinition.mk name type label description required default
          None validation placeholder help_text depends_on).
Proof. reflexivity. Qed.

(** ** The manager on three tasks *)

(** C8.  Creating a workflow from "data input", "ai analysis" and "report
    generation" registers a graph with steps step_1, step_2, step_3 in
    that order, each after the first depending on its predecessor, step_2
    being an inference-processing step whose parameters are one required
    select parameter for the provider, and with execution order
    [step_1], [step_2], [step_3]. *)
Theorem create_workflow_three_tasks (self : WorkflowManager.t) :
  let tasks : gmap Z string :=
    {[ 1%Z := "data input"; 2%Z := "ai analysis"; 3%Z := "report generation" ]} in
  ∃ workflow provider,
    WorkflowManager.create_workflow_from_tasks self tasks None None None
      "auto_generated"
    = (Ok "auto_workflow",
       WorkflowManager.mk
         (<["auto_workflow" := workflow]> (WorkflowManager.workflows_registry self))) ∧
    StepDefinition.id <$> WorkflowSchema.steps workflow
      = ["step_1"; "step_2"; "step_3"] ∧
    StepDefinition.depends_on <$> WorkflowSchema.steps workflow
      = [None; Some ["step_1"]; Some ["step_2"]] ∧
    StepDefinition.type <$> WorkflowSchema.steps workflow
      = [FORM_INPUT; LLM_PROCESSING; DATA_TRANSFORMATION] ∧
    StepDefinition.parameters <$> WorkflowSchema.get_step_by_id workflow "step_2"
      = Some (Some [provider]) ∧
    ParameterDefinition.name provider = "llm_provider" ∧
    ParameterDefinition.type provider = SELECT ∧
    ParameterDefinition.required provider = true ∧
    ParameterDefinition.options provider
      = Some [ParameterDefinition.OptStr "openai";
              ParameterDefinition.OptStr "anthropic";
              ParameterDefinition.OptStr "google"] ∧
    WorkflowSchema.get_execution_order workflow
      = Some (Ok [["step_1"]; ["step_2"]; ["step_3"]]).
Proof.
  intros tasks. eexists _, _. split_and!.
  - vm_compute. reflexivity.
  - reflexivity.
  - reflexivity.
  - reflexivity.
  - vm_compute. reflexivity.
  - reflexivity.
  - reflexivity.
  - reflexivity.
  - reflexivity.
  - vm_compute. reflexivity.
Qed.

(** ** File generation *)

Section generation_facts.
Context {exn : Type}.
Variable render_plugin : WorkflowGenerator.plugin_context → outcome exn string.
Variable render_component : WorkflowGenerator.component_context → outcome exn string.
Variable json_dumps : Py.obj → outcome exn string.

(** C3 (amended).  [generate_workflow_files] runs the four emitters in
    the order plugin, component, configuration, schema without isolating
    them: it returns the four artifacts exactly when every emitter
    returns, and otherwise raises the exception of the first emitter that
    raised, returning no artifact. *)
Theorem generate_workflow_files_all_or_nothing (workflow : WorkflowSchema.t) :
  let workflow_id := WorkflowMetadata.id (WorkflowSchema.metadata workflow) in
  let config := json_dumps (WorkflowGenerator.generate_app_config workflow) in
  let schema := json_dumps (Dump.WorkflowSchema workflow) in
  match WorkflowGenerator.generate_workflow_files render_plugin render_component
          json_dumps workflow with
  | Ok files =>
      ∃ plugin_code component_code config_text schema_text,
        WorkflowGenerator.generate_fastapi_plugin render_plugin workflow = Ok plugin_code ∧
        WorkflowGenerator.generate_react_component render_component workflow = Ok component_code ∧
        config = Ok config_text ∧
        schema = Ok schema_text ∧
        files = <[workflow_id +:+ "_schema.json" := schema_text]>
                (<[workflow_id +:+ "_config.json" := config_text]>
                 (<[workflow_id +:+ "_workflow.tsx" := component_code]>
                  (<[workflow_id +:+ "_plugin.py" := plugin_code]> ∅)))
  | Raise e =>
      WorkflowGenerator.generate_fastapi_plugin render_plugin workflow = Raise e ∨
      (returns (WorkflowGenerator.generate_fastapi_plugin render_plugin workflow) ∧ WorkflowGenerator.generate_react_component render_component workflow = Raise e) ∨
      (returns (WorkflowGenerator.generate_fastapi_plugin render_plugin workflow) ∧ returns (WorkflowGenerator.generate_react_component render_component workflow) ∧
       config = Raise e) ∨
      (returns (WorkflowGenerator.generate_fastapi_plugin render_plugin workflow) ∧ returns (WorkflowGenerator.generate_react_component render_component workflow) ∧
       returns config ∧ schema = Raise e)
  end.
Proof.
  intros workflow_id config schema.
  unfold WorkflowGenerator.generate_workflow_files.
  fold workflow_id config schema.
  destruct (WorkflowGenerator.generate_fastapi_plugin render_plugin workflow) as [plugin_code|e]; simpl; [|by left].
  destruct (WorkflowGenerator.generate_react_component render_component workflow) as [component_code|e]; simpl;
    [|right; left; unfold returns; eauto].
  destruct config as [config_text|e]; simpl;
    [|right; right; left; unfold returns; eauto].
  destruct schema as [schema_text|e]; simpl;
    [|right; right; right; unfold returns; split_and!; eauto].
  by eexists _, _, _, _.
Qed.
End generation_facts.

(** With a plugin emitter that raises and a component emitter that
    returns, the call raises: the component artifact is not returned and
    there is no record per artifact kind. *)
Lemma generate_workflow_files_aborts :
  let render_plugin := λ _ : WorkflowGenerator.plugin_context,
    Raise "template error" in
  let render_component := λ _ : WorkflowGenerator.component_context,
    Ok "component" in
  let json_dumps := λ _ : Py.obj, Ok "{}" in
  let workflow := Sample.workflow Sample.diamond in
  WorkflowGenerator.generate_react_component render_component workflow
    = Ok "component" ∧
  WorkflowGenerator.generate_workflow_files render_plugin render_component
    json_dumps workflow = Raise "template error" ∧
  ¬ ∃ files,
      WorkflowGenerator.generate_workflow_files render_plugin render_component
        json_dumps workflow = Ok files.
Proof.
  split_and!; [reflexivity | reflexivity |]. by intros [files Hfiles].
Qed.

(** ** Default dependencies of created workflows *)

Section default_chain.
Import WorkflowManager.

Lemma step_id_of_inj : Inj (=) (=) WorkflowManager.step_id_of.
Proof.
  intros a b Heq. unfold WorkflowManager.step_id_of, Py.str_of_int in Heq.
  by apply String.app_inj, pretty_Z_inj in Heq.
Qed.

Lemma make_step_Ok item :
  ∃ step, make_step item = Ok step ∧ numbered item step.
Proof.
  destruct item as [k d]. unfold make_step.
  destruct (infer_step_configuration_Ok d) as [[[[t ps] cfg] h] ->]. simpl.
  eexists. split; [reflexivity|]. split; [reflexivity|].
  unfold WorkflowSchema.deps_of. simpl. by case_decide.
Qed.

Lemma make_steps_Ok items :
  ∃ steps, make_steps items = Ok steps ∧ Forall2 numbered items steps.
Proof.
  induction items as [|item items (steps & Hsteps & Hall)]; simpl.
  - exists []. by split; [|constructor].
  - destruct (make_step_Ok item) as (step & -> & Hstep). rewrite Hsteps. simpl.
    exists (step :: steps). by split; [|constructor].
Qed.

Lemma sorted_items_elem_of (tasks : gmap Z string) k d :
  (k, d) ∈ merge_sort item_le (map_to_list tasks) ↔ tasks !! k = Some d.
Proof. by rewrite merge_sort_Permutation, elem_of_map_to_list. Qed.

Lemma numbered_ids items steps x :
  Forall2 numbered items steps →
  x ∈ StepDefinition.id <$> steps ↔ ∃ item, item ∈ items ∧ x = WorkflowManager.step_id_of item.1.
Proof.
  induction 1 as [|item step items steps [Hid _] _ IH].
  - split; [by intros ?%elem_of_nil | by intros (? & ?%elem_of_nil & _)].
  - rewrite fmap_cons, elem_of_cons, IH, Hid. split.
    + intros [->|(i & Hi & ->)]; [exists item | exists i];
        (split; [|done]); [left | by right].
    + intros (i & [->|Hi]%elem_of_cons & ->); [by left | right; by exists i].
Qed.

Lemma numbered_elem_of items steps item :
  Forall2 numbered items steps → item ∈ items →
  ∃ step, step ∈ steps ∧ numbered item step.
Proof.
  induction 1 as [|i s items steps Hn _ IH].
  - by intros ?%elem_of_nil.
  - intros [->|Hin]%elem_of_cons.
    + exists s. split; [left | done].
    + destruct (IH Hin) as (step & ? & ?). exists step. split; [by right | done].
Qed.
End default_chain.

(** C10 (amended).  For every task map that has a key [k > 1] whose
    predecessor [k - 1] is not a key, [create_workflow_from_tasks] fails:
    the step numbered [k] is given the default dependency on the step
    numbered [k - 1], which graph construction rejects as non-existent
    (the error names the least such [k]), and the manager with its
    registry is left unchanged. *)
Theorem create_workflow_from_tasks_gap (self : WorkflowManager.t)
    (tasks : gmap Z string) workflow_name workflow_id description category k :
  is_Some (tasks !! k) → (1 < k)%Z → tasks !! (k - 1)%Z = None →
  ∃ j,
    is_Some (tasks !! j) ∧ (1 < j)%Z ∧ tasks !! (j - 1)%Z = None ∧
    (∀ i, is_Some (tasks !! i) → (1 < i)%Z → tasks !! (i - 1)%Z = None →
          (j ≤ i)%Z) ∧
    WorkflowManager.create_workflow_from_tasks self tasks workflow_name
      workflow_id description category
    = (Raise (NonExistentStep (WorkflowManager.step_id_of j) (WorkflowManager.step_id_of (j - 1))), self).
Proof.
  intros [d Hk] Hk1 Hpred.
  unfold WorkflowManager.create_workflow_from_tasks.
  set (items := merge_sort WorkflowManager.item_le (map_to_list tasks)).
  destruct (make_steps_Ok items) as (steps & -> & Hnumbered). simpl.
  set (md := WorkflowMetadata.mk _ _ _ _ _ _ _ _ _ _).
  assert (∀ i, WorkflowManager.step_id_of i ∈ StepDefinition.id <$> steps ↔ is_Some (tasks !! i))
    as Hids.
  { intros i. rewrite (numbered_ids items steps _ Hnumbered). split.
    - intros ([i' d'] & Hin & ->%step_id_of_inj).
      apply sorted_items_elem_of in Hin. by exists d'.
    - intros [d' Hi]. exists (i, d'). split; [|done].
      by apply sorted_items_elem_of. }
  destruct (numbered_elem_of items steps (k, d) Hnumbered) as (step0 & Hstep0 & _ & Hdeps0).
  { by apply sorted_items_elem_of. }
  simpl in Hdeps0. rewrite decide_True in Hdeps0 by done.
  unfold WorkflowSchema.init.
  destruct (validate_first_missing_dependency steps step0
              (WorkflowManager.step_id_of (k - 1)))
    as (earlier & step & later & before & dep & after
        & -> & Hsplit & Hdeps & Hmissing & Hearlier & _).
  { done. }
  { rewrite Hdeps0. apply list_elem_of_here. }
  { rewrite Hids, Hpred. by intros [? ?]. }
  pose proof Hnumbered as Hparts. rewrite Hsplit in Hparts.
  apply Forall2_app_inv_r in Hparts as (ie & irest & Hie & Hrest & Hitems).
  apply Forall2_cons_inv_r in Hrest as ([j dj] & il & [Hid Hdj] & Hil & ->).
  simpl in Hid, Hdj.
  assert ((1 < j)%Z ∧ dep = WorkflowManager.step_id_of (j - 1)) as [Hj ->].
  { rewrite Hdeps in Hdj. case_decide.
    - destruct before as [|? [|??]]; simplify_eq/=. done.
    - by destruct before. }
  assert ((j, dj) ∈ items) as Hjin.
  { rewrite Hitems. apply elem_of_app. right. left. }
  exists j. rewrite Hid. split_and!; [| done | | | done].
  - exists dj. by apply sorted_items_elem_of.
  - destruct (tasks !! (j - 1)%Z) as [d'|] eqn:Hlook; [|done].
    exfalso. apply Hmissing. apply Hids. by exists d'.
  - intros i [di Hi] Hi1 Hipred.
    destruct (decide (j ≤ i)%Z) as [|Hlt]; [done|]. exfalso.
    assert ((i, di) ∈ items) as Hiin by by apply sorted_items_elem_of.
    pose proof (StronglySorted_merge_sort WorkflowManager.item_le (map_to_list tasks))
      as Hsorted.
    fold items in Hsorted. rewrite Hitems in Hsorted, Hiin.
    apply elem_of_app in Hiin as [Hiin|Hiin].
    + destruct (numbered_elem_of ie earlier (i, di) Hie Hiin) as (si & Hsi & _ & Hdi).
      simpl in Hdi. rewrite decide_True in Hdi by done.
      assert (WorkflowManager.step_id_of (i - 1) ∈ StepDefinition.id <$> steps) as Hin.
      { apply (Hearlier si); [done|]. rewrite Hdi. apply list_elem_of_here. }
      apply Hids in Hin as [? Hin]. congruence.
    + apply elem_of_cons in Hiin as [[= -> ->]|Hiin]; [lia|].
      apply StronglySorted_app_1_r in Hsorted.
      inversion Hsorted as [|?? _ Hall]; subst.
      eapply Forall_forall in Hall; [|exact Hiin].
      unfold WorkflowManager.item_le in Hall. simpl in Hall. lia.
Qed.

Lemma create_workflow_from_tasks_gap_witness :
  let tasks : gmap Z string := {[ 1%Z := "data input"; 3%Z := "report" ]} in
  let self := WorkflowManager.mk ∅ in
  is_Some (tasks !! 3%Z) ∧ (1 < 3)%Z ∧ tasks !! (3 - 1)%Z = None ∧
  ∃ j,
    is_Some (tasks !! j) ∧ (1 < j)%Z ∧ tasks !! (j - 1)%Z = None ∧
    (∀ i, is_Some (tasks !! i) → (1 < i)%Z → tasks !! (i - 1)%Z = None →
          (j ≤ i)%Z) ∧
    WorkflowManager.create_workflow_from_tasks self tasks None None None
      "auto_generated"
    = (Raise (NonExistentStep (WorkflowManager.step_id_of j) (WorkflowManager.step_id_of (j - 1))), self).
Proof.
  intros tasks self.
  assert (is_Some (tasks !! 3%Z)) as H1 by (eexists; reflexivity).
  assert (1 < 3)%Z as H2 by lia.
  assert (tasks !! (3 - 1)%Z = None) as H3 by reflexivity.
  split_and!; [exact H1 | exact H2 | exact H3 |].
  exact (create_workflow_from_tasks_gap self tasks None None None
           "auto_generated" 3 H1 H2 H3).
Defined.

Example create_workflow_keys_1_3 :
  WorkflowManager.create_workflow_from_tasks (WorkflowManager.mk ∅)
    {[ 1%Z := "data input"; 3%Z := "report" ]} None None None "auto_generated"
  = (Raise (NonExistentStep "step_3" "step_2"), WorkflowManager.mk ∅).
Proof. vm_compute. reflexivity. Qed.

(** The keys 0 and 1 are not of the form 1..n, yet the call succeeds and
    records the workflow: only steps numbered above 1 get a default
    dependency. *)
Lemma create_workflow_keys_0_1 :
  let tasks : gmap Z string := {[ 0%Z := "data input"; 1%Z := "report" ]} in
  (∀ n, dom tasks ≠ list_to_set (seqZ 1 n)) ∧
  ∃ workflow,
    WorkflowManager.create_workflow_from_tasks (WorkflowManager.mk ∅) tasks
      None None None "auto_generated"
    = (Ok "auto_workflow", WorkflowManager.mk {[ "auto_workflow" := workflow ]}).
Proof.
  intros tasks. split.
  - intros n Heq.
    assert (0%Z ∈ dom tasks) as Hin by (apply elem_of_dom; eexists; reflexivity).
    rewrite Heq, elem_of_list_to_set, elem_of_seqZ in Hin. lia.
  - eexists. vm_compute. reflexivity.
Qed.

(** ** Reading back a dump *)

Lemma required_get {A} items field v (f : Py.obj → Parse.parsed A) :
  Dict.get items field = Some v → Parse.required items field f = f v.
Proof. unfold Parse.required. by intros ->. Qed.

Lemma optional_get {A} items field v (f : Py.obj → Parse.parsed A) d :
  Dict.get items field = Some v → Parse.optional items field f d = f v.
Proof. unfold Parse.optional. by intros ->. Qed.

Lemma bind_Ok {E A B} (a : A) (k : A → outcome E B) : Ok a ≫= k = k a.
Proof. done. Qed.

(** Look up every field read from a dumped dict. *)
Ltac read_fields :=
  repeat first [ erewrite required_get by reflexivity
               | erewrite optional_get by reflexivity ].

Section round_trip.
Import Py.

Lemma each_fmap {A B} (f : B → Parse.parsed A) (g : A → B) (l : list A) :
  (∀ x, x ∈ l → f (g x) = Ok x) → Parse.each f (g <$> l) = Ok l.
Proof.
  induction l as [|x l IH]; intros Hall; [done|].
  rewrite fmap_cons. simpl. rewrite Hall by left.
  rewrite IH by (intros y Hy; apply Hall; by right). done.
Qed.

Lemma list_of_fmap {A} (f : obj → Parse.parsed A) (g : A → obj) (l : list A) :
  (∀ x, x ∈ l → f (g x) = Ok x) → Parse.list_of f (Dump.list_of g l) = Ok l.
Proof. apply each_fmap. Qed.

Lemma opt_some {A} (f : obj → Parse.parsed A) (g : A → obj) (o : option A) :
  (∀ a, o = Some a → g a ≠ PyNone ∧ f (g a) = Ok a) →
  Parse.opt f (Dump.opt g o) = Ok o.
Proof.
  destruct o as [a|]; [|done]. intros Hg.
  destruct (Hg a eq_refl) as [Hne Hfg]. simpl.
  unfold Parse.opt. destruct (g a); try done; by rewrite Hfg.
Qed.

Lemma opt_str o : Parse.opt Parse.str (Dump.opt PyStr o) = Ok o.
Proof. by destruct o. Qed.

Lemma opt_int o : Parse.opt Parse.int (Dump.opt PyInt o) = Ok o.
Proof. by destruct o. Qed.

Lemma opt_float o : Parse.opt Parse.float (Dump.opt PyFloat o) = Ok o.
Proof. by destruct o. Qed.

Lemma opt_dict o : Parse.opt Parse.dict (Dump.opt PyDict o) = Ok o.
Proof. by destruct o. Qed.

Lemma list_of_str l : Parse.list_of Parse.str (Dump.list_of PyStr l) = Ok l.
Proof. by apply list_of_fmap. Qed.

Lemma opt_list_of_str o :
  Parse.opt (Parse.list_of Parse.str) (Dump.opt (Dump.list_of PyStr) o) = Ok o.
Proof. apply opt_some. intros l _. split; [done | apply list_of_str]. Qed.

Lemma str_dict_round_trip d : Parse.str_dict (Dump.str_dict d) = Ok d.
Proof.
  unfold Parse.str_dict, Dump.str_dict. apply each_fmap. by intros [k s] _.
Qed.

Lemma ParameterType_round_trip t :
  Parse.ParameterType (PyStr (Dump.ParameterType_value t)) = Ok t.
Proof. by destruct t. Qed.

Lemma StepType_round_trip t :
  Parse.StepType (PyStr (Dump.StepType_value t)) = Ok t.
Proof. by destruct t. Qed.

Lemma kind_round_trip k : Parse.kind (PyStr (Dump.kind_value k)) = Ok k.
Proof. by destruct k. Qed.

Lemma format_round_trip f : Parse.format (PyStr (Dump.format_value f)) = Ok f.
Proof. by destruct f. Qed.

Lemma level_round_trip l : Parse.level (PyStr (Dump.level_value l)) = Ok l.
Proof. by destruct l. Qed.

Lemma bound_round_trip b : Parse.bound (Dump.bound b) = Ok b.
Proof. by destruct b. Qed.

Lemma choice_round_trip c : Parse.choice (Dump.choice c) = Ok c.
Proof. by destruct c. Qed.

Lemma opt_bound o : Parse.opt Parse.bound (Dump.opt Dump.bound o) = Ok o.
Proof.
  apply opt_some. intros b _. split; [by destruct b | apply bound_round_trip].
Qed.

Lemma ValidationRule_round_trip r :
  Parse.ValidationRule (Dump.ValidationRule r) = Ok r.
Proof.
  destruct r as [type value message].
  unfold Parse.ValidationRule, Dump.ValidationRule.
  cbn [Parse.dict]. rewrite bind_Ok. read_fields.
  cbn [ValidationRule.type ValidationRule.value ValidationRule.message].
  by rewrite kind_round_trip, opt_bound.
Qed.

Lemma opt_validation o :
  Parse.opt (Parse.list_of Parse.ValidationRule)
    (Dump.opt (Dump.list_of Dump.ValidationRule) o) = Ok o.
Proof.
  apply opt_some. intros l _. split; [done|].
  apply list_of_fmap. intros r _. apply ValidationRule_round_trip.
Qed.

Lemma opt_choices o :
  Parse.opt (Parse.list_of Parse.choice) (Dump.opt (Dump.list_of Dump.choice) o)
  = Ok o.
Proof.
  apply opt_some. intros l _. split; [done|].
  apply list_of_fmap. intros c _. apply choice_round_trip.
Qed.

Lemma ParameterDefinition_round_trip p :
  parameter_valid p →
  Parse.ParameterDefinition (Dump.ParameterDefinition p) = Ok p.
Proof.
  destruct p. unfold parameter_valid, Parse.ParameterDefinition, Dump.ParameterDefinition.
  cbn [Parse.dict ParameterDefinition.name ParameterDefinition.type
       ParameterDefinition.label ParameterDefinition.description
       ParameterDefinition.required ParameterDefinition.default
       ParameterDefinition.options ParameterDefinition.validation
       ParameterDefinition.placeholder ParameterDefinition.help_text
       ParameterDefinition.depends_on].
  intros Hvalid. rewrite bind_Ok. read_fields.
  assert (Dict.get
    [("name", PyStr name); ("type", PyStr (Dump.ParameterType_value type));
     ("label", Dump.opt PyStr label); ("description", Dump.opt PyStr description);
     ("required", PyBool required); ("default", default);
     ("options", Dump.opt (Dump.list_of Dump.choice) options);
     ("validation", Dump.opt (Dump.list_of Dump.ValidationRule) validation);
     ("placeholder", Dump.opt PyStr placeholder);
     ("help_text", Dump.opt PyStr help_text);
     ("depends_on", Dump.opt PyDict depends_on)] "options"
    = Some (Dump.opt (Dump.list_of Dump.choice) options)) as -> by reflexivity.
  rewrite ParameterType_round_trip, !opt_str, opt_choices, opt_validation, opt_dict.
  cbn [Parse.str Parse.bool Parse.any mbind outcome_bind].
  unfold ParameterDefinition.init. rewrite Hvalid. done.
Qed.

Lemma opt_parameters o :
  (∀ parameters p, o = Some parameters → p ∈ parameters → parameter_valid p) →
  Parse.opt (Parse.list_of Parse.ParameterDefinition)
    (Dump.opt (Dump.list_of Dump.ParameterDefinition) o) = Ok o.
Proof.
  intros Hvalid. apply opt_some. intros l ->. split; [done|].
  apply list_of_fmap. intros p Hp. apply ParameterDefinition_round_trip.
  by eapply Hvalid.
Qed.

Lemma opt_format o :
  Parse.opt Parse.format (Dump.opt (λ f, PyStr (Dump.format_value f)) o) = Ok o.
Proof.
  apply opt_some. intros f _. split; [done | apply format_round_trip].
Qed.

Lemma LLMConfiguration_round_trip c :
  Parse.LLMConfiguration (Dump.LLMConfiguration c) = Ok c.
Proof.
  destruct c. unfold Parse.LLMConfiguration, Dump.LLMConfiguration.
  cbn [Parse.dict LLMConfiguration.template_name LLMConfiguration.system_prompt
       LLMConfiguration.user_prompt_template LLMConfiguration.template_variables
       LLMConfiguration.max_tokens LLMConfiguration.temperature
       LLMConfiguration.response_format LLMConfiguration.response_schema].
  rewrite bind_Ok. read_fields.
  by rewrite !opt_str, opt_list_of_str, opt_int, opt_float, opt_format, opt_dict.
Qed.

Lemma ConditionalLogic_round_trip c :
  Parse.ConditionalLogic (Dump.ConditionalLogic c) = Ok c.
Proof.
  destruct c. unfold Parse.ConditionalLogic, Dump.ConditionalLogic.
  cbn [Parse.dict ConditionalLogic.condition ConditionalLogic.true_steps
       ConditionalLogic.false_steps].
  rewrite bind_Ok. read_fields.
  by rewrite list_of_str, opt_list_of_str.
Qed.

Lemma opt_LLMConfiguration o :
  Parse.opt Parse.LLMConfiguration (Dump.opt Dump.LLMConfiguration o) = Ok o.
Proof.
  apply opt_some. intros c _. split; [done | apply LLMConfiguration_round_trip].
Qed.

Lemma opt_ConditionalLogic o :
  Parse.opt Parse.ConditionalLogic (Dump.opt Dump.ConditionalLogic o) = Ok o.
Proof.
  apply opt_some. intros c _. split; [done | apply ConditionalLogic_round_trip].
Qed.

Lemma opt_str_dict o : Parse.opt Parse.str_dict (Dump.opt Dump.str_dict o) = Ok o.
Proof.
  apply opt_some. intros d _. split; [done | apply str_dict_round_trip].
Qed.

Lemma StepDefinition_round_trip s :
  (∀ parameters p, StepDefinition.parameters s = Some parameters →
                   p ∈ parameters → parameter_valid p) →
  Parse.StepDefinition (Dump.StepDefinition s) = Ok s.
Proof.
  destruct s. unfold Parse.StepDefinition, Dump.StepDefinition.
  cbn [Parse.dict StepDefinition.id StepDefinition.name StepDefinition.type
       StepDefinition.description StepDefinition.depends_on
       StepDefinition.parameters StepDefinition.llm_config
       StepDefinition.conditional StepDefinition.custom_handler
       StepDefinition.output_mapping StepDefinition.error_handling
       StepDefinition.timeout StepDefinition.retry_config
       StepDefinition.ui_config].
  intros Hvalid. rewrite bind_Ok. read_fields.
  by rewrite StepType_round_trip, !opt_str, opt_list_of_str, opt_parameters,
    opt_LLMConfiguration, opt_ConditionalLogic, opt_str_dict, !opt_dict, opt_int.
Qed.

Lemma WorkflowMetadata_round_trip m :
  Parse.WorkflowMetadata (Dump.WorkflowMetadata m) = Ok m.
Proof.
  destruct m. unfold Parse.WorkflowMetadata, Dump.WorkflowMetadata.
  cbn [Parse.dict WorkflowMetadata.id WorkflowMetadata.name
       WorkflowMetadata.description WorkflowMetadata.version
       WorkflowMetadata.author WorkflowMetadata.tags WorkflowMetadata.category
       WorkflowMetadata.icon WorkflowMetadata.created_at
       WorkflowMetadata.updated_at].
  rewrite bind_Ok. read_fields.
  by rewrite !opt_str, opt_list_of_str.
Qed.

Lemma WorkflowConfiguration_round_trip c :
  Parse.WorkflowConfiguration (Dump.WorkflowConfiguration c) = Ok c.
Proof.
  destruct c. unfold Parse.WorkflowConfiguration, Dump.WorkflowConfiguration.
  cbn [Parse.dict WorkflowConfiguration.parallel_execution
       WorkflowConfiguration.max_parallel_steps
       WorkflowConfiguration.default_timeout WorkflowConfiguration.auto_advance
       WorkflowConfiguration.save_intermediate_results
       WorkflowConfiguration.enable_rollback WorkflowConfiguration.logging_level].
  rewrite bind_Ok. read_fields.
  by rewrite level_round_trip.
Qed.

Lemma opt_WorkflowConfiguration o :
  Parse.opt Parse.WorkflowConfiguration (Dump.opt Dump.WorkflowConfiguration o)
  = Ok o.
Proof.
  apply opt_some. intros c _. split; [done | apply WorkflowConfiguration_round_trip].
Qed.
End round_trip.

(** C9.  For every workflow graph that satisfies the invariants the
    validators check, reading back its schema dump succeeds and yields the
    graph itself: the same metadata, the same steps in the same order with
    the same parameters, the same configuration and global entries. *)
Theorem schema_dump_round_trip (w : WorkflowSchema.t) :
  workflow_valid w → Parse.WorkflowSchema (Dump.WorkflowSchema w) = Ok w.
Proof.
  destruct w as [metadata steps configuration global_parameters global_variables].
  intros (Hsteps & Hparams & Hglobal). simpl in *.
  unfold Parse.WorkflowSchema, Dump.WorkflowSchema.
  cbn [Parse.dict WorkflowSchema.metadata WorkflowSchema.steps
       WorkflowSchema.configuration WorkflowSchema.global_parameters
       WorkflowSchema.global_variables].
  rewrite bind_Ok.
  read_fields.
  rewrite WorkflowMetadata_round_trip, opt_WorkflowConfiguration, opt_dict,
    (opt_parameters global_parameters) by done.
  rewrite list_of_fmap.
  - cbn [mbind outcome_bind]. unfold WorkflowSchema.init. by rewrite Hsteps.
  - intros step Hstep. apply StepDefinition_round_trip.
    intros parameters p. by apply Hparams.
Qed.

Lemma schema_dump_round_trip_witness :
  let workflow := Sample.workflow Sample.diamond in
  workflow_valid workflow ∧
  Parse.WorkflowSchema (Dump.WorkflowSchema workflow) = Ok workflow.
Proof.
  intros workflow.
  assert (workflow_valid workflow) as Hvalid.
  { split_and!.
    - reflexivity.
    - intros step parameters p Hstep Hparameters. exfalso.
      repeat (apply elem_of_cons in Hstep as [->|Hstep]; [discriminate Hparameters|]).
      by apply elem_of_nil in Hstep.
    - intros parameters p Hparameters. discriminate Hparameters. }
  split; [exact Hvalid|].
  exact (schema_dump_round_trip workflow Hvalid).
Defined.

(** A graph holding a select parameter that was constructed with its
    options left out is not read back: the document supplies
    [options = null], on which the options validator runs. *)
Example schema_dump_select_without_options :
  let p := ParameterDefinition.mk "choice" SELECT None None false Py.PyNone
             None None None None None in
  let workflow :=
    WorkflowSchema.mk Sample.metadata [Sample.step "a" None] None (Some [p]) None in
  ParameterDefinition.init "choice" SELECT None None false Py.PyNone
    Omitted None None None None = Ok p ∧
  WorkflowSchema.init Sample.metadata [Sample.step "a" None] None (Some [p]) None
    = Ok workflow ∧
  Parse.WorkflowSchema (Dump.WorkflowSchema workflow)
    = Raise (Parse.Rejected (OptionsRequired SELECT)).
Proof. split_and!; vm_compute; reflexivity. Qed.

(** * Further properties of the execution order *)

Section execution_order_structure.
Import WorkflowSchema.

(** Every wave the loop emits is the list of ready steps over the waves
    before it. *)
Lemma execution_loop_waves G fuel n eo processed waves :
  execution_loop fuel n G eo processed = Some (Ok waves) →
  processed = list_to_set (concat eo) →
  (∀ i w, eo !! i = Some w →
     w = ready_steps G (list_to_set (concat (take i eo))) ∧ w ≠ []) →
  ∀ i w, waves !! i = Some w →
    w = ready_steps G (list_to_set (concat (take i waves))) ∧ w ≠ [].
Proof.
  revert eo processed. induction fuel as [|fuel IH]; intros eo processed;
    rewrite execution_loop_unfold; case_decide; try done.
  - by intros [= <-].
  - destruct (ready_steps G processed) as [|s ready] eqn:Hready; [done|].
    intros Hrun Hproc Heo. eapply IH; [exact Hrun | |].
    + rewrite concat_app, (concat_cons _ []), concat_nil, app_nil_r.
      by rewrite list_to_set_app_L, <- Hproc.
    + intros i w [Hi|[Hlen Hi]]%lookup_app_Some.
      * rewrite take_app_le by (apply lookup_lt_Some in Hi; lia). by apply Heo.
      * apply list_lookup_singleton_Some in Hi as [Hi <-].
        replace i with (length eo) by lia.
        rewrite take_app_length, <- Hproc. by rewrite Hready.
  - by intros [= <-].
Qed.

Lemma step_graph_keys_full steps :
  length (Dict.keys (step_graph_of steps)) = length steps →
  NoDup (StepDefinition.id <$> steps).
Proof.
  unfold step_graph_of.
  assert (∀ g, length (Dict.keys (step_graph_from g steps))
               = length (Dict.keys g) + length steps →
               NoDup (Dict.keys g) →
               NoDup (Dict.keys g ++ (StepDefinition.id <$> steps))) as Hgen.
  { induction steps as [|step steps IH]; intros g Hlen Hg.
    - by rewrite app_nil_r.
    - rewrite step_graph_from_cons in Hlen.
      pose proof (step_graph_from_keys_length
                    (Dict.set g (StepDefinition.id step) (deps_of step)) steps) as Hle.
      destruct (decide (StepDefinition.id step ∈ Dict.keys g)) as [Hin|Hnew].
      + rewrite dict_keys_set_in in Hle by done. simpl in Hlen. lia.
      + rewrite fmap_cons.
        replace (Dict.keys g ++ StepDefinition.id step :: (StepDefinition.id <$> steps))
          with ((Dict.keys g ++ [StepDefinition.id step]) ++ (StepDefinition.id <$> steps))
          by (by rewrite <- app_assoc).
        rewrite <- (dict_keys_set_notin g _ (deps_of step)) by done.
        apply IH; [|by apply dict_keys_set_NoDup].
        rewrite Hlen, dict_keys_set_notin, length_app by done. simpl. lia. }
  intros Hlen. apply (Hgen []); [done | apply NoDup_nil_2].
Qed.

(** What a returned execution order tells about the graph and about the
    final state of the loop. *)
Lemma get_execution_order_Ok_inv (self : t) waves :
  get_execution_order self = Some (Ok waves) →
  let G := step_graph_of (steps self) in
  NoDup (StepDefinition.id <$> steps self) ∧
  Dict.keys G = StepDefinition.id <$> steps self ∧
  layered G waves (list_to_set (concat waves)) ∧
  concat waves ≡ₚ StepDefinition.id <$> steps self ∧
  ∀ i w, waves !! i = Some w →
    w = ready_steps G (list_to_set (concat (take i waves))) ∧ w ≠ [].
Proof.
  intros Hrun G. unfold get_execution_order in Hrun. fold G in Hrun.
  pose proof (step_graph_keys_NoDup (steps self)) as HG. fold G in HG.
  destruct (execution_loop_spec G HG (length (steps self)) (length (steps self)) [] ∅)
    as (eo & processed & HL & [[Hrun' Hsize]|[Hrun' _]]);
    [apply layered_nil | lia | | congruence].
  rewrite Hrun in Hrun'. injection Hrun' as <-.
  pose proof (layered_size G HG _ _ HL) as Hle.
  pose proof (step_graph_keys_length (steps self)) as Hlen. fold G in Hlen.
  assert (NoDup (StepDefinition.id <$> steps self)) as Hnd
    by (apply step_graph_keys_full; fold G; lia).
  pose proof (step_graph_keys_unique _ Hnd) as Hkeys. fold G in Hkeys.
  split_and!; [done | done | | |].
  - by rewrite <- (layered_set _ _ _ HL).
  - rewrite <- Hkeys. eapply layered_complete; [done | exact HL | lia].
  - eapply execution_loop_waves; [exact Hrun | done | by intros i w ?].
Qed.

(** A graph with pairwise distinct ids, existing dependencies and no cycle
    is layered completely. *)
Lemma get_execution_order_Ok_intro (self : t) :
  NoDup (StepDefinition.id <$> steps self) →
  (∀ step dep, step ∈ steps self → dep ∈ deps_of step →
               dep ∈ StepDefinition.id <$> steps self) →
  acyclic (step_graph_of (steps self)) →
  ∃ waves, get_execution_order self = Some (Ok waves).
Proof.
  intros Hnd Hclosed Hacyclic. unfold get_execution_order.
  set (G := step_graph_of (steps self)) in *.
  pose proof (step_graph_keys_NoDup (steps self)) as HG. fold G in HG.
  pose proof (step_graph_keys_unique _ Hnd) as Hkeys. fold G in Hkeys.
  destruct (execution_loop_spec G HG (length (steps self)) (length (steps self)) [] ∅)
    as (waves & processed & HL & [[Hrun _]|[_ [Hsize Hstall]]]);
    [apply layered_nil | lia | by exists waves |].
  exfalso.
  assert (size processed < size (list_to_set (Dict.keys G) : gset string)) as Hlt.
  { rewrite size_list_to_set, Hkeys, length_fmap by done. lia. }
  assert (∃ x, x ∈ (list_to_set (Dict.keys G) ∖ processed : gset string)) as [x Hx].
  { apply set_choose_L. intros Hempty.
    assert ((list_to_set (Dict.keys G) : gset string) ⊆ processed) as Hsub
      by set_solver.
    apply subseteq_size in Hsub. lia. }
  apply (stalled_remaining G HG waves processed x HL Hstall) in Hx
    as [Hx (y & Hxy & Hy)].
  assert (y ∈ Dict.keys G) as Hyk.
  { clear Hy. induction Hxy as [|a b c Hab _ IH]; [done|].
    apply IH. apply depends_step in Hab as (step & Hs & _ & Hd).
    apply step_graph_keys_elem_of. by eapply Hclosed. }
  destruct Hy as [Hcyc|Hnk]; [by eapply Hacyclic | done].
Qed.
End execution_order_structure.

(** X1.  [get_execution_order] returns an order (rather than raising)
    exactly for the graphs whose step ids are pairwise distinct, whose
    dependencies all name steps of the graph, and whose dependency relation
    has no cycle. *)
Theorem get_execution_order_returns_iff (self : WorkflowSchema.t) :
  (∃ waves, WorkflowSchema.get_execution_order self = Some (Ok waves)) ↔
  NoDup (StepDefinition.id <$> WorkflowSchema.steps self) ∧
  (∀ step dep, step ∈ WorkflowSchema.steps self →
               dep ∈ WorkflowSchema.deps_of step →
               dep ∈ StepDefinition.id <$> WorkflowSchema.steps self) ∧
  acyclic (WorkflowSchema.step_graph_of (WorkflowSchema.steps self)).
Proof.
  split.
  - intros [waves Hrun].
    destruct (get_execution_order_Ok_inv self waves Hrun)
      as (Hnd & Hkeys & HL & Hperm & _).
    set (G := WorkflowSchema.step_graph_of (WorkflowSchema.steps self)) in *.
    assert (∀ x, x ∈ Dict.keys G → ¬ blocked G x) as Hfree.
    { intros x Hx. eapply layered_free; [exact HL|].
      by rewrite Hperm, <- Hkeys. }
    split_and!; [done | |].
    + intros step dep Hstep Hdep.
      destruct (decide (dep ∈ Dict.keys G)) as [Hin|Hout]; [by rewrite <- Hkeys|].
      exfalso. apply (Hfree (StepDefinition.id step)).
      * rewrite Hkeys. apply list_elem_of_fmap. by exists step.
      * exists dep. split; [|by right]. apply rtc_once. by apply step_depends.
    + intros x Hx. apply (Hfree x).
      * inversion Hx as [?? Hd|??? Hd _]; subst; by eapply depends_key.
      * exists x. by split; [|left].
  - intros (Hnd & Hclosed & Hacyclic). by apply get_execution_order_Ok_intro.
Qed.

(** Membership in a wave of a returned execution order. *)
Lemma wave_membership (self : WorkflowSchema.t) waves i w step :
  WorkflowSchema.get_execution_order self = Some (Ok waves) →
  waves !! i = Some w →
  step ∈ WorkflowSchema.steps self →
  StepDefinition.id step ∈ w ↔
  (StepDefinition.id step ∉ concat (take i waves)) ∧
  ∀ dep, dep ∈ WorkflowSchema.deps_of step → dep ∈ concat (take i waves).
Proof.
  intros Hrun Hi Hstep.
  destruct (get_execution_order_Ok_inv self waves Hrun)
    as (Hnd & Hkeys & HL & Hperm & Hwaves).
  set (G := WorkflowSchema.step_graph_of (WorkflowSchema.steps self)) in *.
  pose proof (step_graph_keys_NoDup (WorkflowSchema.steps self)) as HG. fold G in HG.
  destruct (Hwaves i w Hi) as [Hw Hne].
  rewrite Hw, (ready_steps_spec G HG).
  rewrite !elem_of_list_to_set. split.
  - intros (_ & Hnew & Hdeps). split; [done|].
    intros dep Hdep. specialize (Hdeps dep).
    rewrite elem_of_list_to_set in Hdeps. apply Hdeps. by apply step_depends.
  - intros [Hnew Hdeps]. split_and!; [|done|].
    + rewrite Hkeys. apply list_elem_of_fmap. by exists step.
    + intros d (deps & Hget & Hd). rewrite elem_of_list_to_set.
      apply Hdeps. unfold G, WorkflowSchema.step_graph_of in Hget.
      rewrite (step_graph_from_get_unique [] _ step Hnd Hstep) in Hget.
      by injection Hget as <-.
Qed.

(** X2.  In a returned execution order every wave is non-empty, lists its
    steps in the order of the graph's step list, and consists exactly of
    the steps that are in no earlier wave and have all their dependencies
    in earlier waves. *)
Theorem get_execution_order_wave (self : WorkflowSchema.t) waves i w :
  WorkflowSchema.get_execution_order self = Some (Ok waves) →
  waves !! i = Some w →
  w ≠ [] ∧
  w `sublist_of` (StepDefinition.id <$> WorkflowSchema.steps self) ∧
  ∀ step, step ∈ WorkflowSchema.steps self →
    StepDefinition.id step ∈ w ↔
    (StepDefinition.id step ∉ concat (take i waves)) ∧
    ∀ dep, dep ∈ WorkflowSchema.deps_of step → dep ∈ concat (take i waves).
Proof.
  intros Hrun Hi.
  destruct (get_execution_order_Ok_inv self waves Hrun)
    as (_ & Hkeys & _ & _ & Hwaves).
  destruct (Hwaves i w Hi) as [Hw Hne].
  split_and!; [done | |].
  - rewrite Hw, <- Hkeys. unfold WorkflowSchema.ready_steps.
    apply fmap_sublist, sublist_filter.
  - intros step Hstep. by apply (wave_membership self).
Qed.

Lemma get_execution_order_wave_witness :
  let self := Sample.workflow Sample.diamond in
  let waves := [["a"]; ["b"; "c"]; ["d"]] in
  WorkflowSchema.get_execution_order self = Some (Ok waves) ∧
  waves !! 1 = Some ["b"; "c"] ∧
  ["b"; "c"] ≠ [] ∧
  ["b"; "c"] `sublist_of` (StepDefinition.id <$> WorkflowSchema.steps self) ∧
  ∀ step, step ∈ WorkflowSchema.steps self →
    StepDefinition.id step ∈ ["b"; "c"] ↔
    (StepDefinition.id step ∉ concat (take 1 waves)) ∧
    ∀ dep, dep ∈ WorkflowSchema.deps_of step → dep ∈ concat (take 1 waves).
Proof.
  intros self waves.
  assert (WorkflowSchema.get_execution_order self = Some (Ok waves)) as Hrun
    by (vm_compute; reflexivity).
  assert (waves !! 1 = Some ["b"; "c"]) as Hi by reflexivity.
  split; [exact Hrun|]. split; [exact Hi|].
  exact (get_execution_order_wave self waves 1 ["b"; "c"] Hrun Hi).
Defined.

(** X3.  Steps are placed as early as possible: a step in any wave after
    the first has a dependency in the wave immediately before. *)
Theorem get_execution_order_earliest (self : WorkflowSchema.t) waves i w step :
  WorkflowSchema.get_execution_order self = Some (Ok waves) →
  waves !! S i = Some w →
  step ∈ WorkflowSchema.steps self →
  StepDefinition.id step ∈ w →
  ∃ dep w', dep ∈ WorkflowSchema.deps_of step ∧ waves !! i = Some w' ∧ dep ∈ w'.
Proof.
  intros Hrun HSi Hstep Hin.
  destruct (lookup_lt_is_Some_2 waves i) as [w' Hi].
  { apply lookup_lt_Some in HSi. lia. }
  pose proof (wave_membership self waves i w' step Hrun Hi Hstep) as Hw.
  apply (wave_membership self waves (S i) w step Hrun HSi Hstep) in Hin
    as [Hnew Hdeps].
  rewrite (take_S_r _ _ _ Hi), concat_app, (concat_cons _ []), concat_nil,
    app_nil_r in Hnew, Hdeps.
  assert (StepDefinition.id step ∉ w') as Hnotw
    by (intros ?; apply Hnew, elem_of_app; by right).
  destruct (decide (Forall (λ dep, dep ∈ concat (take i waves))
                      (WorkflowSchema.deps_of step))) as [Hall|Hex].
  - exfalso. apply Hnotw, Hw. split.
    + intros ?. apply Hnew, elem_of_app. by left.
    + intros dep Hdep. by eapply Forall_forall in Hall.
  - apply not_Forall_Exists in Hex; [|apply _].
    apply Exists_exists in Hex as (dep & Hdep & Hnotearlier).
    exists dep, w'. split_and!; [done | done |].
    by apply Hdeps, elem_of_app in Hdep as [?|?].
Qed.

Lemma get_execution_order_earliest_witness :
  let self := Sample.workflow Sample.diamond in
  let waves := [["a"]; ["b"; "c"]; ["d"]] in
  let step := Sample.step "d" (Some ["b"; "c"]) in
  WorkflowSchema.get_execution_order self = Some (Ok waves) ∧
  waves !! 2 = Some ["d"] ∧
  step ∈ WorkflowSchema.steps self ∧
  StepDefinition.id step ∈ ["d"] ∧
  ∃ dep w', dep ∈ WorkflowSchema.deps_of step ∧ waves !! 1 = Some w' ∧ dep ∈ w'.
Proof.
  intros self waves step.
  assert (WorkflowSchema.get_execution_order self = Some (Ok waves)) as Hrun
    by (vm_compute; reflexivity).
  assert (waves !! 2 = Some ["d"]) as Hi by reflexivity.
  assert (step ∈ WorkflowSchema.steps self) as Hstep
    by (do 3 apply list_elem_of_further; apply list_elem_of_here).
  assert (StepDefinition.id step ∈ ["d"]) as Hin by apply list_elem_of_here.
  split_and!; [exact Hrun | exact Hi | exact Hstep | exact Hin |].
  exact (get_execution_order_earliest self waves 1 ["d"] step Hrun Hi Hstep Hin).
Defined.

(** X4.  When step ids repeat but every dependency names a step and there
    is no cycle, [get_execution_order] raises the circular-dependency
    error with an empty set of step ids: everything was placed, yet the
    loop bound counts the repeated steps. *)
Theorem get_execution_order_repeated_ids (self : WorkflowSchema.t) :
  ¬ NoDup (StepDefinition.id <$> WorkflowSchema.steps self) →
  (∀ step dep, step ∈ WorkflowSchema.steps self →
               dep ∈ WorkflowSchema.deps_of step →
               dep ∈ StepDefinition.id <$> WorkflowSchema.steps self) →
  acyclic (WorkflowSchema.step_graph_of (WorkflowSchema.steps self)) →
  WorkflowSchema.get_execution_order self = Some (Raise (CircularDependency ∅)).
Proof.
  intros Hdup Hclosed Hacyclic.
  set (G := WorkflowSchema.step_graph_of (WorkflowSchema.steps self)) in *.
  pose proof (step_graph_keys_NoDup (WorkflowSchema.steps self)) as HG. fold G in HG.
  destruct (get_execution_order_total self) as [r Hr].
  destruct r as [waves|e].
  { destruct (get_execution_order_Ok_inv self waves Hr) as (Hnd & _). done. }
  unfold WorkflowSchema.get_execution_order in Hr |- *. fold G in Hr |- *.
  destruct (execution_loop_spec G HG (length (WorkflowSchema.steps self))
              (length (WorkflowSchema.steps self)) [] ∅)
    as (eo & processed & HL & [[Hrun _]|[Hrun [_ Hstall]]]);
    [apply layered_nil | lia | congruence |].
  rewrite Hrun. do 3 f_equal. apply set_eq. intros x.
  rewrite (stalled_remaining G HG eo processed x HL Hstall).
  split; [|by intros ?%not_elem_of_empty].
  intros [Hx (y & Hxy & Hy)]. exfalso.
  assert (y ∈ Dict.keys G) as Hyk.
  { clear Hy. induction Hxy as [|a b c Hab _ IH]; [done|].
    apply IH. apply depends_step in Hab as (step & Hs & _ & Hd).
    apply step_graph_keys_elem_of. by eapply Hclosed. }
  destruct Hy as [Hcyc|Hnk]; [by eapply Hacyclic | done].
Qed.

Lemma get_execution_order_repeated_ids_witness :
  let self := Sample.workflow Sample.twins in
  ¬ NoDup (StepDefinition.id <$> WorkflowSchema.steps self) ∧
  (∀ step dep, step ∈ WorkflowSchema.steps self →
               dep ∈ WorkflowSchema.deps_of step →
               dep ∈ StepDefinition.id <$> WorkflowSchema.steps self) ∧
  acyclic (WorkflowSchema.step_graph_of (WorkflowSchema.steps self)) ∧
  WorkflowSchema.get_execution_order self = Some (Raise (CircularDependency ∅)).
Proof.
  intros self.
  assert (¬ NoDup (StepDefinition.id <$> WorkflowSchema.steps self)) as H1
    by refute_by_compute.
  assert (∀ step dep, step ∈ WorkflowSchema.steps self →
                      dep ∈ WorkflowSchema.deps_of step →
                      dep ∈ StepDefinition.id <$> WorkflowSchema.steps self) as H2.
  { intros step dep Hstep Hdep. exfalso.
    apply elem_of_cons in Hstep as [->|Hstep]; [by apply elem_of_nil in Hdep|].
    apply list_elem_of_singleton in Hstep as ->. by apply elem_of_nil in Hdep. }
  assert (acyclic (WorkflowSchema.step_graph_of (WorkflowSchema.steps self))) as H3
    by (apply (ranked_acyclic (λ _, 0)); vm_compute; reflexivity).
  split_and!; [exact H1 | exact H2 | exact H3 |].
  exact (get_execution_order_repeated_ids self H1 H2 H3).
Defined.

(** * Further properties of step lookup *)

(** X5.  [get_step_by_id] returns the first step of the list that carries
    the id, and [None] exactly when no step carries it. *)
Theorem get_step_by_id_first (self : WorkflowSchema.t) (step_id : string) :
  match WorkflowSchema.get_step_by_id self step_id with
  | Some step =>
      ∃ earlier later,
        WorkflowSchema.steps self = earlier ++ step :: later ∧
        StepDefinition.id step = step_id ∧
        step_id ∉ StepDefinition.id <$> earlier
  | None => step_id ∉ StepDefinition.id <$> WorkflowSchema.steps self
  end.
Proof.
  unfold WorkflowSchema.get_step_by_id.
  induction (WorkflowSchema.steps self) as [|step steps IH].
  - simpl. apply not_elem_of_nil.
  - rewrite filter_cons. case_decide as Hid.
    + simpl. exists [], steps. split_and!; [done | done | apply not_elem_of_nil].
    + destruct (head (filter _ steps)) as [found|].
      * destruct IH as (earlier & later & -> & Hfound & Hearlier).
        exists (step :: earlier), later. split_and!; [done | done |].
        rewrite fmap_cons. by apply not_elem_of_cons.
      * rewrite fmap_cons. by apply not_elem_of_cons.
Qed.

(** X6.  In a graph with pairwise distinct step ids every step is found
    again by its own id. *)
Theorem get_step_by_id_own (self : WorkflowSchema.t) (step : StepDefinition.t) :
  NoDup (StepDefinition.id <$> WorkflowSchema.steps self) →
  step ∈ WorkflowSchema.steps self →
  WorkflowSchema.get_step_by_id self (StepDefinition.id step) = Some step.
Proof.
  unfold WorkflowSchema.get_step_by_id.
  induction (WorkflowSchema.steps self) as [|s steps IH]; intros Hnd Hin.
  - by apply elem_of_nil in Hin.
  - rewrite fmap_cons in Hnd. apply NoDup_cons in Hnd as [Hs Hnd].
    rewrite filter_cons. apply elem_of_cons in Hin as [->|Hin].
    + by rewrite decide_True.
    + rewrite decide_False; [by apply IH|].
      intros Heq. apply Hs. rewrite Heq. apply list_elem_of_fmap. by exists step.
Qed.

Lemma get_step_by_id_own_witness :
  let self := Sample.workflow Sample.diamond in
  let step := Sample.step "c" (Some ["a"]) in
  NoDup (StepDefinition.id <$> WorkflowSchema.steps self) ∧
  step ∈ WorkflowSchema.steps self ∧
  WorkflowSchema.get_step_by_id self (StepDefinition.id step) = Some step.
Proof.
  intros self step.
  assert (NoDup (StepDefinition.id <$> WorkflowSchema.steps self)) as Hnd
    by decide_by_compute.
  assert (step ∈ WorkflowSchema.steps self) as Hin
    by (do 2 apply list_elem_of_further; apply list_elem_of_here).
  split_and!; [exact Hnd | exact Hin |].
  exact (get_step_by_id_own self step Hnd Hin).
Defined.

(** * Further properties of the classifier *)


Lemma lower_char_idemp c : Py.lower_char (Py.lower_char c) = Py.lower_char c.
Proof. destruct c as [[] [] [] [] [] [] [] []]; reflexivity. Qed.

Lemma lower_idemp s : Py.lower (Py.lower s) = Py.lower s.
Proof. induction s as [|c s IH]; simpl; [done|]. by rewrite lower_char_idemp, IH. Qed.

Lemma append_assoc a b c : (a +:+ b) +:+ c = a +:+ (b +:+ c).
Proof. induction a as [|x a IH]; [done|]. by rewrite !append_cons, IH. Qed.

Lemma append_nil_r a : a +:+ "" = a.
Proof. induction a as [|x a IH]; [done|]. by rewrite append_cons, IH. Qed.

Lemma occurs_append k s a b : occurs k s → occurs k (a +:+ s +:+ b).
Proof.
  intros (before & after & ->). exists (a +:+ before), (after +:+ b).
  by rewrite !append_assoc.
Qed.

Lemma occurs_append_l k s a : occurs k s → occurs k (a +:+ s).
Proof.
  intros Hocc. rewrite <- (append_nil_r s). by apply occurs_append.
Qed.

Lemma lower_append a b : Py.lower (a +:+ b) = Py.lower a +:+ Py.lower b.
Proof. induction a as [|c a IH]; [done|]. rewrite append_cons. simpl. by rewrite IH. Qed.




(** X7.  Whatever the description, the parameters the classifier returns
    have pairwise distinct names and each passes the options validator (a
    select parameter always comes with its options). *)
Theorem infer_parameters_well_formed task_desc :
  ∃ step_type parameters llm_config custom_handler,
    WorkflowManager._infer_step_configuration task_desc
      = Ok (step_type, parameters, llm_config, custom_handler) ∧
    NoDup (ParameterDefinition.name <$> parameters) ∧
    ∀ p, p ∈ parameters → parameter_valid p.
Proof.
  unfold WorkflowManager._infer_step_configuration.
  repeat (case_match; simpl);
    (eexists _, _, _, _; split; [reflexivity|]);
    (split; [by apply (bool_decide_unpack _); vm_compute |]);
    intros p Hp;
    repeat (apply elem_of_cons in Hp as [->|Hp]; [reflexivity|]);
    by apply elem_of_nil in Hp.
Qed.

(** X8.  The classifier attaches a prompt configuration exactly to
    inference-processing steps and a handler name exactly to
    code-execution and external-request steps; the prompt template
    contains the description as given and the placeholder of its one
    template variable. *)
Theorem infer_configuration_by_category task_desc :
  ∃ step_type parameters llm_config custom_handler,
    WorkflowManager._infer_step_configuration task_desc
      = Ok (step_type, parameters, llm_config, custom_handler) ∧
    (is_Some llm_config ↔ step_type = LLM_PROCESSING) ∧
    (is_Some custom_handler ↔
     step_type = CODE_EXECUTION ∨ step_type = HTTP_REQUEST) ∧
    ∀ config, llm_config = Some config →
      occurs task_desc (LLMConfiguration.user_prompt_template config) ∧
      occurs "{input_data}" (LLMConfiguration.user_prompt_template config) ∧
      LLMConfiguration.template_variables config = Some ["input_data"].
Proof.
  unfold WorkflowManager._infer_step_configuration.
  destruct (WorkflowManager.any_keyword WorkflowManager.llm_keywords _).
  { eexists _, _, _, _. split; [reflexivity|]. split_and!.
    - split; [done | by eexists].
    - split; [by intros [? ?] | by intros [?|?]].
    - intros config [= <-]. simpl. split_and!; [| |done].
      + eexists "Execute the following task: ", _. reflexivity.
      + do 4 apply occurs_append_l. by exists "Input data: ", "". }
  repeat (case_match; simpl);
    (eexists _, _, _, _; split; [reflexivity|]);
    (split; [split; [by intros [? ?] | by intros [=]]|]);
    (split; [|by intros ? [=]]);
    (split;
     [ first [ by intros [? ?] | intros _; first [by left | by right] ]
     | first [ by intros [[=]|[=]] | intros _; by eexists ] ]).
Qed.


(** X10.  Classification ignores letter case: two descriptions that agree
    after lower-casing get the same category, the same parameters and the
    same handler name. *)
Theorem infer_case_insensitive task_desc task_desc' :
  Py.lower task_desc = Py.lower task_desc' →
  ∃ step_type parameters llm_config llm_config' custom_handler,
    WorkflowManager._infer_step_configuration task_desc
      = Ok (step_type, parameters, llm_config, custom_handler) ∧
    WorkflowManager._infer_step_configuration task_desc'
      = Ok (step_type, parameters, llm_config', custom_handler).
Proof.
  intros Heq. unfold WorkflowManager._infer_step_configuration. rewrite Heq.
  repeat (case_match; simpl); by eexists _, _, _, _, _.
Qed.

Lemma infer_case_insensitive_witness :
  Py.lower "AI Analysis" = Py.lower "ai analysis" ∧
  ∃ step_type parameters llm_config llm_config' custom_handler,
    WorkflowManager._infer_step_configuration "AI Analysis"
      = Ok (step_type, parameters, llm_config, custom_handler) ∧
    WorkflowManager._infer_step_configuration "ai analysis"
      = Ok (step_type, parameters, llm_config', custom_handler).
Proof.
  assert (Py.lower "AI Analysis" = Py.lower "ai analysis") as Heq by reflexivity.
  split; [exact Heq|].
  exact (infer_case_insensitive "AI Analysis" "ai analysis" Heq).
Defined.

Lemma infer_llm_iff task_desc :
  (∃ parameters llm_config custom_handler,
     WorkflowManager._infer_step_configuration task_desc
       = Ok (LLM_PROCESSING, parameters, llm_config, custom_handler)) ↔
  matches WorkflowManager.llm_keywords (Py.lower task_desc).
Proof.
  rewrite <- any_keyword_matches.
  unfold WorkflowManager._infer_step_configuration.
  destruct (WorkflowManager.any_keyword WorkflowManager.llm_keywords _).
  - split; [done|]. intros _. by eexists _, _, _.
  - split; [|done]. intros (ps & cfg & h & Hrun). exfalso.
    revert Hrun. repeat (case_match; simpl); done.
Qed.

(** X11.  The inference-processing category takes precedence whatever
    surrounds the cue: a description classified as inference-processing
    stays so when text is put before and after it. *)
Theorem infer_llm_extends task_desc before after :
  (∃ parameters llm_config custom_handler,
     WorkflowManager._infer_step_configuration task_desc
       = Ok (LLM_PROCESSING, parameters, llm_config, custom_handler)) →
  ∃ parameters llm_config custom_handler,
    WorkflowManager._infer_step_configuration (before +:+ task_desc +:+ after)
      = Ok (LLM_PROCESSING, parameters, llm_config, custom_handler).
Proof.
  rewrite !infer_llm_iff. intros (keyword & Hk & Hocc).
  exists keyword. split; [done|]. rewrite !lower_append. by apply occurs_append.
Qed.

Lemma infer_llm_extends_witness :
  (∃ parameters llm_config custom_handler,
     WorkflowManager._infer_step_configuration "ai"
       = Ok (LLM_PROCESSING, parameters, llm_config, custom_handler)) ∧
  ∃ parameters llm_config custom_handler,
    WorkflowManager._infer_step_configuration ("send em" +:+ "ai" +:+ "l notification")
      = Ok (LLM_PROCESSING, parameters, llm_config, custom_handler).
Proof.
  assert (∃ parameters llm_config custom_handler,
            WorkflowManager._infer_step_configuration "ai"
              = Ok (LLM_PROCESSING, parameters, llm_config, custom_handler)) as H
    by (eexists _, _, _; vm_compute; reflexivity).
  split; [exact H|].
  exact (infer_llm_extends "ai" "send em" "l notification" H).
Defined.

(** * Further properties of the manager *)

Section manager_facts.
Import WorkflowManager.

Lemma infer_parameters_valid task_desc step_type parameters llm_config custom_handler p :
  _infer_step_configuration task_desc
    = Ok (step_type, parameters, llm_config, custom_handler) →
  p ∈ parameters → parameter_valid p.
Proof.
  unfold _infer_step_configuration.
  repeat (case_match; simpl); intros [= <- <- <- <-] Hp;
    repeat (apply elem_of_cons in Hp as [->|Hp]; [reflexivity|]);
    by apply elem_of_nil in Hp.
Qed.

Lemma make_step_parameters item step parameters p :
  make_step item = Ok step →
  StepDefinition.parameters step = Some parameters →
  p ∈ parameters → parameter_valid p.
Proof.
  destruct item as [k d]. unfold make_step.
  destruct (_infer_step_configuration d) as [[[[t ps] cfg] h]|e] eqn:Hinfer;
    simpl; [|done].
  intros [= <-] [= <-] Hp. by eapply infer_parameters_valid.
Qed.

Lemma make_steps_parameters items steps step parameters p :
  make_steps items = Ok steps → step ∈ steps →
  StepDefinition.parameters step = Some parameters →
  p ∈ parameters → parameter_valid p.
Proof.
  revert steps. induction items as [|item items IH]; intros steps; simpl.
  - intros [= <-] Hin. by apply elem_of_nil in Hin.
  - destruct (make_step item) as [s|e] eqn:Hs; simpl; [|done].
    destruct (make_steps items) as [ss|e]; simpl; [|done].
    intros [= <-] [->|Hin]%elem_of_cons.
    + by eapply make_step_parameters.
    + by eapply IH.
Qed.

(** The task map lists, for every key above 1, the key before it. *)
Lemma numbered_closed (tasks : gmap Z string) steps :
  Forall2 numbered (merge_sort item_le (map_to_list tasks)) steps →
  (∀ step dep, step ∈ steps → dep ∈ WorkflowSchema.deps_of step →
               dep ∈ StepDefinition.id <$> steps) ↔
  (∀ k, is_Some (tasks !! k) → (1 < k)%Z → is_Some (tasks !! (k - 1)%Z)).
Proof.
  intros Hnumbered.
  set (items := merge_sort item_le (map_to_list tasks)) in *.
  assert (∀ i, step_id_of i ∈ StepDefinition.id <$> steps ↔ is_Some (tasks !! i))
    as Hids.
  { intros i. rewrite (numbered_ids items steps _ Hnumbered). split.
    - intros ([i' d'] & Hin & ->%step_id_of_inj).
      apply sorted_items_elem_of in Hin. by exists d'.
    - intros [d' Hi]. exists (i, d'). split; [|done].
      by apply sorted_items_elem_of. }
  split.
  - intros Hclosed k [d Hk] Hk1.
    destruct (numbered_elem_of items steps (k, d) Hnumbered)
      as (step & Hstep & _ & Hdeps); [by apply sorted_items_elem_of|].
    simpl in Hdeps. rewrite decide_True in Hdeps by done.
    apply Hids, (Hclosed step); [done|]. rewrite Hdeps. apply list_elem_of_here.
  - intros Hpred step dep Hstep Hdep.
    assert (∃ item, item ∈ items ∧ numbered item step) as ([k d] & Hitem & _ & Hdeps).
    { clear -Hnumbered Hstep. induction Hnumbered as [|i s rest_items rest_steps Hn _ IH].
      - by apply elem_of_nil in Hstep.
      - apply elem_of_cons in Hstep as [->|Hstep].
        + exists i. split; [left | done].
        + destruct (IH Hstep) as (item & ? & ?). exists item. split; [by right | done]. }
    simpl in Hdeps. rewrite Hdeps in Hdep. case_decide as Hk.
    + apply list_elem_of_singleton in Hdep as ->. apply Hids, Hpred; [|done].
      apply sorted_items_elem_of in Hitem. by exists d.
    + by apply elem_of_nil in Hdep.
Qed.
End manager_facts.

(** X12.  [create_workflow_from_tasks] succeeds exactly for the task maps
    in which every key above 1 has the key before it: keys at or below 1
    are free, and the descriptions never matter. *)
Theorem create_workflow_from_tasks_succeeds_iff (self : WorkflowManager.t)
    (tasks : gmap Z string) workflow_name workflow_id description category :
  (∃ created,
     (WorkflowManager.create_workflow_from_tasks self tasks workflow_name
        workflow_id description category).1 = Ok created) ↔
  (∀ k, is_Some (tasks !! k) → (1 < k)%Z → is_Some (tasks !! (k - 1)%Z)).
Proof.
  unfold WorkflowManager.create_workflow_from_tasks.
  destruct (make_steps_Ok (merge_sort WorkflowManager.item_le (map_to_list tasks)))
    as (steps & -> & Hnumbered). simpl.
  rewrite <- (numbered_closed tasks steps Hnumbered),
    <- validate_step_dependencies_Ok.
  unfold WorkflowSchema.init.
  destruct (WorkflowSchema.validate_step_dependencies steps) as [v|e] eqn:Hv; simpl.
  - apply validate_step_dependencies_inv in Hv as ->. split; [done | by eexists].
  - split; [by intros [? ?] | done].
Qed.

(** X13.  When every key above 1 has the key before it, the call returns
    the workflow id and stores under it, replacing what was there, a graph
    that carries this id in its metadata, has one step per task in the
    order of the keys (numbered and chained as [numbered] says), and
    satisfies the invariants of the validators. *)
Theorem create_workflow_from_tasks_registers (self : WorkflowManager.t)
    (tasks : gmap Z string) workflow_name workflow_id description category :
  (∀ k, is_Some (tasks !! k) → (1 < k)%Z → is_Some (tasks !! (k - 1)%Z)) →
  let created := WorkflowManager.resolve_id workflow_name workflow_id in
  ∃ workflow items,
    WorkflowManager.create_workflow_from_tasks self tasks workflow_name
      workflow_id description category
    = (Ok created,
       WorkflowManager.mk
         (<[created := workflow]> (WorkflowManager.workflows_registry self))) ∧
    WorkflowMetadata.id (WorkflowSchema.metadata workflow) = created ∧
    WorkflowMetadata.name (WorkflowSchema.metadata workflow)
      = WorkflowManager.resolve_name workflow_name created ∧
    items ≡ₚ map_to_list tasks ∧
    Sorted WorkflowManager.item_le items ∧
    Forall2 numbered items (WorkflowSchema.steps workflow) ∧
    length (WorkflowSchema.steps workflow) = size tasks ∧
    workflow_valid workflow.
Proof.
  intros Hpred created.
  unfold WorkflowManager.create_workflow_from_tasks. fold created.
  set (items := merge_sort WorkflowManager.item_le (map_to_list tasks)).
  destruct (make_steps_Ok items) as (steps & Hsteps & Hnumbered).
  rewrite Hsteps. simpl.
  assert (WorkflowSchema.validate_step_dependencies steps = Ok steps) as Hvalid.
  { apply validate_step_dependencies_Ok. by apply (numbered_closed tasks). }
  unfold WorkflowSchema.init. rewrite Hvalid. simpl.
  eexists _, items. split; [reflexivity|]. simpl.
  split_and!; [done | done | apply merge_sort_Permutation
              | apply Sorted_merge_sort, _ | done | | ].
  - rewrite <- (Forall2_length _ _ _ Hnumbered).
    unfold items. rewrite merge_sort_Permutation. apply length_map_to_list.
  - split_and!; [done | | done].
    intros step parameters p Hstep. by eapply make_steps_parameters.
Qed.

Lemma create_workflow_from_tasks_registers_witness :
  let tasks : gmap Z string := {[ 0%Z := "fetch page"; 1%Z := "report" ]} in
  let self := WorkflowManager.mk ∅ in
  (∀ k, is_Some (tasks !! k) → (1 < k)%Z → is_Some (tasks !! (k - 1)%Z)) ∧
  ∃ workflow items,
    WorkflowManager.create_workflow_from_tasks self tasks (Some "Page Report")
      None None "auto_generated"
    = (Ok "page_report",
       WorkflowManager.mk
         (<["page_report" := workflow]> (WorkflowManager.workflows_registry self))) ∧
    WorkflowMetadata.id (WorkflowSchema.metadata workflow) = "page_report" ∧
    WorkflowMetadata.name (WorkflowSchema.metadata workflow)
      = WorkflowManager.resolve_name (Some "Page Report") "page_report" ∧
    items ≡ₚ map_to_list tasks ∧
    Sorted WorkflowManager.item_le items ∧
    Forall2 numbered items (WorkflowSchema.steps workflow) ∧
    length (WorkflowSchema.steps workflow) = size tasks ∧
    workflow_valid workflow.
Proof.
  intros tasks self.
  assert (∀ k, is_Some (tasks !! k) → (1 < k)%Z → is_Some (tasks !! (k - 1)%Z))
    as Hpred.
  { intros k [d Hk] Hk1. exfalso.
    destruct (decide (k = 0%Z)) as [->|H0]; [lia|].
    destruct (decide (k = 1%Z)) as [->|H1]; [lia|].
    unfold tasks in Hk. rewrite lookup_insert_ne, lookup_singleton_ne in Hk by done.
    discriminate Hk. }
  split; [exact Hpred|].
  exact (create_workflow_from_tasks_registers self tasks (Some "Page Report")
           None None "auto_generated" Hpred).
Defined.

(** What a successful call stored. *)
Lemma create_workflow_from_tasks_Ok_inv (self self' : WorkflowManager.t)
    (tasks : gmap Z string) workflow_name workflow_id description category created :
  WorkflowManager.create_workflow_from_tasks self tasks workflow_name
    workflow_id description category = (Ok created, self') →
  ∃ workflow,
    self' = WorkflowManager.mk
              (<[created := workflow]> (WorkflowManager.workflows_registry self)) ∧
    created = WorkflowManager.resolve_id workflow_name workflow_id ∧
    WorkflowMetadata.id (WorkflowSchema.metadata workflow) = created ∧
    WorkflowMetadata.name (WorkflowSchema.metadata workflow)
      = WorkflowManager.resolve_name workflow_name created ∧
    WorkflowMetadata.category (WorkflowSchema.metadata workflow) = Some category ∧
    WorkflowMetadata.version (WorkflowSchema.metadata workflow) = "1.0.0" ∧
    length (WorkflowSchema.steps workflow) = size tasks.
Proof.
  unfold WorkflowManager.create_workflow_from_tasks.
  set (items := merge_sort WorkflowManager.item_le (map_to_list tasks)).
  destruct (make_steps_Ok items) as (steps & -> & Hnumbered). simpl.
  destruct (WorkflowSchema.init _ steps _ _ _) as [workflow|e] eqn:Hinit; [|done].
  apply init_inv in Hinit as [-> _].
  intros [= <- <-]. eexists. split_and!; try reflexivity. simpl.
  rewrite <- (Forall2_length _ _ _ Hnumbered).
  unfold items. rewrite merge_sort_Permutation. apply length_map_to_list.
Qed.

(** X14.  The registry stays keyed by metadata id: if every registered
    workflow is stored under the id in its own metadata, the same holds
    after [create_workflow_from_tasks], whether it succeeds or raises. *)
Theorem create_workflow_from_tasks_keyed (self : WorkflowManager.t)
    (tasks : gmap Z string) workflow_name workflow_id description category :
  registry_keyed self →
  registry_keyed
    (WorkflowManager.create_workflow_from_tasks self tasks workflow_name
       workflow_id description category).2.
Proof.
  intros Hkeyed.
  destruct (WorkflowManager.create_workflow_from_tasks self tasks workflow_name
              workflow_id description category) as [[created|e] self'] eqn:Hcreate.
  - apply create_workflow_from_tasks_Ok_inv in Hcreate
      as (workflow & -> & _ & Hid & _).
    intros key w. simpl. rewrite lookup_insert. case_decide as Hkey.
    + intros [= <-]. by rewrite Hid.
    + apply Hkeyed.
  - unfold WorkflowManager.create_workflow_from_tasks in Hcreate.
    destruct (_ ≫= _) in Hcreate; [done|]. by injection Hcreate as _ <-.
Qed.

Lemma create_workflow_from_tasks_keyed_witness :
  let self := WorkflowManager.mk ∅ in
  let tasks : gmap Z string := {[ 1%Z := "data input" ]} in
  registry_keyed self ∧
  registry_keyed
    (WorkflowManager.create_workflow_from_tasks self tasks None None None
       "auto_generated").2.
Proof.
  intros self tasks.
  assert (registry_keyed self) as Hkeyed by (intros key w Hw; discriminate Hw).
  split; [exact Hkeyed|].
  exact (create_workflow_from_tasks_keyed self tasks None None None
           "auto_generated" Hkeyed).
Defined.

(** X15.  After a successful [create_workflow_from_tasks] the workflow is
    found under the returned id by [get_workflow_schema] and listed by
    [list_workflows] with its name, category, version 1.0.0 and one step
    per task; every other id is looked up and listed as before. *)
Theorem create_workflow_from_tasks_lookup (self self' : WorkflowManager.t)
    (tasks : gmap Z string) workflow_name workflow_id description category created :
  WorkflowManager.create_workflow_from_tasks self tasks workflow_name
    workflow_id description category = (Ok created, self') →
  (∃ workflow description',
     WorkflowManager.get_workflow_schema self' created = Ok workflow ∧
     length (WorkflowSchema.steps workflow) = size tasks ∧
     WorkflowManager.list_workflows self' !! created
     = Some {| WorkflowManager.summary_name :=
                 WorkflowManager.resolve_name workflow_name created;
               WorkflowManager.summary_description := description';
               WorkflowManager.summary_category := Some category;
               WorkflowManager.summary_steps := size tasks;
               WorkflowManager.summary_version := "1.0.0" |}) ∧
  ∀ other, other ≠ created →
    WorkflowManager.get_workflow_schema self' other
      = WorkflowManager.get_workflow_schema self other ∧
    WorkflowManager.list_workflows self' !! other
      = WorkflowManager.list_workflows self !! other.
Proof.
  intros (workflow & -> & _ & Hid & Hname & Hcategory & Hversion & Hlen)
    %create_workflow_from_tasks_Ok_inv.
  unfold WorkflowManager.get_workflow_schema, WorkflowManager.list_workflows.
  simpl. split.
  - exists workflow, (WorkflowMetadata.description (WorkflowSchema.metadata workflow)).
    rewrite lookup_fmap, lookup_insert_eq. simpl.
    by rewrite Hname, Hcategory, Hversion, Hlen.
  - intros other Hother. by rewrite !lookup_fmap, lookup_insert_ne.
Qed.

Lemma create_workflow_from_tasks_lookup_witness :
  let self := WorkflowManager.mk ∅ in
  let tasks : gmap Z string := {[ 1%Z := "data input"; 2%Z := "report" ]} in
  ∃ self',
    WorkflowManager.create_workflow_from_tasks self tasks None None None
      "auto_generated" = (Ok "auto_workflow", self') ∧
    (∃ workflow description',
       WorkflowManager.get_workflow_schema self' "auto_workflow" = Ok workflow ∧
       length (WorkflowSchema.steps workflow) = size tasks ∧
       WorkflowManager.list_workflows self' !! "auto_workflow"
       = Some {| WorkflowManager.summary_name :=
                   WorkflowManager.resolve_name None "auto_workflow";
                 WorkflowManager.summary_description := description';
                 WorkflowManager.summary_category := Some "auto_generated";
                 WorkflowManager.summary_steps := size tasks;
                 WorkflowManager.summary_version := "1.0.0" |}) ∧
    ∀ other, other ≠ "auto_workflow" →
      WorkflowManager.get_workflow_schema self' other
        = WorkflowManager.get_workflow_schema self other ∧
      WorkflowManager.list_workflows self' !! other
        = WorkflowManager.list_workflows self !! other.
Proof.
  intros self tasks. eexists.
  assert (WorkflowManager.create_workflow_from_tasks self tasks None None None
            "auto_generated"
          = (Ok "auto_workflow",
             (WorkflowManager.create_workflow_from_tasks self tasks None None None
                "auto_generated").2)) as Hcreate
    by (vm_compute; reflexivity).
  split; [exact Hcreate|].
  exact (create_workflow_from_tasks_lookup self _ tasks None None None
           "auto_generated" "auto_workflow" Hcreate).
Defined.

(** * The execution order of generated workflows *)

Lemma elem_of_concat_take {A} (ws : list (list A)) i x :
  x ∈ concat (take i ws) ↔ ∃ j w, j < i ∧ ws !! j = Some w ∧ x ∈ w.
Proof.
  rewrite elem_of_concat. split.
  - intros (w & (j & Hj)%list_elem_of_lookup & Hx).
    apply lookup_take_Some in Hj as [Hj Hlt]. by exists j, w.
  - intros (j & w & Hlt & Hj & Hx). exists w. split; [|done].
    apply list_elem_of_lookup. exists j. by apply lookup_take_Some.
Qed.

Lemma elem_of_concat_lookup {A} (ws : list (list A)) x :
  x ∈ concat ws ↔ ∃ i w, ws !! i = Some w ∧ x ∈ w.
Proof.
  rewrite elem_of_concat. split.
  - intros (w & (i & Hi)%list_elem_of_lookup & Hx). by exists i, w.
  - intros (i & w & Hi & Hx). exists w. split; [|done].
    apply list_elem_of_lookup. by exists i.
Qed.

Lemma nonempty_waves_length {A} (ws : list (list A)) :
  (∀ w, w ∈ ws → w ≠ []) → length ws ≤ length (concat ws).
Proof.
  induction ws as [|w1 ws IH]; intros Hne; [done|].
  rewrite concat_cons, length_app. simpl.
  assert (w1 ≠ []) as Hw1 by (apply Hne; left).
  destruct w1; [done|]. simpl.
  assert (length ws ≤ length (concat ws)); [|lia].
  apply IH. intros w Hw. apply Hne. by right.
Qed.

(** Waves that are all non-empty and together hold as many steps as there
    are waves hold one step each. *)
Lemma singleton_waves {A} (ws : list (list A)) :
  (∀ w, w ∈ ws → w ≠ []) → length (concat ws) ≤ length ws →
  ∀ w, w ∈ ws → length w = 1.
Proof.
  induction ws as [|w0 ws IH]; intros Hne Hlen w Hw; [by apply elem_of_nil in Hw|].
  rewrite concat_cons, length_app in Hlen. simpl in Hlen.
  assert (length ws ≤ length (concat ws)) as Hge.
  { apply nonempty_waves_length. intros w' Hw'. apply Hne. by right. }
  assert (w0 ≠ []) as Hw0 by (apply Hne; left).
  destruct w0 as [|a w0]; [done|]. simpl in Hlen.
  apply elem_of_cons in Hw as [->|Hw].
  - simpl. destruct w0; [done | simpl in Hlen; lia].
  - apply IH; [|lia|done]. intros w' Hw'. apply Hne. by right.
Qed.

Lemma numbered_step_ids items steps :
  Forall2 numbered items steps →
  StepDefinition.id <$> steps = WorkflowManager.step_id_of <$> items.*1.
Proof.
  induction 1 as [|item step items steps [Hid _] _ IH]; [done|].
  by rewrite !fmap_cons, Hid, IH.
Qed.

Lemma numbered_inv items steps step :
  Forall2 numbered items steps → step ∈ steps →
  ∃ item, item ∈ items ∧ numbered item step.
Proof.
  induction 1 as [|i s items steps Hn _ IH].
  - by intros ?%elem_of_nil.
  - intros [->|Hin]%elem_of_cons.
    + exists i. split; [left | done].
    + destruct (IH Hin) as (item & ? & ?). exists item. split; [by right | done].
Qed.

Section generated_chain.
Import WorkflowManager WorkflowSchema.
Variable tasks : gmap Z string.
Variable steps : list StepDefinition.t.
Hypothesis steps_numbered :
  Forall2 numbered (merge_sort item_le (map_to_list tasks)) steps.

Lemma numbered_NoDup : NoDup (StepDefinition.id <$> steps).
Proof.
  rewrite (numbered_step_ids _ _ steps_numbered). apply (NoDup_fmap_2 _).
  rewrite merge_sort_Permutation. apply NoDup_fst_map_to_list.
Qed.

Lemma numbered_step k :
  is_Some (tasks !! k) →
  ∃ step, step ∈ steps ∧ StepDefinition.id step = step_id_of k ∧
          deps_of step = if decide (1 < k)%Z then [step_id_of (k - 1)] else [].
Proof.
  intros [d Hk].
  destruct (numbered_elem_of _ _ (k, d) steps_numbered) as (step & Hstep & Hn);
    [by apply sorted_items_elem_of|].
  by exists step.
Qed.

Lemma numbered_step_inv step :
  step ∈ steps →
  ∃ k, is_Some (tasks !! k) ∧ StepDefinition.id step = step_id_of k ∧
       deps_of step = if decide (1 < k)%Z then [step_id_of (k - 1)] else [].
Proof.
  intros Hstep.
  destruct (numbered_inv _ _ _ steps_numbered Hstep) as ([k d] & Hitem & Hn).
  exists k. split; [|done]. apply sorted_items_elem_of in Hitem. by exists d.
Qed.

(** A dependency of the generated graph leads from a step to the step
    numbered one less. *)
Lemma numbered_depends x d :
  depends (step_graph_of steps) x d →
  ∃ k, (1 < k)%Z ∧ x = step_id_of k ∧ d = step_id_of (k - 1).
Proof.
  intros (step & Hstep & <- & Hd)%depends_step.
  destruct (numbered_step_inv step Hstep) as (k & _ & Hid & Hdeps).
  rewrite Hdeps in Hd. case_decide; [|by apply elem_of_nil in Hd].
  apply list_elem_of_singleton in Hd as ->. by exists k.
Qed.

Lemma numbered_acyclic : acyclic (step_graph_of steps).
Proof.
  assert (∀ x y, tc (depends (step_graph_of steps)) x y →
            ∃ k j, (j < k)%Z ∧ x = step_id_of k ∧ y = step_id_of j) as Htc.
  { intros x y Hxy. induction Hxy as [x y Hxy|x y z Hxy _ (k & j & Hjk & -> & ->)].
    - apply numbered_depends in Hxy as (k & Hk & -> & ->).
      exists k, (k - 1)%Z. split; [lia | done].
    - apply numbered_depends in Hxy as (k' & Hk' & -> & Heq%step_id_of_inj).
      exists k', j. split; [lia | done]. }
  intros x (k & j & Hjk & -> & Heq%step_id_of_inj)%Htc. lia.
Qed.

Hypothesis tasks_closed :
  ∀ k, is_Some (tasks !! k) → (1 < k)%Z → is_Some (tasks !! (k - 1)%Z).

(** In a returned order of the generated graph the step of task [k] is in
    the wave numbered [k - 1], the steps of the tasks numbered 1 or less
    in the first wave. *)
Lemma numbered_wave (self : WorkflowSchema.t) waves :
  WorkflowSchema.steps self = steps →
  get_execution_order self = Some (Ok waves) →
  ∀ k, is_Some (tasks !! k) →
    ∃ w, waves !! Z.to_nat (k - 1) = Some w ∧ step_id_of k ∈ w.
Proof.
  intros Hsteps Hrun.
  destruct (get_execution_order_Ok_inv self waves Hrun)
    as (_ & _ & HL & Hperm & _).
  pose proof (layered_nodup _ _ _ HL) as Hnd.
  rewrite Hsteps in Hperm.
  assert (∀ k, is_Some (tasks !! k) → ∃ i w, waves !! i = Some w ∧ step_id_of k ∈ w)
    as Hplaced.
  { intros k (step & Hstep & Hid & _)%numbered_step.
    apply elem_of_concat_lookup. rewrite Hperm, <- Hid.
    apply list_elem_of_fmap. by exists step. }
  assert (∀ n k, Z.to_nat (k - 1) = n → is_Some (tasks !! k) →
            ∃ w, waves !! n = Some w ∧ step_id_of k ∈ w) as Hwave;
    [|intros k Hk; by apply (Hwave _ k)].
  induction n as [|n IH]; intros k Hn Hk.
  - destruct (numbered_step k Hk) as (step & Hstep & Hid & Hdeps).
    rewrite decide_False in Hdeps by lia.
    destruct (Hplaced k Hk) as (i & w & Hi & _).
    destruct waves as [|w0 waves']; [by rewrite lookup_nil in Hi|].
    exists w0. split; [done|]. rewrite <- Hid.
    apply (wave_membership self (w0 :: waves') 0 w0 step Hrun);
      [done | by rewrite Hsteps |].
    split; [apply not_elem_of_nil|].
    rewrite Hdeps. by intros dep ?%elem_of_nil.
  - destruct (IH (k - 1)%Z) as (w' & Hm & Hw'); [lia | apply tasks_closed; [done | lia] |].
    destruct (numbered_step k Hk) as (step & Hstep & Hid & Hdeps).
    rewrite decide_True in Hdeps by lia.
    rewrite <- Hsteps in Hstep.
    destruct (Hplaced k Hk) as (i & w & Hi & Hw).
    pose proof (wave_membership self waves i w step Hrun Hi Hstep) as Hmem.
    rewrite Hid, Hdeps in Hmem. destruct (proj1 Hmem Hw) as [_ Hdep].
    destruct (proj1 (elem_of_concat_take waves i _)
                (Hdep _ (list_elem_of_here _ _))) as (j & wj & Hji & Hj & Hxj).
    assert (j = n) as -> by (by eapply (concat_wave_unique waves)).
    destruct (lookup_lt_is_Some_2 waves (S n)) as [w'' Hw''];
      [apply lookup_lt_Some in Hi; lia|].
    exists w''. split; [done|]. rewrite <- Hid.
    apply (wave_membership self waves (S n) w'' step Hrun Hw'' Hstep). split.
    + rewrite Hid. intros (j' & wj' & Hlt & Hj' & Hx')%elem_of_concat_take.
      assert (j' = i) by (by eapply (concat_wave_unique waves)). lia.
    + rewrite Hdeps. intros dep ->%list_elem_of_singleton.
      apply elem_of_concat_take. exists n, w'. split; [lia | done].
Qed.
End generated_chain.

Section generated_order.
Import WorkflowManager.

Lemma create_workflow_from_tasks_Ok_steps (self self' : WorkflowManager.t)
    (tasks : gmap Z string) workflow_name workflow_id description category created :
  create_workflow_from_tasks self tasks workflow_name workflow_id description
    category = (Ok created, self') →
  ∃ workflow,
    workflows_registry self' !! created = Some workflow ∧
    Forall2 numbered (merge_sort item_le (map_to_list tasks))
      (WorkflowSchema.steps workflow) ∧
    ∀ k, is_Some (tasks !! k) → (1 < k)%Z → is_Some (tasks !! (k - 1)%Z).
Proof.
  unfold create_workflow_from_tasks.
  destruct (make_steps_Ok (merge_sort item_le (map_to_list tasks)))
    as (steps & -> & Hnumbered). simpl.
  destruct (WorkflowSchema.init _ steps _ _ _) as [workflow|e] eqn:Hinit; [|done].
  unfold WorkflowSchema.init in Hinit.
  destruct (WorkflowSchema.validate_step_dependencies steps) as [v|e] eqn:Hv;
    [|done].
  pose proof Hv as ->%validate_step_dependencies_inv.
  simpl in Hinit. injection Hinit as <-.
  intros [= <- <-]. eexists. simpl. rewrite lookup_insert_eq.
  split_and!; [done | done |].
  apply (numbered_closed tasks steps Hnumbered).
  by apply validate_step_dependencies_Ok.
Qed.

Lemma create_workflow_from_tasks_Ok_intro (self : WorkflowManager.t)
    (tasks : gmap Z string) workflow_name workflow_id description category :
  (∀ k, is_Some (tasks !! k) → (1 < k)%Z → is_Some (tasks !! (k - 1)%Z)) →
  ∃ self',
    create_workflow_from_tasks self tasks workflow_name workflow_id description
      category = (Ok (resolve_id workflow_name workflow_id), self').
Proof.
  intros Hpred. unfold create_workflow_from_tasks.
  destruct (make_steps_Ok (merge_sort item_le (map_to_list tasks)))
    as (steps & -> & Hnumbered). simpl.
  assert (WorkflowSchema.validate_step_dependencies steps = Ok steps) as Hvalid.
  { apply validate_step_dependencies_Ok. by apply (numbered_closed tasks). }
  unfold WorkflowSchema.init. rewrite Hvalid. simpl. by eexists.
Qed.

(** A workflow built from a task map always has an execution order. *)
Lemma generated_order_exists (tasks : gmap Z string) (workflow : WorkflowSchema.t) :
  Forall2 numbered (merge_sort item_le (map_to_list tasks))
    (WorkflowSchema.steps workflow) →
  (∀ k, is_Some (tasks !! k) → (1 < k)%Z → is_Some (tasks !! (k - 1)%Z)) →
  ∃ waves, WorkflowSchema.get_execution_order workflow = Some (Ok waves).
Proof.
  intros Hnumbered Hpred. apply get_execution_order_Ok_intro.
  - by apply (numbered_NoDup tasks).
  - by apply (numbered_closed tasks).
  - by apply (numbered_acyclic tasks).
Qed.

Lemma tasks_of_args_keys (args : list string) :
  NoDup (imap (λ i task, ((Z.of_nat i + 1)%Z, task)) args).*1.
Proof.
  rewrite fmap_imap. apply NoDup_alt. intros i j x Hi Hj.
  apply list_lookup_imap_Some in Hi as (? & _ & ->).
  apply list_lookup_imap_Some in Hj as (? & _ & Heq). simpl in Heq. lia.
Qed.

Lemma tasks_of_args_lookup (args : list string) k d :
  tasks_of_args args !! k = Some d ↔
  ∃ i, k = (Z.of_nat i + 1)%Z ∧ args !! i = Some d.
Proof.
  unfold tasks_of_args. rewrite <- elem_of_list_to_map by apply tasks_of_args_keys.
  rewrite elem_of_lookup_imap. split.
  - intros (i & y & [= -> ->] & Hi). by exists i.
  - intros (i & -> & Hi). by exists i, d.
Qed.

Lemma tasks_of_args_size (args : list string) :
  size (tasks_of_args args) = length args.
Proof.
  unfold tasks_of_args.
  rewrite map_size_list_to_map by apply tasks_of_args_keys.
  apply length_imap.
Qed.
End generated_order.

(** X16.  A workflow that [create_workflow_from_tasks] has registered
    always has an execution order: [get_execution_order] returns, and the
    step of task [k] is in the wave numbered [k - 1]; the steps of the
    tasks numbered 1 or less share the first wave. *)
Theorem create_workflow_from_tasks_order (self self' : WorkflowManager.t)
    (tasks : gmap Z string) workflow_name workflow_id description category created :
  WorkflowManager.create_workflow_from_tasks self tasks workflow_name
    workflow_id description category = (Ok created, self') →
  ∃ workflow waves,
    WorkflowManager.get_workflow_schema self' created = Ok workflow ∧
    WorkflowSchema.get_execution_order workflow = Some (Ok waves) ∧
    ∀ k, is_Some (tasks !! k) →
      ∃ w, waves !! Z.to_nat (k - 1) = Some w ∧ WorkflowManager.step_id_of k ∈ w.
Proof.
  intros (workflow & Hget & Hnumbered & Hpred)%create_workflow_from_tasks_Ok_steps.
  destruct (generated_order_exists tasks workflow Hnumbered Hpred) as [waves Hrun].
  exists workflow, waves. unfold WorkflowManager.get_workflow_schema.
  rewrite Hget. split_and!; [done | done |].
  by apply (numbered_wave tasks (WorkflowSchema.steps workflow) Hnumbered Hpred workflow).
Qed.

Lemma create_workflow_from_tasks_order_witness :
  let self := WorkflowManager.mk ∅ in
  let tasks : gmap Z string :=
    {[ 0%Z := "upload file"; 1%Z := "fetch api"; 2%Z := "report" ]} in
  ∃ self',
    WorkflowManager.create_workflow_from_tasks self tasks None None None
      "auto_generated" = (Ok "auto_workflow", self') ∧
    ∃ workflow waves,
      WorkflowManager.get_workflow_schema self' "auto_workflow" = Ok workflow ∧
      WorkflowSchema.get_execution_order workflow = Some (Ok waves) ∧
      ∀ k, is_Some (tasks !! k) →
        ∃ w, waves !! Z.to_nat (k - 1) = Some w ∧ WorkflowManager.step_id_of k ∈ w.
Proof.
  intros self tasks. eexists.
  assert (WorkflowManager.create_workflow_from_tasks self tasks None None None
            "auto_generated"
          = (Ok "auto_workflow",
             (WorkflowManager.create_workflow_from_tasks self tasks None None None
                "auto_generated").2)) as Hcreate
    by (vm_compute; reflexivity).
  split; [exact Hcreate|].
  exact (create_workflow_from_tasks_order self _ tasks None None None
           "auto_generated" "auto_workflow" Hcreate).
Defined.

(** X17.  The command line numbers its task arguments from 1, and for
    such a task map [create_workflow_from_tasks] never raises and the
    registered workflow runs the tasks one per wave in the order they were
    given: its execution order is [[step_1], [step_2], ..., [step_n]]. *)
Theorem tasks_of_args_sequential (self : WorkflowManager.t) (args : list string)
    workflow_name workflow_id description category :
  ∃ self' workflow,
    WorkflowManager.create_workflow_from_tasks self
      (WorkflowManager.tasks_of_args args) workflow_name workflow_id description
      category
    = (Ok (WorkflowManager.resolve_id workflow_name workflow_id), self') ∧
    WorkflowManager.get_workflow_schema self'
      (WorkflowManager.resolve_id workflow_name workflow_id) = Ok workflow ∧
    length (WorkflowSchema.steps workflow) = length args ∧
    WorkflowSchema.get_execution_order workflow
    = Some (Ok ((λ i, [WorkflowManager.step_id_of (Z.of_nat i + 1)])
                  <$> seq 0 (length args))).
Proof.
  set (tasks := WorkflowManager.tasks_of_args args).
  assert (∀ k, is_Some (tasks !! k) ↔ ∃ i, k = (Z.of_nat i + 1)%Z ∧ i < length args)
    as Hkeys.
  { intros k. split.
    - intros [d (i & -> & Hi)%tasks_of_args_lookup]. exists i. split; [done|].
      by apply lookup_lt_Some in Hi.
    - intros (i & -> & [d Hi]%lookup_lt_is_Some_2). exists d.
      apply tasks_of_args_lookup. by exists i. }
  assert (∀ k, is_Some (tasks !! k) → (1 < k)%Z → is_Some (tasks !! (k - 1)%Z))
    as Hpred.
  { intros k (i & -> & Hi)%Hkeys Hk. apply Hkeys. exists (i - 1). lia. }
  destruct (create_workflow_from_tasks_Ok_intro self tasks workflow_name workflow_id
              description category Hpred) as [self' Hcreate].
  destruct (create_workflow_from_tasks_Ok_steps _ _ _ _ _ _ _ _ Hcreate)
    as (workflow & Hget & Hnumbered & _).
  destruct (generated_order_exists tasks workflow Hnumbered Hpred) as [waves Hrun].
  exists self', workflow. unfold WorkflowManager.get_workflow_schema.
  rewrite Hget. split; [done|]. split; [done|].
  assert (length (WorkflowSchema.steps workflow) = length args) as Hlen.
  { rewrite <- (Forall2_length _ _ _ Hnumbered), merge_sort_Permutation.
    rewrite length_map_to_list. apply tasks_of_args_size. }
  split; [done|]. rewrite Hrun. do 2 f_equal.
  destruct (get_execution_order_Ok_inv workflow waves Hrun)
    as (_ & _ & HL & Hperm & _).
  assert (length (concat waves) = length args) as Hsum
    by (by rewrite Hperm, length_fmap).
  assert (∀ i, i < length args →
            ∃ w, waves !! i = Some w ∧ WorkflowManager.step_id_of (Z.of_nat i + 1) ∈ w)
    as Hwave.
  { intros i Hi.
    destruct (numbered_wave tasks (WorkflowSchema.steps workflow) Hnumbered Hpred
                workflow waves eq_refl Hrun (Z.of_nat i + 1)%Z) as (w & Hw & Hin).
    - apply Hkeys. by exists i.
    - exists w. split; [|done]. rewrite <- Hw. f_equal. lia. }
  assert (length waves = length args) as Hwaves.
  { pose proof (nonempty_waves_length waves (layered_nonempty _ _ _ HL)).
    destruct (decide (length args ≤ length waves)) as [|Hshort]; [lia|].
    destruct (Hwave (length waves)) as (w & Hw & _); [lia|].
    apply lookup_lt_Some in Hw. lia. }
  apply list_eq. intros i. rewrite list_lookup_fmap.
  destruct (decide (i < length args)) as [Hi|Hi].
  - rewrite lookup_seq_lt by done. simpl.
    destruct (Hwave i Hi) as (w & Hw & Hin). rewrite Hw. f_equal.
    assert (length w = 1) as Hone.
    { apply (singleton_waves waves (layered_nonempty _ _ _ HL)); [lia|].
      apply list_elem_of_lookup. by exists i. }
    destruct w as [|x [|y w]]; [done | | done].
    by apply list_elem_of_singleton in Hin as ->.
  - rewrite lookup_seq_ge by lia. simpl. apply lookup_ge_None_2. lia.
Qed.

(** * Generated files and deployment *)

Section deployment_facts.
Context {exn path fs : Type}.
Variable render_plugin : WorkflowGenerator.plugin_context → outcome exn string.
Variable render_component : WorkflowGenerator.component_context → outcome exn string.
Variable json_dumps : Py.obj → outcome exn string.
Variable joinpath : path → string → path.
Variable parent : path → path.
Variable open_w : path → Deployment.io exn fs unit.
Variable write : path → string → Deployment.io exn fs unit.
Variable mkdir : path → Deployment.io exn fs unit.

(** The four file names of a workflow are pairwise distinct, so no
    artifact overwrites another in the returned dict. *)
Lemma generated_files_lookup (workflow : WorkflowSchema.t) files :
  WorkflowGenerator.generate_workflow_files render_plugin render_component
    json_dumps workflow = Ok files →
  let workflow_id := WorkflowMetadata.id (WorkflowSchema.metadata workflow) in
  ∃ plugin_code component_code config schema,
    WorkflowGenerator.generate_fastapi_plugin render_plugin workflow
      = Ok plugin_code ∧
    WorkflowGenerator.generate_react_component render_component workflow
      = Ok component_code ∧
    json_dumps (WorkflowGenerator.generate_app_config workflow) = Ok config ∧
    json_dumps (Dump.WorkflowSchema workflow) = Ok schema ∧
    files !! (workflow_id +:+ "_plugin.py") = Some plugin_code ∧
    files !! (workflow_id +:+ "_workflow.tsx") = Some component_code ∧
    files !! (workflow_id +:+ "_config.json") = Some config ∧
    files !! (workflow_id +:+ "_schema.json") = Some schema ∧
    size files = 4.
Proof.
  intros Hfiles workflow_id.
  unfold WorkflowGenerator.generate_workflow_files in Hfiles.
  fold workflow_id in Hfiles.
  destruct (WorkflowGenerator.generate_fastapi_plugin render_plugin workflow)
    as [plugin_code|e]; simpl in Hfiles; [|done].
  destruct (WorkflowGenerator.generate_react_component render_component workflow)
    as [component_code|e]; simpl in Hfiles; [|done].
  destruct (json_dumps (WorkflowGenerator.generate_app_config workflow))
    as [config|e]; simpl in Hfiles; [|done].
  destruct (json_dumps (Dump.WorkflowSchema workflow))
    as [schema|e]; simpl in Hfiles; [|done].
  injection Hfiles as <-.
  assert (∀ a b : string, a ≠ b → workflow_id +:+ a ≠ workflow_id +:+ b) as Hne
    by (intros a b Hab Heq; by apply String.app_inj in Heq).
  exists plugin_code, component_code, config, schema.
  split_and!; try done.
  - rewrite !lookup_insert_ne by (by apply Hne). apply lookup_insert_eq.
  - rewrite !lookup_insert_ne by (by apply Hne). apply lookup_insert_eq.
  - rewrite !lookup_insert_ne by (by apply Hne). apply lookup_insert_eq.
  - apply lookup_insert_eq.
  - rewrite !map_size_insert_None; [by rewrite map_size_empty| |..].
    all: rewrite ?lookup_insert_ne by (by apply Hne); apply lookup_empty.
Qed.

Lemma external_outcome {A} (m : Deployment.io exn fs A) st :
  (∃ a, (Deployment.external m st).1 = Ok a) ∨
  (∃ x, (Deployment.external m st).1 = Raise (Deployment.External x)).
Proof.
  unfold Deployment.external. destruct (m st) as [[a|x] st']; simpl; eauto.
Qed.

Lemma write_file_outcome (files : gmap string string) p key st :
  is_Some (files !! key) →
  fails_externally (Deployment.write_file open_w write files p key st).
Proof.
  intros [content Hkey] e. unfold Deployment.write_file, Deployment.external,
    Deployment.pure, mbind, Deployment.io_bind.
  destruct (open_w p st) as [[[]|x] st1]; simpl; [|intros [= <-]; by eexists].
  rewrite Hkey.
  destruct (write p content st1) as [[[]|x] st2]; simpl; [done|].
  intros [= <-]. by eexists.
Qed.

Lemma bind_fails_externally {A B} (m : Deployment.io (Deployment.error exn) fs A)
    (k : A → Deployment.io (Deployment.error exn) fs B) st :
  fails_externally (m st) →
  (∀ a st', fails_externally (k a st')) →
  fails_externally ((m ≫= k) st).
Proof.
  intros Hm Hk e. unfold mbind, Deployment.io_bind.
  destruct (m st) as [[a|e'] st'] eqn:Hrun.
  - apply Hk.
  - simpl. intros [= <-]. by apply Hm.
Qed.

Lemma external_fails_externally {A} (m : Deployment.io exn fs A) st :
  fails_externally (Deployment.external m st).
Proof.
  intros e. unfold Deployment.external.
  destruct (m st) as [[a|x] st']; simpl; [done|]. intros [= <-]. by eexists.
Qed.

Lemma pure_bind_Ok {A B} (a : A)
    (k : A → Deployment.io (Deployment.error exn) fs B) st :
  (Deployment.pure (Ok a) ≫= k) st = k a st.
Proof. reflexivity. Qed.

Lemma pure_bind_Raise {A B} (e : Deployment.error exn)
    (k : A → Deployment.io (Deployment.error exn) fs B) st :
  (Deployment.pure (Raise e) ≫= k) st = (Raise e, st).
Proof. reflexivity. Qed.

Lemma deploy_workflow_keyed_entry (self : WorkflowManager.t)
    (dirs : Deployment.directories path) workflow_id workflow st :
  WorkflowManager.workflows_registry self !! workflow_id = Some workflow →
  WorkflowMetadata.id (WorkflowSchema.metadata workflow) = workflow_id →
  fails_externally
    (Deployment.deploy_workflow render_plugin render_component json_dumps
       joinpath parent open_w write mkdir self dirs workflow_id st).
Proof.
  intros Hget Hid. unfold Deployment.deploy_workflow, Deployment.registered.
  rewrite Hget, pure_bind_Ok. unfold Deployment.generated.
  destruct (WorkflowGenerator.generate_workflow_files render_plugin render_component
              json_dumps workflow) as [files|x] eqn:Hfiles.
  - destruct (generated_files_lookup workflow files Hfiles)
      as (p & c & g & s & _ & _ & _ & _ & Hp & Hc & Hg & Hs & _).
    rewrite Hid in Hp, Hc, Hg, Hs. rewrite pure_bind_Ok.
    apply bind_fails_externally; [by apply write_file_outcome|]. intros _ st1.
    apply bind_fails_externally; [by apply write_file_outcome|]. intros _ st2.
    apply bind_fails_externally; [apply external_fails_externally|]. intros _ st3.
    apply bind_fails_externally; [by apply write_file_outcome|]. intros _ st4.
    apply bind_fails_externally; [by apply write_file_outcome|]. intros _ st5.
    by intros e.
  - rewrite pure_bind_Raise. intros e. simpl. intros [= <-]. by eexists.
Qed.

(** X18.  A returned dict of generated files has exactly four entries:
    the four file names of a workflow are pairwise distinct whatever its
    id, so no artifact overwrites another, and each name holds the text
    its emitter returned. *)
Theorem generate_workflow_files_entries (workflow : WorkflowSchema.t) files :
  WorkflowGenerator.generate_workflow_files render_plugin render_component
    json_dumps workflow = Ok files →
  let workflow_id := WorkflowMetadata.id (WorkflowSchema.metadata workflow) in
  size files = 4 ∧
  ∃ plugin_code component_code config schema,
    WorkflowGenerator.generate_fastapi_plugin render_plugin workflow
      = Ok plugin_code ∧
    files !! (workflow_id +:+ "_plugin.py") = Some plugin_code ∧
    WorkflowGenerator.generate_react_component render_component workflow
      = Ok component_code ∧
    files !! (workflow_id +:+ "_workflow.tsx") = Some component_code ∧
    json_dumps (WorkflowGenerator.generate_app_config workflow) = Ok config ∧
    files !! (workflow_id +:+ "_config.json") = Some config ∧
    json_dumps (Dump.WorkflowSchema workflow) = Ok schema ∧
    files !! (workflow_id +:+ "_schema.json") = Some schema.
Proof.
  intros Hfiles workflow_id.
  destruct (generated_files_lookup workflow files Hfiles)
    as (p & c & g & s & ? & ? & ? & ? & ? & ? & ? & ? & ?).
  split; [done|]. by exists p, c, g, s.
Qed.

(** X19.  While every workflow is registered under its own metadata id,
    [deploy_workflow] raises nothing of its own except the [ValueError]
    for an id that is not registered: the four [files[...]] lookups
    always find their key, so any other exception comes from the
    emitters or the file system. *)
Theorem deploy_workflow_keyed (self : WorkflowManager.t)
    (dirs : Deployment.directories path) workflow_id st e :
  registry_keyed self →
  (Deployment.deploy_workflow render_plugin render_component json_dumps
     joinpath parent open_w write mkdir self dirs workflow_id st).1 = Raise e →
  (WorkflowManager.workflows_registry self !! workflow_id = None ∧
   e = Deployment.NotRegistered (WorkflowNotFound workflow_id)) ∨
  ∃ x, e = Deployment.External x.
Proof.
  intros Hkeyed.
  destruct (WorkflowManager.workflows_registry self !! workflow_id)
    as [workflow|] eqn:Hget.
  - intros Hraise. right.
    by apply (deploy_workflow_keyed_entry self dirs workflow_id workflow st Hget
                (Hkeyed _ _ Hget)).
  - unfold Deployment.deploy_workflow, Deployment.registered.
    rewrite Hget, pure_bind_Raise. simpl. intros [= <-]. by left.
Qed.

(** X20.  Whenever [generate_workflow] raises for an id, because the id
    is not registered or because an emitter raised, [deploy_workflow]
    raises the same exception and leaves the file system as it was. *)
Theorem deploy_workflow_untouched (self : WorkflowManager.t)
    (dirs : Deployment.directories path) workflow_id st e :
  Deployment.generate_workflow render_plugin render_component json_dumps
    self workflow_id = Raise e →
  Deployment.deploy_workflow render_plugin render_component json_dumps
    joinpath parent open_w write mkdir self dirs workflow_id st = (Raise e, st).
Proof.
  unfold Deployment.generate_workflow, Deployment.deploy_workflow.
  destruct (Deployment.registered self workflow_id) as [workflow|e'] eqn:Hreg; simpl.
  - rewrite pure_bind_Ok.
    destruct (Deployment.generated render_plugin render_component json_dumps
                workflow) as [files|e'] eqn:Hgen; [done|].
    intros [= <-]. by rewrite pure_bind_Raise.
  - intros [= <-]. by rewrite pure_bind_Raise.
Qed.

(** X21.  While every workflow is registered under its own metadata id,
    a deployment whose generation step returns and whose file system
    operations all succeed returns the four paths: the plugin in the
    backend directory, the component in the frontend directory, and
    [config.json] and [schema.json] in the directory of the workflow
    under the apps directory. *)
Theorem deploy_workflow_returns (self : WorkflowManager.t)
    (dirs : Deployment.directories path) workflow_id files st :
  registry_keyed self →
  Deployment.generate_workflow render_plugin render_component json_dumps
    self workflow_id = Ok files →
  (∀ p st, ∃ st', open_w p st = (Ok tt, st')) →
  (∀ p content st, ∃ st', write p content st = (Ok tt, st')) →
  (∀ p st, ∃ st', mkdir p st = (Ok tt, st')) →
  ∃ st',
    Deployment.deploy_workflow render_plugin render_component json_dumps
      joinpath parent open_w write mkdir self dirs workflow_id st
    = (Ok {| Deployment.backend_plugin :=
               joinpath (Deployment.backend_dir dirs) (workflow_id +:+ "_plugin.py");
             Deployment.frontend_component :=
               joinpath (Deployment.frontend_dir dirs)
                 (workflow_id +:+ "_workflow.tsx");
             Deployment.app_config :=
               joinpath (joinpath (Deployment.apps_dir dirs) workflow_id)
                 "config.json";
             Deployment.schema :=
               joinpath (joinpath (Deployment.apps_dir dirs) workflow_id)
                 "schema.json" |}, st').
Proof.
  intros Hkeyed Hgen Hopen Hwrite Hmkdir.
  unfold Deployment.generate_workflow in Hgen.
  unfold Deployment.deploy_workflow.
  destruct (Deployment.registered self workflow_id) as [workflow|e] eqn:Hreg;
    simpl in Hgen; [|done].
  rewrite pure_bind_Ok, Hgen, pure_bind_Ok.
  unfold Deployment.registered in Hreg.
  destruct (WorkflowManager.workflows_registry self !! workflow_id)
    as [workflow'|] eqn:Hget; [|done].
  injection Hreg as ->. apply Hkeyed in Hget.
  unfold Deployment.generated in Hgen.
  destruct (WorkflowGenerator.generate_workflow_files render_plugin render_component
              json_dumps workflow) as [files'|x] eqn:Hfiles; [|done].
  injection Hgen as ->.
  destruct (generated_files_lookup workflow files Hfiles)
    as (p & c & g & s & _ & _ & _ & _ & Hp & Hc & Hg & Hs & _).
  rewrite Hget in Hp, Hc, Hg, Hs.
  assert (∀ q key st1, is_Some (files !! key) →
            ∃ st2, Deployment.write_file open_w write files q key st1
                   = (Ok tt, st2)) as Hfile.
  { intros q key st1 [content Hkey].
    unfold Deployment.write_file, Deployment.external, Deployment.pure,
      mbind, Deployment.io_bind.
    destruct (Hopen q st1) as [st2 ->]. rewrite Hkey.
    destruct (Hwrite q content st2) as [st3 ->]. by exists st3. }
  unfold mbind, Deployment.io_bind.
  destruct (Hfile (joinpath (Deployment.backend_dir dirs)
                     (workflow_id +:+ "_plugin.py")) _ st (mk_is_Some _ _ Hp))
    as [st1 ->].
  destruct (Hfile (joinpath (Deployment.frontend_dir dirs)
                     (workflow_id +:+ "_workflow.tsx")) _ st1 (mk_is_Some _ _ Hc))
    as [st2 ->].
  unfold Deployment.external at 1.
  destruct (Hmkdir (parent (joinpath (joinpath (Deployment.apps_dir dirs) workflow_id)
                              "config.json")) st2) as [st3 ->].
  destruct (Hfile (joinpath (joinpath (Deployment.apps_dir dirs) workflow_id)
                     "config.json") _ st3 (mk_is_Some _ _ Hg)) as [st4 ->].
  destruct (Hfile (joinpath (joinpath (Deployment.apps_dir dirs) workflow_id)
                     "schema.json") _ st4 (mk_is_Some _ _ Hs)) as [st5 ->].
  by exists st5.
Qed.
End deployment_facts.

Lemma generate_workflow_files_entries_witness :
  let render_plugin := λ _ : WorkflowGenerator.plugin_context,
    Ok "plugin" : outcome string string in
  let render_component := λ _ : WorkflowGenerator.component_context,
    Ok "component" : outcome string string in
  let json_dumps := λ _ : Py.obj, Ok "{}" : outcome string string in
  let workflow := Sample.workflow Sample.diamond in
  ∃ files,
    WorkflowGenerator.generate_workflow_files render_plugin render_component
      json_dumps workflow = Ok files ∧
    size files = 4 ∧
    ∃ plugin_code component_code config schema,
      WorkflowGenerator.generate_fastapi_plugin render_plugin workflow
        = Ok plugin_code ∧
      files !! "sample_plugin.py" = Some plugin_code ∧
      WorkflowGenerator.generate_react_component render_component workflow
        = Ok component_code ∧
      files !! "sample_workflow.tsx" = Some component_code ∧
      json_dumps (WorkflowGenerator.generate_app_config workflow) = Ok config ∧
      files !! "sample_config.json" = Some config ∧
      json_dumps (Dump.WorkflowSchema workflow) = Ok schema ∧
      files !! "sample_schema.json" = Some schema.
Proof.
  intros render_plugin render_component json_dumps workflow.
  eexists. split; [reflexivity|].
  exact (generate_workflow_files_entries render_plugin render_component
           json_dumps workflow _ eq_refl).
Defined.

Lemma deploy_workflow_keyed_witness :
  let render_plugin := λ _ : WorkflowGenerator.plugin_context,
    Ok "plugin" : outcome string string in
  let render_component := λ _ : WorkflowGenerator.component_context,
    Ok "component" : outcome string string in
  let json_dumps := λ _ : Py.obj, Ok "{}" : outcome string string in
  let joinpath := λ directory name : string, directory +:+ "/" +:+ name in
  let parent := λ p : string, p in
  let open_w := λ (p : string) (st : list (string * string)),
    (Ok tt : outcome string unit, (p, "") :: st) in
  let write := λ (p content : string) (st : list (string * string)),
    (if decide (p = "backend/sample_plugin.py")
     then Raise "disk full" else Ok tt : outcome string unit, (p, content) :: st) in
  let mkdir := λ (p : string) (st : list (string * string)),
    (Ok tt : outcome string unit, st) in
  let self := WorkflowManager.mk {[ "sample" := Sample.workflow Sample.diamond ]} in
  let dirs := {| Deployment.backend_dir := "backend";
                 Deployment.frontend_dir := "frontend";
                 Deployment.apps_dir := "apps" |} in
  registry_keyed self ∧
  (Deployment.deploy_workflow render_plugin render_component json_dumps
     joinpath parent open_w write mkdir self dirs "sample" []).1
  = Raise (Deployment.External "disk full") ∧
  ((WorkflowManager.workflows_registry self !! "sample" = None ∧
    Deployment.External "disk full"
    = Deployment.NotRegistered (WorkflowNotFound "sample")) ∨
   ∃ x, Deployment.External "disk full" = Deployment.External x).
Proof.
  intros render_plugin render_component json_dumps joinpath parent open_w write
    mkdir self dirs.
  assert (registry_keyed self) as Hkeyed.
  { intros key workflow Hget. unfold self in Hget. simpl in Hget.
    by apply lookup_singleton_Some in Hget as [<- <-]. }
  split; [exact Hkeyed|]. split; [reflexivity|].
  exact (deploy_workflow_keyed render_plugin render_component json_dumps joinpath
           parent open_w write mkdir self dirs "sample" [] _ Hkeyed eq_refl).
Defined.

Lemma deploy_workflow_untouched_witness :
  let render_plugin := λ _ : WorkflowGenerator.plugin_context,
    Ok "plugin" : outcome string string in
  let render_component := λ _ : WorkflowGenerator.component_context,
    Raise "template error" : outcome string string in
  let json_dumps := λ _ : Py.obj, Ok "{}" : outcome string string in
  let joinpath := λ directory name : string, directory +:+ "/" +:+ name in
  let parent := λ p : string, p in
  let open_w := λ (p : string) (st : list (string * string)),
    (Ok tt : outcome string unit, (p, "") :: st) in
  let write := λ (p content : string) (st : list (string * string)),
    (Ok tt : outcome string unit, (p, content) :: st) in
  let mkdir := λ (p : string) (st : list (string * string)),
    (Ok tt : outcome string unit, st) in
  let self := WorkflowManager.mk {[ "sample" := Sample.workflow Sample.diamond ]} in
  let dirs := {| Deployment.backend_dir := "backend";
                 Deployment.frontend_dir := "frontend";
                 Deployment.apps_dir := "apps" |} in
  Deployment.generate_workflow render_plugin render_component json_dumps
    self "sample" = Raise (Deployment.External "template error") ∧
  Deployment.deploy_workflow render_plugin render_component json_dumps
    joinpath parent open_w write mkdir self dirs "sample" [("kept", "text")]
  = (Raise (Deployment.External "template error"), [("kept", "text")]).
Proof.
  intros render_plugin render_component json_dumps joinpath parent open_w write
    mkdir self dirs.
  split; [reflexivity|].
  exact (deploy_workflow_untouched render_plugin render_component json_dumps
           joinpath parent open_w write mkdir self dirs "sample"
           [("kept", "text")] _ eq_refl).
Defined.

Lemma deploy_workflow_returns_witness :
  let render_plugin := λ _ : WorkflowGenerator.plugin_context,
    Ok "plugin" : outcome string string in
  let render_component := λ _ : WorkflowGenerator.component_context,
    Ok "component" : outcome string string in
  let json_dumps := λ _ : Py.obj, Ok "{}" : outcome string string in
  let joinpath := λ directory name : string, directory +:+ "/" +:+ name in
  let parent := λ p : string, p in
  let open_w := λ (p : string) (st : list (string * string)),
    (Ok tt : outcome string unit, (p, "") :: st) in
  let write := λ (p content : string) (st : list (string * string)),
    (Ok tt : outcome string unit, (p, content) :: st) in
  let mkdir := λ (p : string) (st : list (string * string)),
    (Ok tt : outcome string unit, st) in
  let self := WorkflowManager.mk {[ "sample" := Sample.workflow Sample.diamond ]} in
  let dirs := {| Deployment.backend_dir := "backend";
                 Deployment.frontend_dir := "frontend";
                 Deployment.apps_dir := "apps" |} in
  registry_keyed self ∧
  (∃ files,
     Deployment.generate_workflow render_plugin render_component json_dumps
       self "sample" = Ok files) ∧
  ∃ st',
    Deployment.deploy_workflow render_plugin render_component json_dumps
      joinpath parent open_w write mkdir self dirs "sample" []
    = (Ok {| Deployment.backend_plugin := "backend/sample_plugin.py";
             Deployment.frontend_component := "frontend/sample_workflow.tsx";
             Deployment.app_config := "apps/sample/config.json";
             Deployment.schema := "apps/sample/schema.json" |}, st').
Proof.
  intros render_plugin render_component json_dumps joinpath parent open_w write
    mkdir self dirs.
  assert (registry_keyed self) as Hkeyed.
  { intros key workflow Hget. unfold self in Hget. simpl in Hget.
    by apply lookup_singleton_Some in Hget as [<- <-]. }
  split; [exact Hkeyed|]. split; [eexists; reflexivity|].
  exact (deploy_workflow_returns render_plugin render_component json_dumps
           joinpath parent open_w write mkdir self dirs "sample" _ [] Hkeyed
           eq_refl
           (λ p st, ex_intro _ _ eq_refl)
           (λ p content st, ex_intro _ _ eq_refl)
           (λ p st, ex_intro _ _ eq_refl)).
Defined.

(** * Derived identifiers and names *)















(** X24.  The custom handlers handed to the plugin template are exactly
    the non-empty handler names that some step carries; steps without a
    handler, or with the empty string as handler, contribute nothing, and
    a name shared by several steps is listed once. *)
Theorem custom_handlers_of_spec (steps : list StepDefinition.t) (handler : string) :
  handler ∈ WorkflowGenerator.custom_handlers_of steps ↔
  handler ≠ "" ∧
  ∃ step, step ∈ steps ∧ StepDefinition.custom_handler step = Some handler.
Proof.
  unfold WorkflowGenerator.custom_handlers_of.
  assert (∀ acc : gset string,
            handler ∈ foldl (λ handlers step,
                               Py.if_truthy (StepDefinition.custom_handler step)
                                 (λ h, handlers ∪ {[h]}) handlers) acc steps ↔
            handler ∈ acc ∨
            (handler ≠ "" ∧
             ∃ step, step ∈ steps ∧ StepDefinition.custom_handler step = Some handler))
    as Hgen.
  { induction steps as [|step steps IH]; intros acc; simpl.
    - split; [by left|]. intros [?|(_ & ? & ?%elem_of_nil & _)]; done.
    - rewrite IH. clear IH.
      setoid_rewrite elem_of_cons.
      unfold Py.if_truthy, Py.truthy.
      destruct (StepDefinition.custom_handler step) as [h|] eqn:Hh.
      + destruct (String.eqb_spec h "") as [->|Hne]; simpl.
        * naive_solver.
        * rewrite elem_of_union, elem_of_singleton. naive_solver.
      + naive_solver. }
  rewrite Hgen. split; [intros [?%elem_of_empty|?]; done | by right].
Qed.
